(** * Budget planner: pricing engine and budget version store

    A shallow embedding of the pricing functions of
    [public/src/utils/pricing.js] and of the budget routes of [server.js],
    followed by the properties of the component specification that they
    satisfy.

    Number model.  The module [Double] computes with IEEE 754 binary64
    numbers ([SpecFloat] at precision 53: rounding to nearest with ties
    to even, signed zeros, infinities and [NaN]); the literal [0.07] is
    the double nearest to 7/100 and [Math.round x] is [floor (x + 1/2)]
    taken exactly.  The module [Pricing] is the same engine over exact
    rationals [Q], where [0.07] is 7/100 and equality of amounts is
    [Qeq] ([==]); it carries the properties that are stated of exact
    amounts.

    Object model.  A JavaScript object used as a dictionary is a finite
    map over its own keys ([gmap string _]); an object whose iteration
    order is observed ([Object.values], [Object.keys]) is an association
    list in insertion order.  In [Double] and in
    [App.initStateForConfig] a read [o[k]] and a test [k in o] also find
    the members that every object inherits from [Object.prototype];
    elsewhere a read is a read of own keys. *)

From Stdlib Require Import QArith Qround Lqa Lia ZArith Ascii String SpecFloat.
From stdpp Require Import base option list strings gmap pretty sorting.

#[local] Open Scope Q_scope.

(** ** JavaScript objects with observable key order *)

(** Property read [o[k]], [Object.values o], [Object.keys o] and
    [o.hasOwnProperty(k)] on an insertion-ordered object. *)
Fixpoint obj_get {V} (o : list (string * V)) (k : string) : option V :=
  match o with
  | [] => None
  | (k', v) :: rest => if String.eqb k' k then Some v else obj_get rest k
  end.

Definition Object_values {V} (o : list (string * V)) : list V := map snd o.
Definition Object_keys {V} (o : list (string * V)) : list string := map fst o.

Definition hasOwnProperty {V} (o : list (string * V)) (k : string) : bool :=
  match obj_get o k with Some _ => true | None => false end.

(** ** Inherited properties

    A plain object also answers to the property names of
    [Object.prototype] (ECMAScript 20.1.3 and B.2.2): a read [o[k]] of
    such a name that [o] does not own yields the inherited member, and
    [k in o] is true. *)
Definition Object_prototype_names : list string :=
  ["constructor"; "hasOwnProperty"; "isPrototypeOf"; "propertyIsEnumerable";
   "toLocaleString"; "toString"; "valueOf"; "__proto__";
   "__defineGetter__"; "__defineSetter__"; "__lookupGetter__"; "__lookupSetter__"].

Definition inherited (k : string) : bool :=
  existsb (String.eqb k) Object_prototype_names.

(** The outcome of a read [o[k]]. *)
Inductive read (V : Type) :=
| Own (v : V)
| Inherited
| Absent.

Arguments Own {V} v.
Arguments Inherited {V}.
Arguments Absent {V}.

Definition read_of {V} (own : option V) (k : string) : read V :=
  match own with
  | Some v => Own v
  | None => if inherited k then Inherited else Absent
  end.

(** [k in o] *)
Definition has_property {V} (own : option V) (k : string) : bool :=
  match read_of own k with
  | Absent => false
  | _ => true
  end.


(** ** Pricing engine *)

Module Pricing.

(** *** Catalog and selection state *)

Record TierOffering := {
  price : Q;
  tier_sizeScale : option Q      (* [undefined] when the tier has no override *)
}.

Record Category := {
  cat_id : string;
  sizeScale : Q;
  baseTierNoScale : bool;
  isCustomized : bool;
  tiers : gmap string TierOffering
}.

Record Extra := {
  extra_id : string;
  extra_price : Q;
  extra_sizeScale : option Q
}.

Record Modifier := {
  mod_name : string;
  amount : Q
}.

(** A selection value is a tier name or [null]. *)
Definition Selection := option string.

(** [selections] is iterated by [getDominantTier], so it keeps its
    insertion order. *)
Definition Selections := list (string * Selection).

(** Truthiness of [selections[id]]: a non-empty string. *)
Definition truthy_tier (v : option Selection) : option string :=
  match v with
  | Some (Some t) => if String.eqb t EmptyString then None else Some t
  | _ => None
  end.

Record Params := {
  categories : list Category;
  selections : Selections;
  extras : gmap string bool;
  extrasData : list Extra;
  modifiers : list Modifier;
  catMods : gmap string Modifier;
  homeSize : Q
}.

Record Totals := {
  subtotal : Q;
  extrasTotal : Q;
  modifiersTotal : Q;
  equipmentSubtotal : Q;
  taxEstimate : Q;
  grandTotal : Q;
  selectedCount : nat
}.

(** *** Built-ins *)

Definition Math_round (x : Q) : Q := inject_Z (Qfloor (x + (1 # 2))).

Definition Math_max (a b : Q) : Q := if Qle_bool a b then b else a.

(** [x === 0] and the truthiness of a number. *)
Definition is_zero (x : Q) : bool := Qeq_bool x 0.

(** *** getSizeMultiplier *)

Definition getSizeMultiplier (sqft scaleFactor : Q) : Q :=
  if is_zero scaleFactor then 1
  else
    let effectiveSqft := Math_max sqft 2500 in
    let baseline := 4000 in
    let ratio := effectiveSqft / baseline in
    1 + (ratio - 1) * scaleFactor.

(** *** getCategoryPrice *)

Definition getCategoryPrice (cat : Category) (tier : Selection) (homeSize : Q) : Q :=
  match tier with
  | None => 0
  | Some t =>
    if String.eqb t EmptyString then 0
    else
      match tiers cat !! t with
      | None => 0
      | Some tierData =>
        let base := price tierData in
        if isCustomized cat then base
        else
          let skipSize := baseTierNoScale cat && String.eqb t "good" in
          let scaleToUse :=
            match tier_sizeScale tierData with
            | Some s => s
            | None => sizeScale cat
            end in
          let sizeMult := if skipSize then 1 else getSizeMultiplier homeSize scaleToUse in
          Math_round (base * sizeMult / 100) * 100
      end
  end.

(** *** getExtraPrice *)

Definition getExtraPrice (extra : Extra) (homeSize : Q) : Q :=
  match extra_sizeScale extra with
  | Some s =>
    let mult := getSizeMultiplier homeSize s in
    Math_round (extra_price extra * mult / 100) * 100
  | None => extra_price extra
  end.

(** *** calculateTotal

    Each [forEach] with its captured accumulators is a left fold. *)

Definition categoryStep (p : Params) (acc : Q * nat) (cat : Category) : Q * nat :=
  let '(subtotal, selectedCount) := acc in
  match truthy_tier (obj_get (selections p) (cat_id cat)) with
  | Some tier =>
    let subtotal := subtotal + getCategoryPrice cat (Some tier) (homeSize p) in
    let subtotal :=
      match catMods p !! cat_id cat with
      | Some m => if is_zero (amount m) then subtotal else subtotal + amount m
      | None => subtotal
      end in
    (subtotal, S selectedCount)
  | None => (subtotal, selectedCount)
  end.

Definition extraStep (p : Params) (extrasTotal : Q) (e : Extra) : Q :=
  match extras p !! extra_id e with
  | Some true => extrasTotal + getExtraPrice e (homeSize p)
  | _ => extrasTotal
  end.

Definition modifierStep (modifiersTotal : Q) (m : Modifier) : Q :=
  modifiersTotal + (if is_zero (amount m) then 0 else amount m).

Definition calculateTotal (p : Params) : Totals :=
  let '(subtotal, selectedCount) := fold_left (categoryStep p) (categories p) (0, O) in
  let extrasTotal := fold_left (extraStep p) (extrasData p) 0 in
  let modifiersTotal := fold_left modifierStep (modifiers p) 0 in
  let equipmentSubtotal := subtotal + extrasTotal + modifiersTotal in
  let taxEstimate := Math_round (equipmentSubtotal * (7 # 100)) in
  let grandTotal := equipmentSubtotal + taxEstimate in
  {| subtotal := subtotal;
     extrasTotal := extrasTotal;
     modifiersTotal := modifiersTotal;
     equipmentSubtotal := equipmentSubtotal;
     taxEstimate := taxEstimate;
     grandTotal := grandTotal;
     selectedCount := selectedCount |}.

(** *** getDominantTier *)

Definition TierCounts := list (string * nat).

Definition tierCounts0 : TierCounts :=
  [("good", O); ("standard", O); ("better", O); ("best", O)].

(** [o[k]++] on a key that [o] owns: the key keeps its position. *)
Fixpoint increment (o : TierCounts) (k : string) : TierCounts :=
  match o with
  | [] => []
  | (k', n) :: rest =>
    if String.eqb k' k then (k', S n) :: rest else (k', n) :: increment rest k
  end.

Definition countStep (tierCounts : TierCounts) (t : Selection) : TierCounts :=
  match t with
  | Some s =>
    if negb (String.eqb s EmptyString) && hasOwnProperty tierCounts s
    then increment tierCounts s
    else tierCounts
  | None => tierCounts
  end.

(** [Math.max(...counts)] on counts, which are never negative; the
    spread is never empty here. *)
Definition Math_max_counts (l : list nat) : nat := fold_right Nat.max O l.

Definition labels : list (string * string) :=
  [("good", "Good Tier"); ("standard", "Standard Tier");
   ("better", "Better Tier"); ("best", "Best Tier")].

Definition getDominantTier (sels : Selections) : string :=
  let tierCounts := fold_left countStep (Object_values sels) tierCounts0 in
  let maxCount := Math_max_counts (Object_values tierCounts) in
  if Nat.eqb maxCount 0 then EmptyString
  else
    let dominant :=
      find (fun k => match obj_get tierCounts k with
                     | Some c => Nat.eqb c maxCount
                     | None => false
                     end) (Object_keys tierCounts) in
    match dominant with
    | Some k => default EmptyString (obj_get labels k)
    | None => EmptyString
    end.

(** *** Quantities named by the specification *)

Definition sumQ (l : list Q) : Q := fold_right Qplus 0 l.

(** The category has a non-none selection. *)
Definition selected (p : Params) (cat : Category) : bool :=
  match truthy_tier (obj_get (selections p) (cat_id cat)) with
  | Some _ => true
  | None => false
  end.

Definition selectionOf (p : Params) (cat : Category) : Selection :=
  default None (obj_get (selections p) (cat_id cat)).

Definition catModAmount (p : Params) (cat : Category) : Q :=
  match catMods p !! cat_id cat with
  | Some m => amount m
  | None => 0
  end.

Definition toggledOn (p : Params) (e : Extra) : bool :=
  match extras p !! extra_id e with
  | Some true => true
  | _ => false
  end.


Definition multiple_of_100 (x : Q) : Prop :=
  exists k : Z, x == inject_Z (100 * k).

(** Number of selections whose value is the tier name [t]. *)
Definition is_tier (t : string) (v : Selection) : bool :=
  match v with
  | Some s => String.eqb t s
  | None => false
  end.

Definition count_tier (t : string) (sels : Selections) : nat :=
  length (List.filter (is_tier t) (Object_values sels)).

Definition tier_names : list string := ["good"; "standard"; "better"; "best"].

Definition label_of (t : string) : string := default EmptyString (obj_get labels t).

Definition known_tier (kv : string * Selection) : bool :=
  existsb (fun t => is_tier t (snd kv)) tier_names.

(** The label of the first tier, in the order good, standard, better,
    best, whose count reaches the maximum; empty when every count is 0. *)
Definition dominant_label (g s b x : nat) : string :=
  let m := Nat.max g (Nat.max s (Nat.max b x)) in
  if Nat.eqb m 0 then EmptyString
  else if Nat.eqb g m then "Good Tier"
  else if Nat.eqb s m then "Standard Tier"
  else if Nat.eqb b m then "Better Tier"
  else "Best Tier".

Definition bool_to_nat (b : bool) : nat := if b then 1%nat else 0%nat.

(** *** Sample catalog and states *)

Definition networking : Category :=
  {| cat_id := "networking"; sizeScale := 8 # 10; baseTierNoScale := false;
     isCustomized := false;
     tiers := <[ "good" := {| price := 5700; tier_sizeScale := None |} ]>
              (<[ "better" := {| price := 9700; tier_sizeScale := None |} ]> ∅) |}.

(** The same category after an administrator edited its price. *)
Definition customized_networking : Category :=
  {| cat_id := "networking"; sizeScale := 8 # 10; baseTierNoScale := false;
     isCustomized := true;
     tiers := <[ "good" := {| price := 5750; tier_sizeScale := None |} ]> ∅ |}.

Definition sample_params : Params :=
  {| categories := [networking];
     selections := [("networking", Some "good")];
     extras := <[ "rack" := true ]> ∅;
     extrasData := [ {| extra_id := "rack"; extra_price := 2250; extra_sizeScale := None |} ];
     modifiers := [ {| mod_name := "credit"; amount := -300 |} ];
     catMods := <[ "networking" := {| mod_name := "adj"; amount := 50 |} ]> ∅;
     homeSize := 6000 |}.

Definition sample_selections : Selections :=
  [("networking", Some "better"); ("audio", Some "better");
   ("lighting", Some "good"); ("security", None); ("shades", Some "premium")].

Definition tied_selections : Selections :=
  [("networking", Some "best"); ("audio", Some "good");
   ("lighting", Some "best"); ("security", Some "good")].

End Pricing.

(** ** Pricing engine on binary64

    The same functions of [pricing.js] with the numbers that the
    program computes with: IEEE 754 double precision, rounding to
    nearest with ties to even ([SpecFloat] at precision 53), [NaN]
    included, and with property reads that see [Object.prototype]. *)

Module Double.

Definition prec : Z := 53.
Definition emax : Z := 1024.

Definition number : Type := spec_float.

Definition add : number -> number -> number := SFadd prec emax.
Definition sub : number -> number -> number := SFsub prec emax.
Definition mul : number -> number -> number := SFmul prec emax.
Definition div : number -> number -> number := SFdiv prec emax.

Definition NaN : number := S754_nan.
Definition zero : number := S754_zero false.

(** An integer literal. *)
Definition of_Z (n : Z) : number := binary_normalize prec emax n 0 false.

(** The literal [0.07]: the double nearest to 7/100. *)
Definition seven_percent : number := S754_finite false 5044031582654956 (-56).

(** [x === 0] *)
Definition is_zero (x : number) : bool := SFeqb x zero.

(** Truthiness of a number: neither a zero nor [NaN]. *)
Definition truthy (x : number) : bool :=
  match x with
  | S754_zero _ | S754_nan => false
  | _ => true
  end.

(** [Math.max(a, b)] *)
Definition Math_max (a b : number) : number :=
  match a, b with
  | S754_nan, _ | _, S754_nan => NaN
  | _, _ =>
    if SFltb a b then b
    else if SFltb b a then a
    else match a with S754_zero true => b | _ => a end
  end.

(** The rational that a finite double denotes. *)
Definition finite_value (s : bool) (m : positive) (e : Z) : Q :=
  let sm := cond_Zopp s (Zpos m) in
  if Z.leb 0 e then inject_Z (sm * 2 ^ e)%Z
  else Qmake sm (Z.to_pos (2 ^ (- e))%Z).

Definition value (x : number) : option Q :=
  match x with
  | S754_zero _ => Some 0
  | S754_finite s m e => Some (finite_value s m e)
  | _ => None
  end.

(** The double of an integer of at most 53 bits, with its mantissa
    shifted into canonical position; [s] is the sign given to a zero. *)
Definition of_integer (s : bool) (n : Z) : number :=
  match n with
  | Z0 => S754_zero s
  | _ =>
    let digits := (Z.log2 (Z.abs n) + 1)%Z in
    if Z.leb digits prec then
      S754_finite (Z.ltb n 0) (Z.to_pos (Z.shiftl (Z.abs n) (prec - digits)))
                  (digits - prec)%Z
    else binary_normalize prec emax n 0 false
  end.

(** [Math.round(x)]: the integer [floor(x + 1/2)], taken exactly; a
    double with a non-negative exponent is an integer already, and the
    zero of a negative [x] is negative. *)
Definition Math_round (x : number) : number :=
  match x with
  | S754_finite s m e =>
    if Z.leb 0 e then x
    else of_integer s (Qfloor (finite_value s m e + (1 # 2)))
  | _ => x
  end.

(** What a function returns: a number or [undefined]. *)
Inductive result :=
| Num (x : number)
| Undefined.

(** [undefined] in arithmetic is [NaN]. *)
Definition to_number (v : result) : number :=
  match v with
  | Num x => x
  | Undefined => NaN
  end.

(** The [tier] argument: [null] (or [undefined]), a string, or an
    inherited member, of which only its property key matters. *)
Inductive tier_arg :=
| Null
| Str (t : string)
| Obj (key : string).

Definition truthy_tier (tier : tier_arg) : bool :=
  match tier with
  | Null => false
  | Str t => negb (String.eqb t EmptyString)
  | Obj _ => true
  end.

Definition property_key (tier : tier_arg) : string :=
  match tier with
  | Null => "null"
  | Str t => t
  | Obj key => key
  end.

Record TierOffering := {
  price : number;
  tier_sizeScale : option number
}.

Record Category := {
  cat_id : string;
  sizeScale : number;
  baseTierNoScale : bool;
  isCustomized : bool;
  tiers : gmap string TierOffering
}.

Record Extra := {
  extra_id : string;
  extra_price : number;
  extra_sizeScale : option number
}.

Record Modifier := {
  mod_name : string;
  amount : number
}.

Record Params := {
  categories : list Category;
  selections : list (string * option string);
  extras : gmap string bool;
  extrasData : list Extra;
  modifiers : list Modifier;
  catMods : gmap string Modifier;
  homeSize : number
}.

Record Totals := {
  subtotal : number;
  extrasTotal : number;
  modifiersTotal : number;
  equipmentSubtotal : number;
  taxEstimate : number;
  grandTotal : number;
  selectedCount : nat
}.

(** *** getSizeMultiplier *)

Definition getSizeMultiplier (sqft scaleFactor : number) : number :=
  if is_zero scaleFactor then of_Z 1
  else
    let effectiveSqft := Math_max sqft (of_Z 2500) in
    let baseline := of_Z 4000 in
    let ratio := div effectiveSqft baseline in
    add (of_Z 1) (mul (sub ratio (of_Z 1)) scaleFactor).

(** *** getCategoryPrice

    An inherited member is truthy and has neither [price] nor
    [sizeScale]: its base price is [undefined]. *)

Definition getCategoryPrice (cat : Category) (tier : tier_arg) (homeSize : number)
    : result :=
  if negb (truthy_tier tier) then Num zero
  else
    match read_of (tiers cat !! property_key tier) (property_key tier) with
    | Absent => Num zero
    | Inherited => if isCustomized cat then Undefined else Num NaN
    | Own tierData =>
      let base := price tierData in
      if isCustomized cat then Num base
      else
        let skipSize :=
          baseTierNoScale cat
          && match tier with Str t => String.eqb t "good" | _ => false end in
        let scaleToUse :=
          match tier_sizeScale tierData with
          | Some s => s
          | None => sizeScale cat
          end in
        let sizeMult := if skipSize then of_Z 1 else getSizeMultiplier homeSize scaleToUse in
        Num (mul (Math_round (div (mul base sizeMult) (of_Z 100))) (of_Z 100))
    end.

(** *** getExtraPrice *)

Definition getExtraPrice (extra : Extra) (homeSize : number) : number :=
  match extra_sizeScale extra with
  | Some s =>
    let mult := getSizeMultiplier homeSize s in
    mul (Math_round (div (mul (extra_price extra) mult) (of_Z 100))) (of_Z 100)
  | None => extra_price extra
  end.

(** *** calculateTotal *)

Section CalculateTotal.

(** The property key that an inherited member turns into: the text of a
    native function, which the engine chooses. *)
Variable native_key : string -> string.

(** [selections[cat.id]] *)
Definition tier_of (p : Params) (cat : Category) : tier_arg :=
  match read_of (obj_get (selections p) (cat_id cat)) (cat_id cat) with
  | Own (Some t) => Str t
  | Own None => Null
  | Inherited => Obj (native_key (cat_id cat))
  | Absent => Null
  end.

Definition categoryStep (p : Params) (acc : number * nat) (cat : Category)
    : number * nat :=
  let '(subtotal, selectedCount) := acc in
  let tier := tier_of p cat in
  if truthy_tier tier then
    let subtotal := add subtotal (to_number (getCategoryPrice cat tier (homeSize p))) in
    let subtotal :=
      match read_of (catMods p !! cat_id cat) (cat_id cat) with
      | Own m => if truthy (amount m) then add subtotal (amount m) else subtotal
      | _ => subtotal
      end in
    (subtotal, S selectedCount)
  else (subtotal, selectedCount).

(** [extras[e.id]] is truthy. *)
Definition toggledOn (p : Params) (e : Extra) : bool :=
  match read_of (extras p !! extra_id e) (extra_id e) with
  | Own b => b
  | Inherited => true
  | Absent => false
  end.

Definition extraStep (p : Params) (extrasTotal : number) (e : Extra) : number :=
  if toggledOn p e then add extrasTotal (getExtraPrice e (homeSize p))
  else extrasTotal.

(** [m.amount || 0] *)
Definition amount_or_0 (m : Modifier) : number :=
  if truthy (amount m) then amount m else zero.

Definition modifierStep (modifiersTotal : number) (m : Modifier) : number :=
  add modifiersTotal (amount_or_0 m).

Definition calculateTotal (p : Params) : Totals :=
  let '(subtotal, selectedCount) := fold_left (categoryStep p) (categories p) (zero, O) in
  let extrasTotal := fold_left (extraStep p) (extrasData p) zero in
  let modifiersTotal := fold_left modifierStep (modifiers p) zero in
  let equipmentSubtotal := add (add subtotal extrasTotal) modifiersTotal in
  let taxEstimate := Math_round (mul equipmentSubtotal seven_percent) in
  let grandTotal := add equipmentSubtotal taxEstimate in
  {| subtotal := subtotal;
     extrasTotal := extrasTotal;
     modifiersTotal := modifiersTotal;
     equipmentSubtotal := equipmentSubtotal;
     taxEstimate := taxEstimate;
     grandTotal := grandTotal;
     selectedCount := selectedCount |}.

(** *** Quantities named by the specification *)


Definition selected (p : Params) (cat : Category) : bool := truthy_tier (tier_of p cat).


End CalculateTotal.

(** The sign of a number; [NaN] has none. *)
Definition sign_bit (x : number) : option bool :=
  match x with
  | S754_zero s | S754_infinity s | S754_finite s _ _ => Some s
  | S754_nan => None
  end.

(** A double in canonical form and within range. *)
Definition is_double (x : number) : bool := valid_binary prec emax x.

(** [x] is finite and stands for the rational [q]. *)
Definition denotes (x : number) (q : Q) : Prop :=
  exists v, value x = Some v /\ v == q.

Definition multiple_of_100 (x : number) : Prop :=
  exists k : Z, denotes x (inject_Z (100 * k)).

(** *** Samples *)

(** The property key of an inherited member as V8 prints it. *)
Definition native_key_v8 (name : string) : string :=
  if String.eqb name "__proto__" then "[object Object]"
  else if String.eqb name "constructor" then "function Object() { [native code] }"
  else "function " +:+ name +:+ "() { [native code] }".

Definition networking : Category :=
  {| cat_id := "networking"; sizeScale := div (of_Z 8) (of_Z 10);
     baseTierNoScale := false; isCustomized := false;
     tiers := <[ "good" := {| price := of_Z 5700; tier_sizeScale := None |} ]>
              (<[ "better" := {| price := of_Z 9700; tier_sizeScale := None |} ]> ∅) |}.

(** The catalog's pre-wire category: 12000 for the good tier, scale 1. *)
Definition prewire : Category :=
  {| cat_id := "prewire"; sizeScale := of_Z 1;
     baseTierNoScale := false; isCustomized := false;
     tiers := <[ "good" := {| price := of_Z 12000; tier_sizeScale := None |} ]>
              (<[ "standard" := {| price := of_Z 22000; tier_sizeScale := None |} ]> ∅) |}.

(** A budget whose only line is a credit of 350. *)
Definition credit_params : Params :=
  {| categories := [networking];
     selections := [("networking", None)];
     extras := ∅;
     extrasData := [];
     modifiers := [ {| mod_name := "credit"; amount := of_Z (-350) |} ];
     catMods := ∅;
     homeSize := of_Z 4000 |}.

(** A saved state whose tier name is a member of [Object.prototype]. *)
Definition constructor_params : Params :=
  {| categories := [networking];
     selections := [("networking", Some "constructor")];
     extras := ∅;
     extrasData := [];
     modifiers := [];
     catMods := ∅;
     homeSize := of_Z 4000 |}.

(** The same category after an administrator edited its price. *)
Definition customized_networking : Category :=
  {| cat_id := "networking"; sizeScale := div (of_Z 8) (of_Z 10);
     baseTierNoScale := false; isCustomized := true;
     tiers := <[ "good" := {| price := of_Z 5750; tier_sizeScale := None |} ]> ∅ |}.


(** Modifier lines of 0.1, 0.2 and 0.3, and the same lines reversed. *)
Definition tenths (l : list Z) : Params :=
  {| categories := [];
     selections := [];
     extras := ∅;
     extrasData := [];
     modifiers := map (fun n => {| mod_name := "line"; amount := div (of_Z n) (of_Z 10) |}) l;
     catMods := ∅;
     homeSize := of_Z 4000 |}.

End Double.

(** ** Budget version store *)

Module VersionStore.

#[local] Open Scope Z_scope.

(** *** JSON values

    Numbers inside a saved state are integers here; a budget state is a
    JSON object, which is the shape every client of the API sends. *)

#[local] Set Warnings "-register-all".

Inductive json :=
| JNull
| JBool (b : bool)
| JNum (n : Z)
| JStr (s : string)
| JArr (items : list json)
| JObj (fields : list (string * json)).

Definition State := list (string * json).

(** Truthiness of a value that may be [undefined]. *)
Definition truthy (v : option json) : bool :=
  match v with
  | None => false
  | Some JNull => false
  | Some (JBool b) => b
  | Some (JNum n) => negb (Z.eqb n 0)
  | Some (JStr s) => negb (String.eqb s EmptyString)
  | Some (JArr _) => true
  | Some (JObj _) => true
  end.

(** [a || b] *)
Definition js_or (a b : option json) : option json := if truthy a then a else b.

(** *** JSON.stringify with an array replacer

    An array replacer is a property whitelist: every object, at every
    depth, is written with exactly the listed keys that it owns, in the
    order of the list.  Array elements are all written. *)

Definition dquote : ascii := ascii_of_nat 34.
Definition backslash : ascii := ascii_of_nat 92.

Definition hex_digit (n : nat) : ascii :=
  ascii_of_nat (if Nat.ltb n 10 then 48 + n else 87 + n).

Definition escape_char (c : ascii) : string :=
  let n := nat_of_ascii c in
  let esc (x : ascii) := String backslash (String x EmptyString) in
  if Nat.eqb n 8 then esc "b"%char
  else if Nat.eqb n 9 then esc "t"%char
  else if Nat.eqb n 10 then esc "n"%char
  else if Nat.eqb n 12 then esc "f"%char
  else if Nat.eqb n 13 then esc "r"%char
  else if Nat.eqb n 34 then esc dquote
  else if Nat.eqb n 92 then esc backslash
  else if Nat.ltb n 32 then
    String backslash
      (String "u" (String "0" (String "0"
        (String (hex_digit (Nat.div n 16)) (String (hex_digit (Nat.modulo n 16)) EmptyString)))))
  else String c EmptyString.

Fixpoint escape_string (s : string) : string :=
  match s with
  | EmptyString => EmptyString
  | String c rest => escape_char c +:+ escape_string rest
  end.

Definition QuoteJSONString (s : string) : string :=
  String dquote (escape_string s +:+ String dquote EmptyString).

Fixpoint join (sep : string) (parts : list string) : string :=
  match parts with
  | [] => EmptyString
  | [x] => x
  | x :: rest => x +:+ sep +:+ join sep rest
  end.

(** The replacer array becomes a property list without repetitions. *)
Definition PropertyList (replacer : list string) : list string :=
  fold_left (fun acc k => if existsb (String.eqb k) acc then acc else acc ++ [k])
            replacer [].

Fixpoint SerializeJSONProperty (plist : list string) (v : json) : string :=
  match v with
  | JNull => "null"
  | JBool true => "true"
  | JBool false => "false"
  | JNum n => pretty n
  | JStr s => QuoteJSONString s
  | JArr items =>
    "[" +:+ join "," (map (SerializeJSONProperty plist) items) +:+ "]"
  | JObj fields =>
    let written :=
      map (fun kv => (fst kv, SerializeJSONProperty plist (snd kv))) fields in
    let members :=
      omap (fun k => match obj_get written k with
                     | Some str => Some (QuoteJSONString k +:+ ":" +:+ str)
                     | None => None
                     end) plist in
    "{" +:+ join "," members +:+ "}"
  end.

Definition JSON_stringify (value : json) (replacer : list string) : string :=
  SerializeJSONProperty (PropertyList replacer) value.

(** [Array.prototype.sort] with the default comparison, on strings. *)
Fixpoint sort_insert (x : string) (l : list string) : list string :=
  match l with
  | [] => [x]
  | y :: rest => if String.leb x y then x :: l else y :: sort_insert x rest
  end.

Definition Array_sort (l : list string) : list string := fold_right sort_insert [] l.

(** *** normalizeState *)

Definition normalizeState (s : State) : string :=
  let rest := List.filter (fun kv => negb (String.eqb (fst kv) "timestamp")) s in
  JSON_stringify (JObj rest) (Array_sort (Object_keys rest)).

(** *** Tables

    [budget_versions] is the table in insertion order; [budgets] is keyed
    by its primary key.  Only the columns that the budget routes read or
    write through the version policy are kept, and a statement is taken
    to run to completion.

    One clock.  Timestamps are milliseconds, and [now] stands both for
    the route's [new Date()] and for the database's [CURRENT_TIMESTAMP]:
    the text of the latter, which has no zone and no fraction of a
    second, is taken to be read back as the instant it was written (a
    server in UTC, whole seconds). *)

Record VersionRow := {
  budget_id : string;
  version_number : Z;
  created_at : Z;
  state : State;
  note : string;
  is_pinned : bool
}.

Record BudgetRow := {
  modified_at : Z;
  current_state : State;
  is_customized : bool;
  sqft_locked : option json;
  property_type_locked : option json;
  category_config : option json;
  custom_categories : option json;
  customized_at : option Z
}.

Record DB := {
  budgets : gmap string BudgetRow;
  budget_versions : list VersionRow
}.

Definition empty_db : DB := {| budgets := ∅; budget_versions := [] |}.

(** *** Objects returned by loadBudget *)

Record Version := {
  version : Z;
  timestamp : Z;
  v_state : State;
  v_note : string;
  pinned : bool
}.

Record Budget := {
  id : string;
  lastModified : Z;
  versions : list Version;
  currentState : State;
  isCustomized : bool;
  sqftLocked : option json;
  propertyTypeLocked : option json;
  categoryConfig : option json;
  customCategories : option json
}.

(** [WHERE budget_id = ?] *)
Definition rows_of (bid : string) (rows : list VersionRow) : list VersionRow :=
  List.filter (fun r => String.eqb (budget_id r) bid) rows.

(** [ORDER BY version_number ASC] *)
Fixpoint order_insert (r : VersionRow) (l : list VersionRow) : list VersionRow :=
  match l with
  | [] => [r]
  | r' :: rest =>
    if Z.leb (version_number r) (version_number r') then r :: l
    else r' :: order_insert r rest
  end.

Definition order_by_version_number (rows : list VersionRow) : list VersionRow :=
  fold_right order_insert [] rows.

Definition to_version (v : VersionRow) : Version :=
  {| version := version_number v;
     timestamp := created_at v;
     v_state := state v;
     v_note := note v;
     pinned := is_pinned v |}.

Definition loadBudget (db : DB) (bid : string) : option Budget :=
  match budgets db !! bid with
  | None => None
  | Some budget =>
    Some {| id := bid;
            lastModified := modified_at budget;
            versions :=
              map to_version (order_by_version_number (rows_of bid (budget_versions db)));
            currentState := current_state budget;
            isCustomized := is_customized budget;
            sqftLocked := sqft_locked budget;
            propertyTypeLocked := property_type_locked budget;
            categoryConfig := category_config budget;
            customCategories := custom_categories budget |}
  end.

(** [x || null] for a column value, [x ? JSON.stringify(x) : null]
    likewise. *)
Definition or_null (v : option json) : option json := if truthy v then v else None.

(** [DELETE] of a budget's row under [PRAGMA foreign_keys = ON]: the
    version rows go with it ([budget_id REFERENCES budgets(id) ON DELETE
    CASCADE]). *)
Definition cascade (bid : string) (rows : list VersionRow) : list VersionRow :=
  List.filter (fun r => negb (String.eqb (budget_id r) bid)) rows.

(** [INSERT OR REPLACE INTO budgets].  For an id without a row this is an
    insert.  For an id that has a row, REPLACE first deletes that row,
    which cascades to the budget's version rows, and then inserts the
    new row; [customized_at] is not among the inserted columns. *)
Definition saveBudget (now : Z) (budget : Budget) (db : DB) : DB :=
  {| budgets :=
       <[ id budget :=
          {| modified_at := now;
             current_state := currentState budget;
             is_customized := isCustomized budget;
             sqft_locked := or_null (sqftLocked budget);
             property_type_locked := or_null (propertyTypeLocked budget);
             category_config := or_null (categoryConfig budget);
             custom_categories := or_null (customCategories budget);
             customized_at := None |} ]> (budgets db);
     budget_versions :=
       match budgets db !! id budget with
       | Some _ => cascade (id budget) (budget_versions db)
       | None => budget_versions db
       end |}.

(** [INSERT INTO budget_versions]; [created_at] takes its default, the
    current time.  Every caller passes a string for [note]. *)
Definition addVersion (now : Z) (budgetId : string) (versionNum : Z) (st : State)
    (nt : string) (isPinned : bool) (db : DB) : DB :=
  {| budgets := budgets db;
     budget_versions :=
       budget_versions db ++
       [ {| budget_id := budgetId;
            version_number := versionNum;
            created_at := now;
            state := st;
            note := nt;
            is_pinned := isPinned |} ] |}.

(** [UPDATE budget_versions SET ... WHERE budget_id = ? AND version_number = ?] *)
Definition row_update (set : VersionRow -> VersionRow) (bid : string) (vnum : Z)
    (r : VersionRow) : VersionRow :=
  if String.eqb (budget_id r) bid && Z.eqb (version_number r) vnum then set r else r.

Definition update_versions (set : VersionRow -> VersionRow) (bid : string) (vnum : Z)
    (db : DB) : DB :=
  {| budgets := budgets db;
     budget_versions := map (row_update set bid vnum) (budget_versions db) |}.

(** *** Responses *)

Inductive Response :=
| Unauthorized
| NotFound (error : string)
| ServerError (error : string)
| Created (new_id : string)
| VersionPinned (versionCount : nat)
| NoChanges (versionCount : nat)
| Updated (versionCount : nat) (modified : Z) (consolidated : bool)
| Restored (newVersion : Z)
| Customized.

(** *** POST /api/budgets

    [codes] are the successive results of [generateCode(8)]; the loop
    keeps drawing while the code is taken. *)

Fixpoint fresh_code (codes : list string) (db : DB) : option string :=
  match codes with
  | [] => None
  | c :: rest =>
    match budgets db !! c with
    | Some _ => fresh_code rest db
    | None => Some c
    end
  end.

Definition createBudget (now : Z) (codes : list string) (st : State) (db : DB)
    : option (DB * Response) :=
  match fresh_code codes db with
  | None => None
  | Some bid =>
    let budget :=
      {| id := bid;
         lastModified := now;
         versions := [];
         currentState := st;
         isCustomized := false;
         sqftLocked := None;
         propertyTypeLocked := None;
         categoryConfig := None;
         customCategories := None |} in
    let db := saveBudget now budget db in
    let db := addVersion now bid 1 st "Initial budget" true db in
    Some (db, Created bid)
  end.

(** *** PUT /api/budgets/:id *)

Definition VERSION_CONSOLIDATION_MS : Z := 15 * 60 * 1000.

(** The body as the client sends it: [state] is an object (the schema
    itself lets any value through). *)
Record UpdateBody := {
  body_state : State;
  body_note : option string;
  body_pin : option bool
}.

Definition pin_requested (data : UpdateBody) : bool := default false (body_pin data).

(** [data.note || fallback] *)
Definition note_or (data : UpdateBody) (fallback : string) : string :=
  match body_note data with
  | Some n => if String.eqb n EmptyString then fallback else n
  | None => fallback
  end.

Definition with_currentState (budget : Budget) (st : State) : Budget :=
  {| id := id budget;
     lastModified := lastModified budget;
     versions := versions budget;
     currentState := st;
     isCustomized := isCustomized budget;
     sqftLocked := sqftLocked budget;
     propertyTypeLocked := propertyTypeLocked budget;
     categoryConfig := categoryConfig budget;
     customCategories := customCategories budget |}.

(** [shouldConsolidate && !data.pin] *)
Definition consolidates (now : Z) (data : UpdateBody) (lastVersion : Version) : bool :=
  let timeSinceLastVersion := now - timestamp lastVersion in
  let shouldConsolidate :=
    negb (pinned lastVersion)
    && Z.ltb timeSinceLastVersion VERSION_CONSOLIDATION_MS in
  shouldConsolidate && negb (pin_requested data).

(** The version statement of a changed-state update: the [UPDATE] of the
    latest version in place, or else [addVersion] of count + 1. *)
Definition writeVersion (now : Z) (bid : string) (data : UpdateBody)
    (versionCount : nat) (lastVersion : Version) (db : DB) : DB :=
  if consolidates now data lastVersion then
    update_versions
      (fun r => {| budget_id := budget_id r;
                   version_number := version_number r;
                   created_at := now;
                   state := body_state data;
                   note := note r;
                   is_pinned := is_pinned r |})
      bid (version lastVersion) db
  else
    let newVersionNum := Z.of_nat versionCount + 1 in
    addVersion now bid newVersionNum (body_state data)
      (if pin_requested data then note_or data "Shared/Emailed" else "Auto-save")
      (pin_requested data) db.

Definition updateBudget (now : Z) (bid : string) (data : UpdateBody) (db : DB)
    : DB * Response :=
  match loadBudget db bid with
  | None => (db, NotFound "Budget not found")
  | Some budget =>
    match last (versions budget) with
    | None => (db, ServerError "Failed to update budget")
    | Some lastVersion =>
      let versionCount := length (versions budget) in
      if String.eqb (normalizeState (v_state lastVersion))
                    (normalizeState (body_state data))
      then
        if pin_requested data && negb (pinned lastVersion) then
          (update_versions
             (fun r => {| budget_id := budget_id r;
                          version_number := version_number r;
                          created_at := created_at r;
                          state := state r;
                          note := note_or data (v_note lastVersion);
                          is_pinned := true |})
             bid (version lastVersion) db,
           VersionPinned versionCount)
        else (db, NoChanges versionCount)
      else
        let consolidated := consolidates now data lastVersion in
        let db := writeVersion now bid data versionCount lastVersion db in
        let db := saveBudget now (with_currentState budget (body_state data)) db in
        (db,
         Updated (if consolidated then versionCount else S versionCount) now consolidated)
    end
  end.

(** *** POST /api/admin/budgets/:id/restore/:version

    [versionNum] is the route parameter after [parseInt]. *)

Definition set_current_state (now : Z) (st : State) (row : BudgetRow) : BudgetRow :=
  {| modified_at := now;
     current_state := st;
     is_customized := is_customized row;
     sqft_locked := sqft_locked row;
     property_type_locked := property_type_locked row;
     category_config := category_config row;
     custom_categories := custom_categories row;
     customized_at := customized_at row |}.

Definition restoreVersion (now : Z) (authorized : bool) (bid : string) (versionNum : Z)
    (db : DB) : DB * Response :=
  if negb authorized then (db, Unauthorized)
  else
    match loadBudget db bid with
    | None => (db, NotFound "Budget not found")
    | Some budget =>
      match find (fun v => Z.eqb (version v) versionNum) (versions budget) with
      | None => (db, NotFound "Version not found")
      | Some targetVersion =>
        let newVersionNum := Z.of_nat (length (versions budget)) + 1 in
        let db :=
          addVersion now bid newVersionNum (v_state targetVersion)
            ("Restored to version " +:+ pretty versionNum) true db in
        let db :=
          {| budgets := alter (set_current_state now (v_state targetVersion)) bid (budgets db);
             budget_versions := budget_versions db |} in
        (db, Restored newVersionNum)
      end
    end.

(** *** PUT /api/admin/budgets/:id/customize *)

Record CustomizeBody := {
  body_categoryConfig : option json;
  body_customCategories : option json
}.

Definition customizeBudget (now : Z) (authorized : bool) (bid : string)
    (data : CustomizeBody) (db : DB) : DB * Response :=
  if negb authorized then (db, Unauthorized)
  else
    match loadBudget db bid with
    | None => (db, NotFound "Budget not found")
    | Some budget =>
      let first_state (k : string) : option json :=
        match head (versions budget) with
        | Some v => obj_get (v_state v) k
        | None => None
        end in
      let customize (row : BudgetRow) : BudgetRow :=
        {| modified_at := now;
           current_state := current_state row;
           is_customized := true;
           sqft_locked :=
             js_or (obj_get (currentState budget) "homeSize") (first_state "homeSize");
           property_type_locked :=
             js_or (obj_get (currentState budget) "propertyType")
                   (first_state "propertyType");
           category_config := or_null (body_categoryConfig data);
           custom_categories := or_null (body_customCategories data);
           customized_at := Some now |} in
      let db :=
        {| budgets := alter customize bid (budgets db);
           budget_versions := budget_versions db |} in
      (* DELETE FROM budget_versions WHERE budget_id = ? *)
      let db :=
        {| budgets := budgets db;
           budget_versions :=
             List.filter (fun r => negb (String.eqb (budget_id r) bid)) (budget_versions db) |} in
      (* a loaded state is an object, hence truthy: the [||] keeps it *)
      let currentState := currentState budget in
      let db := addVersion now bid 1 currentState "Customization applied" true db in
      (db, Customized)
    end.

(** *** Quantities named by the specification *)

(** The order used by [Array_sort]. *)
Definition str_le (a b : string) : Prop := String.leb a b = true.

(** Version numbers [k], [k+1], ... in list order. *)
Fixpoint numbered_from (k : Z) (rows : list VersionRow) : Prop :=
  match rows with
  | [] => True
  | r :: rest => version_number r = k /\ numbered_from (k + 1) rest
  end.

(** Within every budget the numbers are 1, 2, ..., and every version row
    belongs to a budget ([budget_id REFERENCES budgets(id)]). *)
Definition Inv (db : DB) : Prop :=
  (forall bid, numbered_from 1 (rows_of bid (budget_versions db))) /\
  (forall r, In r (budget_versions db) -> is_Some (budgets db !! budget_id r)).

(** One request to a route that writes versions. *)
Inductive step : DB -> DB -> Prop :=
| step_create now codes st db db' r :
    createBudget now codes st db = Some (db', r) -> step db db'
| step_update now bid data db :
    step db (updateBudget now bid data db).1
| step_restore now authorized bid versionNum db :
    step db (restoreVersion now authorized bid versionNum db).1
| step_customize now authorized bid data db :
    step db (customizeBudget now authorized bid data db).1.

(** The version numbers of a budget, in table order. *)
Definition numbers (bid : string) (db : DB) : list Z :=
  map version_number (rows_of bid (budget_versions db)).

(** The budget's numbers are as before. *)
Definition kept (bid : string) (db db' : DB) : Prop :=
  numbers bid db' = numbers bid db.

(** The budget has one more version, numbered count + 1. *)
Definition appended (bid : string) (db db' : DB) : Prop :=
  numbers bid db' = numbers bid db ++ [Z.of_nat (length (numbers bid db)) + 1].

(** *** Sample budget *)

Definition state_blank : State :=
  [("homeSize", JNum 4000); ("propertyType", JStr "residential");
   ("selections", JObj [("networking", JNull)]); ("total", JNum 0)].

Definition state_good : State :=
  [("homeSize", JNum 4000); ("propertyType", JStr "residential");
   ("selections", JObj [("networking", JStr "good")]); ("total", JNum 6100)].

Definition state_best : State :=
  [("homeSize", JNum 4000); ("propertyType", JStr "residential");
   ("selections", JObj [("networking", JStr "best")]); ("total", JNum 22950)].

Definition db_created : DB :=
  match createBudget 1000 ["k7m2p9qx"] state_blank empty_db with
  | Some (db, _) => db
  | None => empty_db
  end.

Definition autosave_good : UpdateBody :=
  {| body_state := state_good; body_note := None; body_pin := None |}.

(** A table that satisfies the invariant, in which the budget has an
    unpinned second version. *)
Definition db_saved : DB :=
  {| budgets :=
       <[ "k7m2p9qx" :=
          {| modified_at := 2000000;
             current_state := state_good;
             is_customized := false;
             sqft_locked := None;
             property_type_locked := None;
             category_config := None;
             custom_categories := None;
             customized_at := None |} ]> ∅;
     budget_versions :=
       [ {| budget_id := "k7m2p9qx"; version_number := 1; created_at := 1000;
            state := state_blank; note := "Initial budget"; is_pinned := true |};
         {| budget_id := "k7m2p9qx"; version_number := 2; created_at := 2000000;
            state := state_good; note := "Auto-save"; is_pinned := false |} ] |}.

Definition budget_created : Budget :=
  Eval vm_compute in
    default {| id := EmptyString; lastModified := 0; versions := []; currentState := [];
               isCustomized := false; sqftLocked := None; propertyTypeLocked := None;
               categoryConfig := None; customCategories := None |}
            (loadBudget db_created "k7m2p9qx").

Definition budget_saved : Budget :=
  Eval vm_compute in default budget_created (loadBudget db_saved "k7m2p9qx").

Definition version_initial : Version :=
  {| version := 1; timestamp := 1000; v_state := state_blank;
     v_note := "Initial budget"; pinned := true |}.

Definition version_autosave : Version :=
  {| version := 2; timestamp := 2000000; v_state := state_good;
     v_note := "Auto-save"; pinned := false |}.

Definition autosave_best : UpdateBody :=
  {| body_state := state_best; body_note := None; body_pin := None |}.

(** The same selections as [state_good], sent later and with a pin. *)
Definition pin_good : UpdateBody :=
  {| body_state := ("timestamp", JNum 2000500) :: state_good;
     body_note := Some "Sent to client";
     body_pin := Some true |}.

End VersionStore.

(** ** More quantities for the pricing engine *)

Module PricingTerms.

Import Pricing.

(** The scale in force for a tier: its own override, else the
    category's. *)
Definition scaleOf (cat : Category) (tierData : TierOffering) : Q :=
  match tier_sizeScale tierData with
  | Some s => s
  | None => sizeScale cat
  end.

(** The size multiplier applied to tier [t] of a category that is not
    customized. *)
Definition sizeMultOf (cat : Category) (t : string) (tierData : TierOffering)
    (homeSize : Q) : Q :=
  if baseTierNoScale cat && String.eqb t "good" then 1
  else getSizeMultiplier homeSize (scaleOf cat tierData).

(** A category whose good tier is a fixed minimum. *)
Definition prewire : Category :=
  {| cat_id := "prewire"; sizeScale := 7 # 10; baseTierNoScale := true;
     isCustomized := false;
     tiers := <[ "good" := {| price := 4200; tier_sizeScale := None |} ]>
              (<[ "best" := {| price := 9900; tier_sizeScale := Some (1 # 2) |} ]> ∅) |}.



End PricingTerms.

(** ** The application's own price helpers *)

Module App.

Import Pricing.

(** *** getCategoryPrice, as the main script redefines it *)

Definition getCategoryPrice (cat : Category) (tier : Selection) (homeSize : Q) : Q :=
  match tier with
  | None => 0
  | Some t =>
    if String.eqb t EmptyString then 0
    else
      match tiers cat !! t with
      | None => 0
      | Some tierData =>
        let base := price tierData in
        if isCustomized cat then base
        else
          let skipSize := baseTierNoScale cat && String.eqb t "good" in
          let scaleToUse :=
            match tier_sizeScale tierData with
            | Some s => s
            | None => sizeScale cat
            end in
          if is_zero scaleToUse || skipSize then base
          else
            let effectiveSqft := Math_max homeSize 2500 in
            let ratio := effectiveSqft / 4000 in
            let mult := 1 + (ratio - 1) * scaleToUse in
            Math_round (base * mult / 100) * 100
      end
  end.

(** *** calculateCategoryPrice, used by the summary and the email *)

Definition calculateCategoryPrice (cat : Category) (tier : Selection) (homeSize : Q) : Q :=
  match tier with
  | None => 0
  | Some t =>
    if String.eqb t EmptyString then 0
    else
      match tiers cat !! t with
      | None => 0
      | Some tierData =>
        let base := price tierData in
        let scaleToUse :=
          match tier_sizeScale tierData with
          | Some s => s
          | None => sizeScale cat
          end in
        if is_zero scaleToUse then base
        else
          let effectiveSqft := Math_max homeSize 2500 in
          let ratio := effectiveSqft / 4000 in
          let mult := 1 + (ratio - 1) * scaleToUse in
          Math_round (base * mult / 100) * 100
      end
  end.

(** *** getExtraPrice, as the main script redefines it *)

Definition getExtraPrice (extra : Extra) (homeSize : Q) : Q :=
  match extra_sizeScale extra with
  | None => extra_price extra
  | Some s =>
    let effectiveSqft := Math_max homeSize 2500 in
    let ratio := effectiveSqft / 4000 in
    let mult := 1 + (ratio - 1) * s in
    Math_round (extra_price extra * mult / 100) * 100
  end.

(** *** Application state (state.js) *)

Record AppState := {
  st_selections : Selections;
  st_extras : gmap string bool;
  st_modifiers : list Modifier;
  st_catMods : gmap string Modifier;
  st_homeSize : Q
}.

(** A catalog extra together with its [default] flag. *)
Record ExtraItem := {
  item : Extra;
  item_default : bool
}.

(** [o[k] = v] on an insertion-ordered object: an existing key keeps its
    place, a new key goes last. *)
Fixpoint obj_set {V} (o : list (string * V)) (k : string) (v : V) : list (string * V) :=
  match o with
  | [] => [(k, v)]
  | (k', v') :: rest =>
    if String.eqb k' k then (k', v) :: rest else (k', v') :: obj_set rest k v
  end.

(** *** initStateForConfig

    [id in object] is true of the object's own keys and of the names it
    inherits from [Object.prototype]. *)

Definition initCategory (st : AppState) (c : Category) : AppState :=
  let sels :=
    if has_property (obj_get (st_selections st) (cat_id c)) (cat_id c)
    then st_selections st
    else obj_set (st_selections st) (cat_id c) None in
  let mods :=
    if has_property (st_catMods st !! cat_id c) (cat_id c)
    then st_catMods st
    else <[ cat_id c := {| mod_name := EmptyString; amount := 0 |} ]> (st_catMods st) in
  {| st_selections := sels;
     st_extras := st_extras st;
     st_modifiers := st_modifiers st;
     st_catMods := mods;
     st_homeSize := st_homeSize st |}.

Definition initExtra (st : AppState) (e : ExtraItem) : AppState :=
  {| st_selections := st_selections st;
     st_extras :=
       if has_property (st_extras st !! extra_id (item e)) (extra_id (item e))
       then st_extras st
       else <[ extra_id (item e) := item_default e ]> (st_extras st);
     st_modifiers := st_modifiers st;
     st_catMods := st_catMods st;
     st_homeSize := st_homeSize st |}.

Definition initStateForConfig (categories : list Category) (extras : list ExtraItem)
    (st : AppState) : AppState :=
  fold_left initExtra extras (fold_left initCategory categories st).

(** *** updateTotals: the call of [calculateTotal] *)

Definition totalsOf (categories : list Category) (extrasData : list Extra)
    (st : AppState) : Totals :=
  calculateTotal
    {| Pricing.categories := categories;
       selections := st_selections st;
       extras := st_extras st;
       Pricing.extrasData := extrasData;
       modifiers := st_modifiers st;
       catMods := st_catMods st;
       homeSize := st_homeSize st |}.

(** *** selectTier: the new selections it stores *)

Definition is_truthy (v : option Selection) : bool :=
  match truthy_tier v with Some _ => true | None => false end.

Definition selectTier (catId : string) (tier : Selection) (selections : Selections)
    : Selections :=
  let newSelections := obj_set selections catId tier in
  let newSelections :=
    match tier with
    | Some t =>
      if String.eqb catId "lighting" then
        let newSelections := obj_set newSelections "lighting-centralized" None in
        if String.eqb t "good" && is_truthy (obj_get newSelections "lighting-designer")
        then obj_set newSelections "lighting-designer" None
        else newSelections
      else if String.eqb catId "lighting-centralized" then
        obj_set newSelections "lighting" None
      else newSelections
    | None => newSelections
    end in
  match tier with
  | None =>
    if String.eqb catId "audio" then obj_set newSelections "invisible-speakers" None
    else newSelections
  | Some _ => newSelections
  end.

Definition linked_categories : list string :=
  ["lighting"; "lighting-centralized"; "lighting-designer"; "invisible-speakers"].

(** Both lighting systems are selected at once. *)
Definition both_lighting (sels : Selections) : bool :=
  is_truthy (obj_get sels "lighting") && is_truthy (obj_get sels "lighting-centralized").

(** The amount of an optional per-category adjustment. *)
Definition amount_of (m : option Modifier) : Q :=
  match m with
  | Some m => amount m
  | None => 0
  end.

(** [st'] keeps every entry of [st]; the entries it adds are a null
    selection, an empty adjustment, or an extra's flag. *)
Definition extends (st st' : AppState) : Prop :=
  (forall k v, obj_get (st_selections st) k = Some v ->
               obj_get (st_selections st') k = Some v) /\
  (forall k, is_truthy (obj_get (st_selections st') k)
             = is_truthy (obj_get (st_selections st) k)) /\
  (forall k m, st_catMods st !! k = Some m -> st_catMods st' !! k = Some m) /\
  (forall k, amount_of (st_catMods st' !! k) = amount_of (st_catMods st !! k)) /\
  (forall k b, st_extras st !! k = Some b -> st_extras st' !! k = Some b) /\
  st_modifiers st' = st_modifiers st /\
  st_homeSize st' = st_homeSize st.

(** *** toggleExtra: the new extras it stores *)


End App.

(** ** Vocabulary for the version store *)

Module StoreTerms.

Import VersionStore.

#[local] Open Scope Z_scope.

(** [k] is one of the names in [K]. *)
Definition listed (K : list string) (k : string) : bool := existsb (String.eqb k) K.

(** [v] without the object properties, at any depth, whose names are not
    in [K]. *)
Fixpoint prune (K : list string) (v : json) : json :=
  match v with
  | JArr items => JArr (map (prune K) items)
  | JObj fields =>
    JObj (List.filter (fun kv => listed K (fst kv))
            (map (fun kv => (fst kv, prune K (snd kv))) fields))
  | _ => v
  end.

(** The top-level property names of a state, [timestamp] apart. *)
Definition state_keys (s : State) : list string :=
  Object_keys (List.filter (fun kv => negb (String.eqb (fst kv) "timestamp")) s).

(** The response reports a failure. *)
Definition is_error (r : Response) : bool :=
  match r with
  | Unauthorized | NotFound _ | ServerError _ => true
  | _ => false
  end.

(** The state sent by the client, with one named modifier. *)
Definition state_with_modifier (name : string) : State :=
  [("selections", JObj [("networking", JStr "good")]);
   ("extras", JObj [("rack", JBool true)]);
   ("modifiers", JArr [JObj [("name", JStr name); ("amount", JNum (-300))]]);
   ("catMods", JObj []);
   ("homeSize", JNum 4000);
   ("propertyType", JStr "residential");
   ("clientName", JNull);
   ("total", JNum 8050)].

Definition db_with_modifier : DB :=
  match createBudget 1000 ["k7m2p9qx"] (state_with_modifier "credit") empty_db with
  | Some (db, _) => db
  | None => empty_db
  end.

Definition budget_with_modifier : Budget :=
  Eval vm_compute in
    default {| id := EmptyString; lastModified := 0; versions := []; currentState := [];
               isCustomized := false; sqftLocked := None; propertyTypeLocked := None;
               categoryConfig := None; customCategories := None |}
            (loadBudget db_with_modifier "k7m2p9qx").

Definition autosave_renamed : UpdateBody :=
  {| body_state := state_with_modifier "discount"; body_note := None; body_pin := None |}.

End StoreTerms.

(** ** Codes and short links (server.js) *)

Module ShortLinks.

#[local] Open Scope Z_scope.

(** *** generateCode *)

Definition chars : string := "abcdefghijkmnpqrstuvwxyz23456789".

(** [s[i]] appended to a string: a missing index gives [undefined]. *)
Definition char_at (s : string) (i : nat) : string :=
  match String.get i s with
  | Some c => String c EmptyString
  | None => "undefined"
  end.

(** [bytes] are the random bytes drawn, one per character. *)
Definition generateCode (bytes : list Byte.byte) : string :=
  fold_left
    (fun code b =>
       code +:+ char_at chars (Nat.modulo (N.to_nat (Byte.to_N b)) (String.length chars)))
    bytes EmptyString.

(** *** Table short_links *)

Record LinkRow := {
  config : string;
  client_name : option string;
  link_created_at : Z;
  last_accessed_at : option Z;
  access_count : Z
}.

Record LinkBody := {
  body_config : string;
  body_clientName : option string;
  body_customCode : option string
}.

Inductive LinkResponse :=
| CodeInUse
| Shortened (code : string)
| Redirect (location : string)
| LinkNotFound.

(** [replace(/[^a-z0-9-]/g, '')] *)
Definition code_char (c : ascii) : bool :=
  let n := nat_of_ascii c in
  (Nat.leb 97 n && Nat.leb n 122) || (Nat.leb 48 n && Nat.leb n 57) || Nat.eqb n 45.

Fixpoint keep_chars (p : ascii -> bool) (s : string) : string :=
  match s with
  | EmptyString => EmptyString
  | String c rest => if p c then String c (keep_chars p rest) else keep_chars p rest
  end.

(** [x || null] on an optional string. *)
Definition string_or_null (v : option string) : option string :=
  match v with
  | Some s => if String.eqb s EmptyString then None else Some s
  | None => None
  end.

(** [do { code = generateCode(); } while (taken)]: [draws] are the
    successive byte vectors. *)
Fixpoint fresh_link (draws : list (list Byte.byte)) (links : gmap string LinkRow)
    : option string :=
  match draws with
  | [] => None
  | d :: rest =>
    match links !! generateCode d with
    | Some _ => fresh_link rest links
    | None => Some (generateCode d)
    end
  end.

Section Shorten.

(** [String.prototype.toLowerCase] is left open. *)
Variable toLowerCase : string -> string.

(** *** POST /api/shorten

    The body has passed the schema. *)

Definition custom_code (data : LinkBody) : option string :=
  string_or_null (option_map (fun c => keep_chars code_char (toLowerCase c))
                             (body_customCode data)).

Definition shorten (now : Z) (draws : list (list Byte.byte)) (data : LinkBody)
    (links : gmap string LinkRow) : option (gmap string LinkRow * LinkResponse) :=
  let insert code :=
    (<[ code := {| config := body_config data;
                   client_name := string_or_null (body_clientName data);
                   link_created_at := now;
                   last_accessed_at := None;
                   access_count := 0 |} ]> links,
     Shortened code) in
  match custom_code data with
  | Some code =>
    match links !! code with
    | Some _ => Some (links, CodeInUse)
    | None => Some (insert code)
    end
  | None =>
    match fresh_link draws links with
    | Some code => Some (insert code)
    | None => None
    end
  end.

End Shorten.

(** *** GET /s/:code *)

Definition resolve (now : Z) (code : string) (links : gmap string LinkRow)
    : gmap string LinkRow * LinkResponse :=
  match links !! code with
  | Some link =>
    (<[ code := {| config := config link;
                   client_name := client_name link;
                   link_created_at := link_created_at link;
                   last_accessed_at := Some now;
                   access_count := access_count link + 1 |} ]> links,
     Redirect ("/?" +:+ config link))
  | None => (links, LinkNotFound)
  end.

(** *** Quantities named by the properties *)

(** The 256 byte values. *)
Definition all_bytes : list Byte.byte :=
  omap (fun n => Byte.of_N (N.of_nat n)) (seq 0 256).

(** The character that a byte is turned into. *)
Definition code_of_byte (b : Byte.byte) : string :=
  char_at chars (Nat.modulo (N.to_nat (Byte.to_N b)) (String.length chars)).

Fixpoint string_forall (p : ascii -> bool) (s : string) : bool :=
  match s with
  | EmptyString => true
  | String c rest => p c && string_forall p rest
  end.

Definition in_chars (c : ascii) : bool :=
  existsb (Ascii.eqb c) (list_ascii_of_string chars).

Definition ascii_lower (s : string) : string :=
  string_of_list_ascii
    (map (fun c => let n := nat_of_ascii c in
                   if Nat.leb 65 n && Nat.leb n 90 then ascii_of_nat (n + 32) else c)
         (list_ascii_of_string s)).

Definition sample_link : LinkBody :=
  {| body_config := "sqft=4000&prop=residential";
     body_clientName := Some "Avery";
     body_customCode := Some "Lake House!" |}.

(** The bytes [x07], [x41] and [xea] select [h], [b] and [k]. *)
Definition sample_draw : list Byte.byte :=
  [Byte.x07; Byte.x41; Byte.xea; Byte.x00; Byte.x1f; Byte.xff].

Definition second_draw : list Byte.byte :=
  [Byte.x01; Byte.x02; Byte.x03; Byte.x04; Byte.x05; Byte.x06].

(** A request that leaves the code to the server. *)
Definition plain_link : LinkBody :=
  {| body_config := "sqft=4000&prop=residential";
     body_clientName := None;
     body_customCode := None |}.

(** A table in which the code of [sample_draw] is taken. *)
Definition taken_links : gmap string LinkRow :=
  <[ "hbka99" := {| config := "sqft=2500";
                    client_name := None;
                    link_created_at := 500;
                    last_accessed_at := None;
                    access_count := 0 |} ]> ∅.

End ShortLinks.

(** ** Formatting and the saved total (formatters.js, app.js) *)

Module Formatters.

Import Pricing ShortLinks.

(** *** toLocaleString('en-US') on an integer

    Decimal digits in groups of three, counted from the right. *)

Fixpoint group_thousands (rev_digits : list ascii) : list ascii :=
  match rev_digits with
  | a :: b :: c :: ((_ :: _) as rest) => a :: b :: c :: ","%char :: group_thousands rest
  | _ => rev_digits
  end.

Definition grouped (n : N) : string :=
  string_of_list_ascii (rev (group_thousands (rev (list_ascii_of_string (pretty n))))).

Definition toLocaleString (z : Z) : string :=
  if Z.ltb z 0 then "-" +:+ grouped (Z.to_N (Z.opp z)) else grouped (Z.to_N z).

(** The integer that an integer-valued number is. *)
Definition integer_of (x : Q) : Z := Qfloor x.

(** *** formatCurrency: [None] is [null] or [undefined] *)

Definition formatCurrency (n : option Q) : string :=
  match n with
  | None => "$0"
  | Some n =>
    if negb (Qle_bool 0 n)
    then "-$" +:+ toLocaleString (Z.abs (integer_of (Math_round n)))
    else "$" +:+ toLocaleString (integer_of (Math_round n))
  end.

(** *** triggerAutoSave: the total read back from the header *)

Definition is_digit (c : ascii) : bool :=
  let n := nat_of_ascii c in Nat.leb 48 n && Nat.leb n 57.

(** [parseInt(s) || 0] on a string of decimal digits; the empty string
    parses to [NaN], hence gives 0. *)
Fixpoint parse_digits (acc : N) (s : string) : N :=
  match s with
  | EmptyString => acc
  | String c rest => parse_digits (10 * acc + N.of_nat (nat_of_ascii c - 48)) rest
  end.

Definition parseInt_or_0 (digits : string) : Z := Z.of_N (parse_digits 0 digits).

(** [parseInt(text.replace(/[^0-9]/g, '')) || 0] *)
Definition savedTotal (headerTotal : string) : Z :=
  parseInt_or_0 (keep_chars is_digit headerTotal).

(** *** formatRelative

    [diff] is [now - date] in milliseconds, [None] for a missing date
    string; [formatDate] is the text of [formatDate(dateStr)]. *)

Definition formatRelative (formatDate : string) (diff : option Z) : string :=
  match diff with
  | None => "Never"
  | Some diff =>
    let seconds := (diff / 1000)%Z in
    let minutes := (seconds / 60)%Z in
    let hours := (minutes / 60)%Z in
    let days := (hours / 24)%Z in
    if Z.ltb seconds 60 then "Just now"
    else if Z.ltb minutes 60 then pretty minutes +:+ "m ago"
    else if Z.ltb hours 24 then pretty hours +:+ "h ago"
    else if Z.ltb days 7 then pretty days +:+ "d ago"
    else formatDate
  end.

End Formatters.

(** ** Properties of the pricing engine *)

Section PricingProperties.

Import Pricing.

(** The worked examples of the specification. *)

Example networking_good_at_6000 :
  getSizeMultiplier 6000 (8 # 10) == 14 # 10 /\
  getCategoryPrice networking (Some "good") 6000 = 8000.
Proof. split; vm_compute; reflexivity. Qed.

Example sample_totals :
  calculateTotal sample_params =
  {| subtotal := 8050; extrasTotal := 2250; modifiersTotal := -300;
     equipmentSubtotal := 10000; taxEstimate := 700; grandTotal := 10700;
     selectedCount := 1 |}.
Proof. vm_compute. reflexivity. Qed.

Lemma getSizeMultiplier_reference (s : Q) : getSizeMultiplier 4000 s == 1.
Proof.
  unfold getSizeMultiplier. destruct (is_zero s); [reflexivity|].
  change (Math_max 4000 2500) with 4000. field.
Qed.

Lemma getSizeMultiplier_floor (s : Q) :
  getSizeMultiplier 2000 s = getSizeMultiplier 2500 s.
Proof. reflexivity. Qed.

Lemma is_zero_false (s : Q) : ~ s == 0 -> is_zero s = false.
Proof.
  intros H. unfold is_zero. destruct (Qeq_bool s 0) eqn:E; [|reflexivity].
  apply Qeq_bool_iff in E. contradiction.
Qed.

Lemma Math_max_spec (a b : Q) :
  (a <= b /\ Math_max a b = b) \/ (b < a /\ Math_max a b = a).
Proof.
  unfold Math_max. destruct (Qle_bool a b) eqn:E.
  - left. split; [by apply Qle_bool_iff | reflexivity].
  - right. split; [|reflexivity].
    apply Qnot_le_lt. intros H. apply Qle_bool_iff in H. congruence.
Qed.

Lemma Math_max_mono (a b c : Q) : a <= b -> Math_max a c <= Math_max b c.
Proof.
  intros Hab.
  destruct (Math_max_spec a c) as [[? ->]|[? ->]];
  destruct (Math_max_spec b c) as [[? ->]|[? ->]]; lra.
Qed.

(** The linear formula [1 + (x/4000 - 1) * s] in the effective size [x]. *)
Lemma linear_le (x y s : Q) :
  x <= y -> 0 <= s -> 1 + (x / 4000 - 1) * s <= 1 + (y / 4000 - 1) * s.
Proof.
  intros Hxy Hs.
  assert (H : 0 <= (y - x) * s) by (apply Qmult_le_0_compat; lra).
  assert (E : 1 + (y / 4000 - 1) * s - (1 + (x / 4000 - 1) * s) == (y - x) * s * (1 # 4000))
    by field.
  lra.
Qed.

Lemma linear_lt (x y s : Q) :
  x < y -> 0 < s -> 1 + (x / 4000 - 1) * s < 1 + (y / 4000 - 1) * s.
Proof.
  intros Hxy Hs.
  assert (H : 0 < (y - x) * s) by (apply Qmult_lt_0_compat; lra).
  assert (E : 1 + (y / 4000 - 1) * s - (1 + (x / 4000 - 1) * s) == (y - x) * s * (1 # 4000))
    by field.
  lra.
Qed.

(** C8.  For a fixed positive scale factor [getSizeMultiplier] does not
    decrease when the square footage grows, and for a fixed negative
    scale factor it does not increase; at or above the floor of 2500 sqft
    the change is strict.  Below the floor the input is clamped, so the
    multiplier is constant there. *)
Theorem getSizeMultiplier_monotone (s a b : Q) (Hab : a <= b) :
  (0 < s -> getSizeMultiplier a s <= getSizeMultiplier b s) /\
  (s < 0 -> getSizeMultiplier b s <= getSizeMultiplier a s) /\
  (2500 <= a -> a < b ->
     (0 < s -> getSizeMultiplier a s < getSizeMultiplier b s) /\
     (s < 0 -> getSizeMultiplier b s < getSizeMultiplier a s)).
Proof.
  unfold getSizeMultiplier.
  pose proof (Math_max_mono a b 2500 Hab) as Hmax.
  split; [|split].
  - intros Hs. rewrite is_zero_false by lra. apply linear_le; lra.
  - intros Hs. rewrite is_zero_false by lra.
    pose proof (linear_le _ _ (- s) Hmax ltac:(lra)). lra.
  - intros Ha Hlt.
    destruct (Math_max_spec a 2500) as [[? ->]|[? ->]];
    destruct (Math_max_spec b 2500) as [[? ->]|[? ->]]; try lra.
    + split; intros Hs; rewrite is_zero_false by lra.
      * apply linear_lt; lra.
      * pose proof (linear_lt 2500 b (- s) ltac:(lra) ltac:(lra)). lra.
    + split; intros Hs; rewrite is_zero_false by lra.
      * apply linear_lt; lra.
      * pose proof (linear_lt a b (- s) ltac:(lra) ltac:(lra)). lra.
Qed.
Lemma is_zero_true (s : Q) : is_zero s = true -> s == 0.
Proof. unfold is_zero. apply Qeq_bool_iff. Qed.

Lemma truthy_tier_Some (v : option Selection) (t : string) :
  truthy_tier v = Some t -> v = Some (Some t) /\ t <> EmptyString.
Proof.
  destruct v as [[s|]|]; simpl; try discriminate.
  destruct (String.eqb_spec s EmptyString); [discriminate|].
  intros [= ->]. auto.
Qed.

Lemma categoryStep_selected (p : Params) (acc : Q * nat) (cat : Category) :
  selected p cat = true ->
  fst (categoryStep p acc cat) ==
    fst acc + (getCategoryPrice cat (selectionOf p cat) (homeSize p) + catModAmount p cat) /\
  snd (categoryStep p acc cat) = S (snd acc).
Proof.
  unfold selected, categoryStep, selectionOf, catModAmount.
  destruct acc as [sub cnt].
  destruct (truthy_tier _) as [t|] eqn:Ht; [|discriminate].
  intros _. apply truthy_tier_Some in Ht as [-> _]. simpl.
  destruct (catMods p !! cat_id cat) as [m|]; simpl.
  - destruct (is_zero (amount m)) eqn:Hz; simpl; split; try reflexivity.
    + apply is_zero_true in Hz. rewrite Hz. ring.
    + ring.
  - split; [ring | reflexivity].
Qed.

Lemma categoryStep_unselected (p : Params) (acc : Q * nat) (cat : Category) :
  selected p cat = false -> categoryStep p acc cat = acc.
Proof.
  unfold selected, categoryStep. destruct acc as [sub cnt].
  destruct (truthy_tier _); [discriminate | reflexivity].
Qed.

Lemma category_fold (p : Params) (cats : list Category) (acc : Q * nat) :
  fst (fold_left (categoryStep p) cats acc) ==
    fst acc + sumQ (map (fun cat => getCategoryPrice cat (selectionOf p cat) (homeSize p)
                                    + catModAmount p cat)
                        (List.filter (selected p) cats)) /\
  snd (fold_left (categoryStep p) cats acc) =
    (snd acc + length (List.filter (selected p) cats))%nat.
Proof.
  revert acc. induction cats as [|cat cats IH]; intros acc; simpl.
  - split; [ring | lia].
  - destruct (IH (categoryStep p acc cat)) as [IH1 IH2].
    destruct (selected p cat) eqn:Hsel.
    + destruct (categoryStep_selected p acc cat Hsel) as [H1 H2].
      simpl. rewrite IH1, IH2, H1, H2. split; [ring | lia].
    + rewrite categoryStep_unselected in * by assumption. auto.
Qed.



Lemma calculateTotal_fields (p : Params) :
  subtotal (calculateTotal p) = fst (fold_left (categoryStep p) (categories p) (0, O)) /\
  selectedCount (calculateTotal p) = snd (fold_left (categoryStep p) (categories p) (0, O)) /\
  extrasTotal (calculateTotal p) = fold_left (extraStep p) (extrasData p) 0 /\
  modifiersTotal (calculateTotal p) = fold_left modifierStep (modifiers p) 0 /\
  equipmentSubtotal (calculateTotal p) =
    subtotal (calculateTotal p) + extrasTotal (calculateTotal p)
    + modifiersTotal (calculateTotal p) /\
  taxEstimate (calculateTotal p) = Math_round (equipmentSubtotal (calculateTotal p) * (7 # 100)) /\
  grandTotal (calculateTotal p) =
    equipmentSubtotal (calculateTotal p) + taxEstimate (calculateTotal p).
Proof.
  unfold calculateTotal.
  destruct (fold_left (categoryStep p) (categories p) (0, O)) as [sub cnt].
  simpl. repeat split.
Qed.

Lemma calculateTotal_category_sums (p : Params) :
  subtotal (calculateTotal p) ==
    sumQ (map (fun cat => getCategoryPrice cat (selectionOf p cat) (homeSize p)
                          + catModAmount p cat)
              (List.filter (selected p) (categories p))) /\
  selectedCount (calculateTotal p) = length (List.filter (selected p) (categories p)).
Proof.
  destruct (calculateTotal_fields p) as (Hs & Hc & _).
  destruct (category_fold p (categories p) (0, O)) as [Hf1 Hf2].
  split.
  - rewrite Hs, Hf1. simpl. ring.
  - rewrite Hc, Hf2. reflexivity.
Qed.

Lemma countStep_counts (g s b x : nat) (v : Selection) :
  countStep [("good", g); ("standard", s); ("better", b); ("best", x)] v =
  [("good", (g + bool_to_nat (is_tier "good" v))%nat);
   ("standard", (s + bool_to_nat (is_tier "standard" v))%nat);
   ("better", (b + bool_to_nat (is_tier "better" v))%nat);
   ("best", (x + bool_to_nat (is_tier "best" v))%nat)].
Proof.
  assert (Hadd0 : forall n, (n + 0)%nat = n) by (intros; lia).
  assert (Hadd1 : forall n, (n + 1)%nat = S n) by (intros; lia).
  destruct v as [t|]; unfold countStep, hasOwnProperty, is_tier, bool_to_nat;
    cbn -[String.eqb Nat.add]; [|by rewrite !Hadd0].
  destruct (String.eqb_spec t EmptyString) as [->|Hne].
  { cbn. by rewrite !Hadd0. }
  destruct (String.eqb_spec "good" t) as [<-|H1].
  { cbn. by rewrite !Hadd0, Hadd1. }
  destruct (String.eqb_spec "standard" t) as [<-|H2].
  { cbn. by rewrite !Hadd0, Hadd1. }
  destruct (String.eqb_spec "better" t) as [<-|H3].
  { cbn. by rewrite !Hadd0, Hadd1. }
  destruct (String.eqb_spec "best" t) as [<-|H4].
  { cbn. by rewrite !Hadd0, Hadd1. }
  cbn. by rewrite !Hadd0.
Qed.

Lemma filter_length_cons {A} (f : A -> bool) (a : A) (l : list A) :
  length (List.filter f (a :: l)) = (bool_to_nat (f a) + length (List.filter f l))%nat.
Proof. simpl. destruct (f a); reflexivity. Qed.

Lemma count_fold (vals : list Selection) (g s b x : nat) :
  fold_left countStep vals [("good", g); ("standard", s); ("better", b); ("best", x)] =
  [("good", (g + length (List.filter (is_tier "good") vals))%nat);
   ("standard", (s + length (List.filter (is_tier "standard") vals))%nat);
   ("better", (b + length (List.filter (is_tier "better") vals))%nat);
   ("best", (x + length (List.filter (is_tier "best") vals))%nat)].
Proof.
  revert g s b x. induction vals as [|v vals IH]; intros g s b x.
  - simpl. by rewrite !Nat.add_0_r.
  - cbn [fold_left]. rewrite countStep_counts, IH, !filter_length_cons.
    by rewrite !Nat.add_assoc.
Qed.

Lemma getDominantTier_formula (sels : Selections) :
  getDominantTier sels =
  dominant_label (count_tier "good" sels) (count_tier "standard" sels)
                 (count_tier "better" sels) (count_tier "best" sels).
Proof.
  unfold getDominantTier, tierCounts0, count_tier.
  rewrite count_fold. simpl.
  unfold dominant_label.
  set (g := length (List.filter (is_tier "good") (Object_values sels))).
  set (s := length (List.filter (is_tier "standard") (Object_values sels))).
  set (b := length (List.filter (is_tier "better") (Object_values sels))).
  set (x := length (List.filter (is_tier "best") (Object_values sels))).
  rewrite Nat.max_0_r.
  destruct (Nat.eqb (Nat.max g (Nat.max s (Nat.max b x))) 0) eqn:E0; [reflexivity|].
  destruct (Nat.eqb g _) eqn:Eg; [reflexivity|].
  destruct (Nat.eqb s _) eqn:Es; [reflexivity|].
  destruct (Nat.eqb b _) eqn:Eb; [reflexivity|].
  destruct (Nat.eqb x _) eqn:Ex; [reflexivity|].
  apply Nat.eqb_neq in Eg, Es, Eb, Ex. lia.
Qed.

Lemma filter_length_Permutation {A} (f : A -> bool) (l l' : list A) :
  Permutation l l' -> length (List.filter f l) = length (List.filter f l').
Proof.
  induction 1 as [|a l l' _ IH|a b l|l1 l2 l3 _ IH1 _ IH2]; simpl.
  - reflexivity.
  - destruct (f a); simpl; congruence.
  - destruct (f a), (f b); reflexivity.
  - congruence.
Qed.

Lemma count_tier_Permutation (t : string) (sels sels' : Selections) :
  Permutation sels sels' -> count_tier t sels = count_tier t sels'.
Proof.
  intros HP. unfold count_tier, Object_values.
  apply filter_length_Permutation, Permutation_map, HP.
Qed.

Lemma count_tier_known (t : string) (sels : Selections) :
  In t tier_names ->
  count_tier t (List.filter known_tier sels) = count_tier t sels.
Proof.
  intros Ht. unfold count_tier, Object_values.
  induction sels as [|[k v] sels IH]; [reflexivity|].
  simpl. destruct (known_tier (k, v)) eqn:Hk; simpl.
  - destruct (is_tier t v); simpl; congruence.
  - rewrite IH. destruct (is_tier t v) eqn:Hv; [|reflexivity].
    exfalso. unfold known_tier in Hk. cbn [snd] in Hk.
    assert (H : existsb (fun t0 => is_tier t0 v) tier_names = true)
      by (apply existsb_exists; eauto).
    congruence.
Qed.

(** C10.  [getDominantTier] is a function of the four counts of good,
    standard, better and best among the selection values: it returns the
    label of the first of these tiers, in that order, whose count equals
    the maximum, and the empty string when the maximum is 0.  Selection
    values other than the four names do not matter, and neither does the
    order of the selections. *)
Theorem getDominantTier_fixed_tie_break (sels : Selections) :
  getDominantTier sels =
    dominant_label (count_tier "good" sels) (count_tier "standard" sels)
                   (count_tier "better" sels) (count_tier "best" sels) /\
  getDominantTier (List.filter known_tier sels) = getDominantTier sels /\
  (forall sels', Permutation sels sels' -> getDominantTier sels' = getDominantTier sels).
Proof.
  split; [apply getDominantTier_formula|]. split.
  - rewrite !getDominantTier_formula.
    rewrite !count_tier_known by (simpl; tauto). reflexivity.
  - intros sels' HP. rewrite !getDominantTier_formula.
    by rewrite !(count_tier_Permutation _ sels sels' HP).
Qed.

Lemma dominant_label_strict (g s b x : nat) :
  ((s < g)%nat -> (b < g)%nat -> (x < g)%nat -> dominant_label g s b x = "Good Tier") /\
  ((g < s)%nat -> (b < s)%nat -> (x < s)%nat -> dominant_label g s b x = "Standard Tier") /\
  ((g < b)%nat -> (s < b)%nat -> (x < b)%nat -> dominant_label g s b x = "Better Tier") /\
  ((g < x)%nat -> (s < x)%nat -> (b < x)%nat -> dominant_label g s b x = "Best Tier") /\
  (g = O -> s = O -> b = O -> x = O -> dominant_label g s b x = EmptyString).
Proof.
  unfold dominant_label.
  repeat split; intros;
    destruct (Nat.eqb_spec (Nat.max g (Nat.max s (Nat.max b x))) 0); try lia;
    try reflexivity;
    destruct (Nat.eqb_spec g (Nat.max g (Nat.max s (Nat.max b x)))); try lia;
    try reflexivity;
    destruct (Nat.eqb_spec s (Nat.max g (Nat.max s (Nat.max b x)))); try lia;
    try reflexivity;
    destruct (Nat.eqb_spec b (Nat.max g (Nat.max s (Nat.max b x)))); try lia;
    reflexivity.
Qed.

(** C9.  For every selection state: if one of the four tiers has a count
    strictly greater than each of the other three, [getDominantTier]
    returns that tier's display label; if all four counts are 0 it
    returns the empty string. *)
Theorem getDominantTier_strict_maximum (sels : Selections) :
  (forall t, In t tier_names ->
     (forall t', In t' tier_names -> t' <> t ->
        (count_tier t' sels < count_tier t sels)%nat) ->
     getDominantTier sels = label_of t) /\
  ((forall t, In t tier_names -> count_tier t sels = O) ->
     getDominantTier sels = EmptyString).
Proof.
  rewrite getDominantTier_formula.
  destruct (dominant_label_strict (count_tier "good" sels) (count_tier "standard" sels)
              (count_tier "better" sels) (count_tier "best" sels))
    as (Hg & Hs & Hb & Hx & H0).
  split.
  - intros t Ht Hlt. simpl in Ht.
    destruct Ht as [<-|[<-|[<-|[<-|[]]]]];
      [apply Hg | apply Hs | apply Hb | apply Hx];
      apply Hlt; (simpl; tauto) || discriminate.
  - intros Hzero. apply H0; apply Hzero; simpl; tauto.
Qed.


Lemma getSizeMultiplier_monotone_witness :
  getSizeMultiplier 3000 (8 # 10) <= getSizeMultiplier 6000 (8 # 10).
Proof.
  assert (Hab : 3000 <= 6000) by (unfold Qle; simpl; lia).
  destruct (getSizeMultiplier_monotone (8 # 10) 3000 6000 Hab) as [Hinc _].
  apply Hinc. reflexivity.
Defined.

Lemma getDominantTier_strict_maximum_witness :
  getDominantTier sample_selections = "Better Tier".
Proof.
  destruct (getDominantTier_strict_maximum sample_selections) as [Hmax _].
  apply (Hmax "better").
  - simpl. tauto.
  - intros t' [<-|[<-|[<-|[<-|[]]]]] Hne; try congruence; vm_compute; lia.
Defined.

Lemma getDominantTier_fixed_tie_break_witness :
  getDominantTier tied_selections = "Good Tier" /\
  getDominantTier (rev tied_selections) = "Good Tier".
Proof.
  destruct (getDominantTier_fixed_tie_break tied_selections) as (Hformula & _ & Hperm).
  split.
  - rewrite Hformula. reflexivity.
  - rewrite (Hperm (rev tied_selections)) by apply Permutation_rev.
    rewrite Hformula. reflexivity.
Defined.

End PricingProperties.

(** ** Binary64 arithmetic *)

Section DoubleArithmetic.

Import Double.

Local Open Scope Z_scope.















End DoubleArithmetic.

(** ** Signs *)

Section DoubleSigns.

Import Double.

Local Open Scope Z_scope.

Lemma shr_1_nonneg (mrs : shr_record) : 0 <= shr_m mrs -> 0 <= shr_m (shr_1 mrs).
Proof.
  destruct mrs as [m r s]. simpl.
  destruct m as [| [p | p |] | [p | p |]]; simpl; lia.
Qed.

Lemma iter_pos_nonneg (p : positive) (mrs : shr_record) :
  0 <= shr_m mrs -> 0 <= shr_m (SpecFloat.iter_pos shr_1 p mrs).
Proof.
  revert mrs. induction p as [p IH | p IH |]; intros mrs H; cbn [SpecFloat.iter_pos].
  - apply IH, IH, shr_1_nonneg, H.
  - apply IH, IH, H.
  - apply shr_1_nonneg, H.
Qed.

Lemma shr_fexp_nonneg (m e : Z) (l : location) :
  0 <= m -> 0 <= shr_m (shr_fexp prec emax m e l).1.
Proof.
  intros Hm. unfold shr_fexp, shr.
  assert (H0 : 0 <= shr_m (shr_record_of_loc m l)).
  { destruct l as [| []]; exact Hm. }
  destruct (fexp prec emax (Zdigits2 m + e) - e) as [| p | p]; simpl;
    [exact H0 | apply iter_pos_nonneg, H0 | exact H0].
Qed.

Lemma round_nearest_even_nonneg (m : Z) (l : location) :
  0 <= m -> 0 <= round_nearest_even m l.
Proof.
  intros Hm. destruct l as [| []]; simpl; try lia.
  destruct (Z.even m); lia.
Qed.

(** Rounding a non-negative mantissa gives a number of the sign asked for. *)
Lemma binary_round_aux_sign (s : bool) (m e : Z) (l : location) :
  0 <= m -> sign_bit (binary_round_aux prec emax s m e l) = Some s.
Proof.
  intros Hm. unfold binary_round_aux.
  pose proof (shr_fexp_nonneg m e l Hm) as H1.
  destruct (shr_fexp prec emax m e l) as [mrs' e'].
  pose proof (shr_fexp_nonneg
                (round_nearest_even (shr_m mrs') (loc_of_shr_record mrs')) e' loc_Exact
                (round_nearest_even_nonneg _ _ H1)) as H2.
  destruct (shr_fexp prec emax _ e' loc_Exact) as [mrs'' e''].
  simpl in H2.
  destruct (shr_m mrs'') as [| p | p]; [reflexivity | | lia].
  destruct (Z.leb e'' (emax - prec)); reflexivity.
Qed.

Lemma binary_round_sign (s : bool) (m : positive) (e : Z) :
  sign_bit (binary_round prec emax s m e) = Some s.
Proof.
  unfold binary_round.
  destruct (shl_align m e _) as [mz ez].
  apply binary_round_aux_sign. lia.
Qed.

(** A product by a positive number keeps the sign. *)
Lemma mul_seven_percent_sign (x : number) (s : bool) :
  sign_bit x = Some s -> sign_bit (mul x seven_percent) = Some s.
Proof.
  destruct x as [sx | sx | | sx m e]; simpl; try discriminate;
    intros [= <-]; unfold mul, seven_percent; cbn [SFmul sign_bit];
    rewrite ?Bool.xorb_false_r; try reflexivity.
  apply binary_round_aux_sign. lia.
Qed.

Lemma of_integer_sign (s : bool) (n : Z) :
  (if s then n <= 0 else 0 <= n) -> sign_bit (of_integer s n) = Some s.
Proof.
  intros Hn. unfold of_integer.
  destruct n as [| p | p]; [reflexivity | |]; cbv zeta.
  - destruct s; [lia |].
    destruct (Z.leb _ prec); [reflexivity | apply binary_round_sign].
  - destruct s; [| lia].
    destruct (Z.leb _ prec); [reflexivity | apply binary_round_sign].
Qed.

Lemma Math_round_sign (x : number) (s : bool) :
  sign_bit x = Some s -> sign_bit (Math_round x) = Some s.
Proof.
  destruct x as [sx | sx | | sx m e]; simpl; try discriminate;
    intros [= <-]; try reflexivity.
  destruct (Z.leb_spec 0 e) as [Hpos | Hneg]; [reflexivity |].
  apply of_integer_sign.
  unfold finite_value. destruct (Z.leb_spec 0 e); [lia |].
  unfold Qfloor, Qplus. cbn [Qnum Qden].
  destruct sx; cbn [cond_Zopp].
  - assert (Hlt : (- Z.pos m * 2 + 1 * Z.pos (Z.to_pos (2 ^ (- e))))
                  / Z.pos (Z.to_pos (2 ^ (- e)) * 2) < 1); [| lia].
    apply Z.div_lt_upper_bound; [lia |].
    rewrite Pos2Z.inj_mul. lia.
  - apply Z.div_pos; lia.
Qed.

End DoubleSigns.

(** ** Properties of the pricing engine on binary64 *)

Section DoublePricing.

Import Double.

Variable native_key : string -> string.




Lemma calculateTotal_unfold (p : Params) :
  let loop := fold_left (categoryStep native_key p) (categories p) (zero, O) in
  let t := calculateTotal native_key p in
  subtotal t = loop.1 /\
  selectedCount t = loop.2 /\
  extrasTotal t = fold_left (extraStep p) (extrasData p) zero /\
  modifiersTotal t = fold_left modifierStep (modifiers p) zero /\
  equipmentSubtotal t = add (add (subtotal t) (extrasTotal t)) (modifiersTotal t) /\
  taxEstimate t = Math_round (mul (equipmentSubtotal t) seven_percent) /\
  grandTotal t = add (equipmentSubtotal t) (taxEstimate t).
Proof.
  cbv zeta. unfold calculateTotal.
  destruct (fold_left (categoryStep native_key p) (categories p) (zero, O)) as [sub cnt].
  simpl. repeat split.
Qed.



(** At a credit of 350 the product with 0.07 falls just below -24.5 and
    the tax is -25. *)
Example credit_totals :
  calculateTotal native_key credit_params =
  {| subtotal := zero; extrasTotal := zero; modifiersTotal := of_Z (-350);
     equipmentSubtotal := of_Z (-350); taxEstimate := of_Z (-25);
     grandTotal := of_Z (-375); selectedCount := 0 |}.
Proof. vm_compute. reflexivity. Qed.

(** The literal [0.07] is the quotient of 7 by 100, and no double is
    nearer to 7/100: the distance is 48 parts in [100 * 2^56], less than
    half a unit in the last place. *)
Example seven_percent_literal :
  seven_percent = div (of_Z 7) (of_Z 100) /\
  is_double seven_percent = true /\
  value seven_percent = Some (5044031582654956 # 72057594037927936) /\
  (Z.abs (100 * 5044031582654956 - 7 * 2 ^ 56) = 48)%Z.
Proof. vm_compute. repeat split. Qed.

Example credit_tax_product :
  mul (of_Z (-350)) seven_percent = S754_finite true 6896136929411073 (-48) /\
  is_double (mul (of_Z (-350)) seven_percent) = true /\
  Math_round (mul (of_Z (-350)) seven_percent) = of_Z (-25).
Proof. vm_compute. repeat split. Qed.

(** At 4350 square feet the pre-wire amount is 13050; the quotient by
    100 is the double below 130.5 and the price is 13000. *)
Example prewire_good_at_4350 :
  getSizeMultiplier (of_Z 4350) (of_Z 1) = div (of_Z 4350) (of_Z 4000) /\
  div (mul (of_Z 12000) (getSizeMultiplier (of_Z 4350) (of_Z 1))) (of_Z 100)
  = S754_finite false 4591560557592575 (-45) /\
  getCategoryPrice prewire (Str "good") (of_Z 4350) = Num (of_Z 13000).
Proof. vm_compute. repeat split. Qed.

Example networking_good_at_6000_double :
  getCategoryPrice networking (Str "good") (of_Z 6000) = Num (of_Z 8000).
Proof. vm_compute. reflexivity. Qed.




(** At 4350 square feet the quotient is a double close to 60.99, which
    rounds to 61: the price is 6100. *)
Example networking_good_at_4350 :
  let y := div (mul (of_Z 5700) (getSizeMultiplier (of_Z 4350) (div (of_Z 8) (of_Z 10))))
               (of_Z 100) in
  is_double y = true /\
  option_map (fun v => Qfloor (v + (1 # 2))) (value y) = Some 61%Z /\
  getCategoryPrice networking (Str "good") (of_Z 4350)
  = Num (mul (Math_round y) (of_Z 100)) /\
  mul (Math_round y) (of_Z 100) = of_Z 6100.
Proof. vm_compute. repeat split. Qed.


(** C7, at the input where the code departs from it.  An empty or null
    tier and a tier name that the tier map neither owns nor inherits are
    priced 0.  A tier name that the tier map inherits from
    [Object.prototype] is not: its base price is [undefined] and the
    category price is [NaN] ([undefined] for a customized category); for
    the saved selection [{networking: "constructor"}] the subtotal, the
    equipment subtotal, the tax and the grand total are [NaN]. *)
Theorem getCategoryPrice_inherited_tier (cat : Category) (homeSize : number) :
  getCategoryPrice cat Null homeSize = Num zero /\
  getCategoryPrice cat (Str EmptyString) homeSize = Num zero /\
  (forall t, tiers cat !! t = None -> inherited t = false ->
     getCategoryPrice cat (Str t) homeSize = Num zero) /\
  (forall t, tiers cat !! t = None -> inherited t = true ->
     getCategoryPrice cat (Str t) homeSize
     = if isCustomized cat then Undefined else Num NaN) /\
  inherited "constructor" = true /\
  getCategoryPrice networking (Str "constructor") (of_Z 4000) = Num NaN /\
  calculateTotal native_key constructor_params =
  {| subtotal := NaN; extrasTotal := zero; modifiersTotal := zero;
     equipmentSubtotal := NaN; taxEstimate := NaN; grandTotal := NaN;
     selectedCount := 1 |}.
Proof.
  repeat split; try reflexivity.
  - intros t Hnone Hnot. unfold getCategoryPrice, read_of. cbn [property_key].
    rewrite Hnone, Hnot. destruct (truthy_tier (Str t)); reflexivity.
  - intros t Hnone Hin. unfold getCategoryPrice, read_of. cbn [property_key truthy_tier].
    rewrite Hnone, Hin.
    destruct (String.eqb_spec t EmptyString) as [-> | _]; [discriminate Hin |].
    reflexivity.
Qed.

(** X6.  In binary64 the order of the modifier lines shows in the total:
    0.1 + 0.2 + 0.3 is 0.6000000000000001 and 0.3 + 0.2 + 0.1 is 0.6. *)
Theorem calculateTotal_order_matters :
  modifiersTotal (calculateTotal native_key (tenths [1; 2; 3]%Z))
  = S754_finite false 5404319552844596 (-53) /\
  modifiersTotal (calculateTotal native_key (tenths [3; 2; 1]%Z))
  = S754_finite false 5404319552844595 (-53) /\
  div (of_Z 6) (of_Z 10) = S754_finite false 5404319552844595 (-53).
Proof. vm_compute. repeat split. Qed.

(** X7.  The tax estimate has the sign of the equipment subtotal, and is a
    number whenever the equipment subtotal is. *)
Theorem calculateTotal_tax_sign (p : Params) (s : bool) :
  sign_bit (equipmentSubtotal (calculateTotal native_key p)) = Some s ->
  sign_bit (taxEstimate (calculateTotal native_key p)) = Some s.
Proof.
  intros Hs.
  destruct (calculateTotal_unfold p) as (_ & _ & _ & _ & _ & Ht & _).
  cbv zeta in Ht. rewrite Ht.
  apply Math_round_sign, mul_seven_percent_sign, Hs.
Qed.

End DoublePricing.

Section DoubleSamples.

Import Double.

Lemma calculateTotal_tax_sign_witness :
  sign_bit (equipmentSubtotal (calculateTotal native_key_v8 credit_params)) = Some true /\
  sign_bit (taxEstimate (calculateTotal native_key_v8 credit_params)) = Some true.
Proof.
  assert (Hs : sign_bit (equipmentSubtotal (calculateTotal native_key_v8 credit_params))
               = Some true) by (vm_compute; reflexivity).
  split; [exact Hs |].
  exact (calculateTotal_tax_sign native_key_v8 credit_params true Hs).
Defined.

End DoubleSamples.

(** ** Properties of the version store *)

Section VersionStoreProperties.

Import VersionStore.
#[local] Open Scope Z_scope.

(** *** Normal forms *)

Lemma string_compare_refl (s : string) : String.compare s s = Eq.
Proof.
  induction s as [|c s IH]; simpl; [reflexivity|].
  unfold Ascii.compare. rewrite N.compare_refl. exact IH.
Qed.

Lemma string_compare_trans_not_gt (s1 s2 s3 : string) :
  String.compare s1 s2 <> Gt -> String.compare s2 s3 <> Gt ->
  String.compare s1 s3 <> Gt.
Proof.
  revert s2 s3. induction s1 as [|c1 s1 IH]; intros [|c2 s2] [|c3 s3]; simpl;
    try congruence.
  unfold Ascii.compare.
  destruct (N.compare_spec (N_of_ascii c1) (N_of_ascii c2)) as [E12|L12|G12];
    try congruence;
  destruct (N.compare_spec (N_of_ascii c2) (N_of_ascii c3)) as [E23|L23|G23];
    try congruence;
  destruct (N.compare_spec (N_of_ascii c1) (N_of_ascii c3)) as [E13|L13|G13];
    try congruence; try lia.
  intros H12 H23. exact (IH _ _ H12 H23).
Qed.

#[local] Instance str_le_trans : Transitive str_le.
Proof.
  intros a b c. unfold str_le, String.leb.
  pose proof (string_compare_trans_not_gt a b c).
  destruct (String.compare a b), (String.compare b c), (String.compare a c);
    try congruence; intros; exfalso; apply H; congruence.
Qed.

#[local] Instance str_le_antisym : AntiSymm eq str_le.
Proof. intros a b. apply String.leb_antisym. Qed.

Lemma str_le_total (a b : string) : str_le a b \/ str_le b a.
Proof. apply String.leb_total. Qed.

Lemma sort_insert_Permutation (x : string) (l : list string) :
  Permutation (sort_insert x l) (x :: l).
Proof.
  induction l as [|y l IH]; simpl; [reflexivity|].
  destruct (String.leb x y); [reflexivity|].
  rewrite IH. apply perm_swap.
Qed.

Lemma Array_sort_Permutation (l : list string) : Permutation (Array_sort l) l.
Proof.
  induction l as [|x l IH]; simpl; [reflexivity|].
  unfold Array_sort in *. simpl. rewrite sort_insert_Permutation. by constructor.
Qed.

Lemma sort_insert_Sorted (x : string) (l : list string) :
  Sorted str_le l -> Sorted str_le (sort_insert x l).
Proof.
  induction l as [|y l IH]; simpl; intros Hs.
  - repeat constructor.
  - destruct (String.leb x y) eqn:Hxy.
    + constructor; [assumption|]. constructor. exact Hxy.
    + apply Sorted_inv in Hs as [Hs Hhd].
      constructor; [by apply IH|].
      assert (Hyx : str_le y x).
      { destruct (str_le_total x y) as [H|H]; [unfold str_le in H; congruence | exact H]. }
      destruct l as [|z l]; simpl.
      * constructor. exact Hyx.
      * destruct (String.leb x z); constructor; [exact Hyx|].
        by apply HdRel_inv in Hhd.
Qed.

Lemma Array_sort_Sorted (l : list string) : Sorted str_le (Array_sort l).
Proof.
  induction l as [|x l IH]; [constructor|].
  unfold Array_sort in *. simpl. by apply sort_insert_Sorted.
Qed.

Lemma Array_sort_proper (l l' : list string) :
  Permutation l l' -> Array_sort l = Array_sort l'.
Proof.
  intros HP. apply (Sorted_unique str_le); try apply Array_sort_Sorted.
  by rewrite !Array_sort_Permutation.
Qed.

Lemma List_filter_Permutation {A} (f : A -> bool) (l l' : list A) :
  Permutation l l' -> Permutation (List.filter f l) (List.filter f l').
Proof.
  induction 1 as [|a l l' _ IH|a b l|l1 l2 l3 _ IH1 _ IH2]; simpl.
  - reflexivity.
  - destruct (f a); [by constructor | exact IH].
  - destruct (f a), (f b); try reflexivity. apply perm_swap.
  - by etransitivity.
Qed.

Lemma obj_get_In {V} (o : list (string * V)) (k : string) (v : V) :
  NoDup (Object_keys o) -> In (k, v) o -> obj_get o k = Some v.
Proof.
  induction o as [|[k' v'] o IH]; simpl; [tauto|].
  intros Hnd [[= -> ->]|Hin].
  - by rewrite String.eqb_refl.
  - apply NoDup_cons in Hnd as [Hk' Hnd].
    destruct (String.eqb_spec k' k) as [->|_]; [|auto].
    exfalso. apply Hk'. apply list_elem_of_In.
    change k with (fst (k, v)). by apply in_map.
Qed.

Lemma obj_get_None {V} (o : list (string * V)) (k : string) :
  ~ In k (Object_keys o) -> obj_get o k = None.
Proof.
  induction o as [|[k' v'] o IH]; simpl; [reflexivity|].
  intros Hnot. destruct (String.eqb_spec k' k); [tauto | auto].
Qed.

Lemma obj_get_Permutation {V} (o o' : list (string * V)) (k : string) :
  NoDup (Object_keys o) -> Permutation o o' -> obj_get o k = obj_get o' k.
Proof.
  intros Hnd HP.
  assert (Hnd' : NoDup (Object_keys o')).
  { unfold Object_keys in *. by rewrite <- HP. }
  destruct (obj_get o k) as [v|] eqn:Hget.
  - symmetry. apply obj_get_In; [assumption|].
    apply (Permutation_in _ HP).
    clear -Hget. induction o as [|[k' v'] o IH]; simpl in *; [discriminate|].
    destruct (String.eqb_spec k' k) as [->|_]; [left; congruence | right; auto].
  - symmetry. apply obj_get_None. intros Hin.
    assert (Hin0 : In k (Object_keys o)).
    { unfold Object_keys in *. apply (Permutation_in _ (Permutation_sym (Permutation_map fst HP))). exact Hin. }
    clear -Hget Hin0. induction o as [|[k' v'] o IH]; simpl in *; [tauto|].
    destruct (String.eqb_spec k' k) as [->|Hne]; [discriminate|].
    destruct Hin0; [contradiction | auto].
Qed.

Lemma omap_ext' {A B} (f g : A -> option B) (l : list A) :
  (forall x, f x = g x) -> omap f l = omap g l.
Proof.
  intros H. apply list_omap_ext. induction l as [|x l IH]; constructor; auto.
Qed.

(** Objects with the same members in another order are written alike. *)
Lemma SerializeJSONProperty_key_order (plist : list string)
    (fields fields' : list (string * json)) :
  NoDup (Object_keys fields) -> Permutation fields fields' ->
  SerializeJSONProperty plist (JObj fields) = SerializeJSONProperty plist (JObj fields').
Proof.
  intros Hnd HP. simpl. do 2 f_equal. f_equal.
  apply omap_ext'. intros k.
  rewrite (obj_get_Permutation
             (map (fun kv => (kv.1, SerializeJSONProperty plist kv.2)) fields)
             (map (fun kv => (kv.1, SerializeJSONProperty plist kv.2)) fields')).
  - reflexivity.
  - unfold Object_keys in *. rewrite map_map. simpl. exact Hnd.
  - by apply Permutation_map.
Qed.

(** The normal form does not depend on the order of the top-level keys. *)
Lemma normalizeState_key_order (st st' : State) :
  NoDup (Object_keys st) -> Permutation st st' ->
  normalizeState st = normalizeState st'.
Proof.
  intros Hnd HP. unfold normalizeState, JSON_stringify.
  set (keep := fun kv : string * json => negb (String.eqb kv.1 "timestamp")).
  assert (HPf : Permutation (List.filter keep st) (List.filter keep st'))
    by (by apply List_filter_Permutation).
  assert (Hndf : NoDup (Object_keys (List.filter keep st))).
  { clear -Hnd. unfold Object_keys in *. induction st as [|kv st IH]; simpl; [constructor|].
    apply NoDup_cons in Hnd as [Hk Hnd]. destruct (keep kv); simpl; [|auto].
    apply NoDup_cons. split; [|auto].
    intros Hin. apply Hk. apply list_elem_of_In in Hin. apply list_elem_of_In.
    apply in_map_iff in Hin as (x & Hx & Hin). apply in_map_iff. exists x.
    apply List.filter_In in Hin. tauto. }
  rewrite (Array_sort_proper (Object_keys (List.filter keep st))
                             (Object_keys (List.filter keep st')))
    by (by apply Permutation_map).
  by apply SerializeJSONProperty_key_order.
Qed.

(** The normal form drops the top-level [timestamp]. *)
Lemma normalizeState_ignores_timestamp (ts : json) (st : State) :
  normalizeState (("timestamp", ts) :: st) = normalizeState st.
Proof. reflexivity. Qed.

(** The replacer array filters nested objects as well: a key of a nested
    object is written only when it is also a top-level key, so these two
    states have the same normal form. *)
Example normalizeState_nested_keys :
  normalizeState [("homeSize", JNum 4000);
                  ("selections", JObj [("networking", JStr "good")])]
  = normalizeState [("homeSize", JNum 4000);
                    ("selections", JObj [("networking", JStr "best")])].
Proof. vm_compute. reflexivity. Qed.

Lemma numbered_from_snoc (k : Z) (rows : list VersionRow) (r : VersionRow) :
  numbered_from k (rows ++ [r]) <->
  numbered_from k rows /\ version_number r = k + Z.of_nat (length rows).
Proof.
  revert k. induction rows as [|r' rows IH]; intros k; simpl.
  - rewrite Z.add_0_r. tauto.
  - rewrite IH. replace (k + 1 + Z.of_nat (length rows)) with
      (k + Z.pos (Pos.of_succ_nat (length rows))) by lia. tauto.
Qed.

Lemma numbered_from_bounds (k : Z) (rows : list VersionRow) (r : VersionRow) :
  numbered_from k rows -> In r rows ->
  k <= version_number r < k + Z.of_nat (length rows).
Proof.
  revert k. induction rows as [|r' rows IH]; intros k; simpl; [tauto|].
  intros [Hk Hrest] [->|Hin]; [lia|].
  specialize (IH _ Hrest Hin). lia.
Qed.

Lemma numbered_from_lookup (k : Z) (rows : list VersionRow) (i : nat) (r : VersionRow) :
  numbered_from k rows -> rows !! i = Some r -> version_number r = k + Z.of_nat i.
Proof.
  revert k i. induction rows as [|r' rows IH]; intros k i; simpl; [done|].
  intros [Hk Hrest]. destruct i as [|i]; simpl.
  - intros [= <-]. lia.
  - intros Hi. rewrite (IH _ _ Hrest Hi). lia.
Qed.

Lemma numbered_from_ext (k : Z) (rows rows' : list VersionRow) :
  map version_number rows = map version_number rows' ->
  numbered_from k rows -> numbered_from k rows'.
Proof.
  revert k rows'. induction rows as [|r rows IH]; intros k [|r' rows']; simpl;
    try discriminate; [tauto|].
  intros [= Hv Hrest] [Hk Hn]. split; [congruence | eauto].
Qed.

Lemma order_numbered (k : Z) (rows : list VersionRow) :
  numbered_from k rows -> order_by_version_number rows = rows.
Proof.
  revert k. induction rows as [|r rows IH]; intros k; simpl; [reflexivity|].
  intros [Hk Hrest]. unfold order_by_version_number in *. simpl.
  rewrite (IH _ Hrest). destruct rows as [|r' rows]; [reflexivity|].
  simpl. destruct Hrest as [Hk' _].
  destruct (Z.leb_spec (version_number r) (version_number r')); [reflexivity | lia].
Qed.

Lemma rows_of_app (bid : string) (l1 l2 : list VersionRow) :
  rows_of bid (l1 ++ l2) = rows_of bid l1 ++ rows_of bid l2.
Proof. apply List.filter_app. Qed.

Lemma rows_of_In (bid : string) (rows : list VersionRow) (r : VersionRow) :
  In r (rows_of bid rows) <-> In r rows /\ budget_id r = bid.
Proof.
  unfold rows_of. rewrite List.filter_In.
  destruct (String.eqb_spec (budget_id r) bid); intuition congruence.
Qed.

Lemma rows_of_map (bid : string) (g : VersionRow -> VersionRow) (rows : list VersionRow) :
  (forall r, budget_id (g r) = budget_id r) ->
  rows_of bid (map g rows) = map g (rows_of bid rows).
Proof.
  intros Hg. unfold rows_of. induction rows as [|r rows IH]; simpl; [reflexivity|].
  rewrite Hg. destruct (String.eqb (budget_id r) bid); simpl; congruence.
Qed.

Lemma rows_of_delete_other (bid bid' : string) (rows : list VersionRow) :
  bid' <> bid ->
  rows_of bid' (List.filter (fun r => negb (String.eqb (budget_id r) bid)) rows)
  = rows_of bid' rows.
Proof.
  intros Hne. unfold rows_of. induction rows as [|r rows IH]; simpl; [reflexivity|].
  destruct (String.eqb_spec (budget_id r) bid) as [Hb|Hb]; simpl.
  - destruct (String.eqb_spec (budget_id r) bid'); [congruence | exact IH].
  - destruct (String.eqb (budget_id r) bid'); simpl; congruence.
Qed.

Lemma rows_of_delete_same (bid : string) (rows : list VersionRow) :
  rows_of bid (List.filter (fun r => negb (String.eqb (budget_id r) bid)) rows) = [].
Proof.
  unfold rows_of. induction rows as [|r rows IH]; simpl; [reflexivity|].
  destruct (String.eqb (budget_id r) bid) eqn:E; simpl; [exact IH|].
  rewrite E. exact IH.
Qed.

Lemma row_update_budget_id (set : VersionRow -> VersionRow) (bid : string) (vnum : Z)
    (r : VersionRow) :
  (forall r, budget_id (set r) = budget_id r) ->
  budget_id (row_update set bid vnum r) = budget_id r.
Proof.
  intros Hset. unfold row_update.
  destruct (String.eqb (budget_id r) bid), (Z.eqb (version_number r) vnum); simpl; auto.
Qed.

Lemma row_update_version_number (set : VersionRow -> VersionRow) (bid : string) (vnum : Z)
    (r : VersionRow) :
  (forall r, version_number (set r) = version_number r) ->
  version_number (row_update set bid vnum r) = version_number r.
Proof.
  intros Hset. unfold row_update.
  destruct (String.eqb (budget_id r) bid), (Z.eqb (version_number r) vnum); simpl; auto.
Qed.

Lemma row_update_other (set : VersionRow -> VersionRow) (bid : string) (vnum : Z)
    (rows : list VersionRow) :
  (forall r, In r rows -> budget_id r <> bid \/ version_number r <> vnum) ->
  map (row_update set bid vnum) rows = rows.
Proof.
  intros H. induction rows as [|r rows IH]; simpl; [reflexivity|].
  rewrite IH by (intros; apply H; simpl; auto). f_equal.
  unfold row_update.
  destruct (String.eqb_spec (budget_id r) bid), (Z.eqb_spec (version_number r) vnum);
    simpl; try reflexivity.
  destruct (H r); simpl; auto; contradiction.
Qed.

Lemma row_update_last (set : VersionRow -> VersionRow) (bid : string) (k : Z)
    (rs : list VersionRow) (l : VersionRow) :
  numbered_from k (rs ++ [l]) -> budget_id l = bid ->
  map (row_update set bid (version_number l)) (rs ++ [l]) = rs ++ [set l].
Proof.
  intros Hnum Hbid. apply numbered_from_snoc in Hnum as [Hrs Hl].
  rewrite map_app. simpl. f_equal.
  - apply row_update_other. intros r Hin. right.
    pose proof (numbered_from_bounds _ _ _ Hrs Hin). lia.
  - unfold row_update. rewrite Hbid, String.eqb_refl, Z.eqb_refl. reflexivity.
Qed.

Lemma loadBudget_Some (db : DB) (bid : string) (budget : Budget) :
  loadBudget db bid = Some budget ->
  exists row, budgets db !! bid = Some row /\
    versions budget =
      map to_version (order_by_version_number (rows_of bid (budget_versions db))) /\
    currentState budget = current_state row /\ id budget = bid.
Proof.
  unfold loadBudget. destruct (budgets db !! bid) as [row|]; [|discriminate].
  intros [= <-]. exists row. auto.
Qed.

Lemma loadBudget_versions (db : DB) (bid : string) (budget : Budget) :
  Inv db -> loadBudget db bid = Some budget ->
  versions budget = map to_version (rows_of bid (budget_versions db)).
Proof.
  intros [Hnum _] Hload. apply loadBudget_Some in Hload as (row & _ & Hv & _).
  rewrite Hv, (order_numbered 1) by apply Hnum. reflexivity.
Qed.

Lemma loaded_versions (db : DB) (bid : string) (rows : list VersionRow) :
  is_Some (budgets db !! bid) ->
  rows_of bid (budget_versions db) = rows ->
  numbered_from 1 rows ->
  option_map versions (loadBudget db bid) = Some (map to_version rows).
Proof.
  intros [row Hrow] Hrows Hnum. unfold loadBudget. rewrite Hrow. simpl.
  rewrite Hrows, (order_numbered 1) by assumption. reflexivity.
Qed.

Lemma map_snoc_inv {A B} (f : A -> B) (l : list A) (ys : list B) (y : B) :
  map f l = ys ++ [y] ->
  exists xs x, l = xs ++ [x] /\ map f xs = ys /\ f x = y.
Proof.
  intros H. destruct (map_eq_app _ _ _ _ H) as (xs & l2 & -> & Hxs & Hl2).
  destruct l2 as [|x [|? ?]]; try discriminate.
  injection Hl2 as Hx. exists xs, x. auto.
Qed.

(** What the loaded budget and its last version say about the table. *)
Lemma last_version_rows (db : DB) (bid : string) (budget : Budget)
    (earlier : list Version) (lastVersion : Version) :
  Inv db -> loadBudget db bid = Some budget ->
  versions budget = earlier ++ [lastVersion] ->
  exists rs l,
    rows_of bid (budget_versions db) = rs ++ [l] /\
    map to_version rs = earlier /\ to_version l = lastVersion /\
    budget_id l = bid /\ numbered_from 1 (rs ++ [l]) /\
    is_Some (budgets db !! bid) /\
    last (versions budget) = Some lastVersion /\
    length (versions budget) = length (rs ++ [l]).
Proof.
  intros HInv Hload Hlast.
  pose proof (loadBudget_versions _ _ _ HInv Hload) as Hv.
  rewrite Hlast in Hv. symmetry in Hv.
  apply map_snoc_inv in Hv as (rs & l & Hrows & Hrs & Hl).
  exists rs, l. repeat split; try assumption.
  - assert (Hin : In l (rows_of bid (budget_versions db)))
      by (rewrite Hrows; apply in_or_app; simpl; auto).
    apply rows_of_In in Hin. tauto.
  - rewrite <- Hrows. apply HInv.
  - apply loadBudget_Some in Hload as (row & Hrow & _). eauto.
  - rewrite Hlast. apply last_snoc.
  - rewrite Hlast, <- Hrs, !length_app, length_map. reflexivity.
Qed.

(** C3.  When the new state and the state of the latest version have the
    same normal form, an update creates no version: the table keeps its
    length, the versions of other budgets and all budget rows are
    untouched.  Without a pin request, or when the latest version is
    already pinned, the database is unchanged.  With a pin request on an
    unpinned latest version, that version alone changes: it becomes
    pinned and takes the caller's note when one is given. *)
Theorem updateBudget_same_state
    (now : Z) (bid : string) (data : UpdateBody) (db : DB) (budget : Budget)
    (earlier : list Version) (lastVersion : Version)
    (HInv : Inv db)
    (Hload : loadBudget db bid = Some budget)
    (Hlast : versions budget = earlier ++ [lastVersion])
    (Hsame : normalizeState (v_state lastVersion) = normalizeState (body_state data)) :
  let db' := (updateBudget now bid data db).1 in
  let r := (updateBudget now bid data db).2 in
  length (budget_versions db') = length (budget_versions db) /\
  budgets db' = budgets db /\
  (forall bid', bid' <> bid ->
     rows_of bid' (budget_versions db') = rows_of bid' (budget_versions db)) /\
  if pin_requested data && negb (pinned lastVersion) then
    option_map versions (loadBudget db' bid) =
      Some (earlier ++
            [ {| version := version lastVersion;
                 timestamp := timestamp lastVersion;
                 v_state := v_state lastVersion;
                 v_note := match body_note data with
                           | Some n => if String.eqb n EmptyString
                                       then v_note lastVersion else n
                           | None => v_note lastVersion
                           end;
                 pinned := true |} ]) /\
    r = VersionPinned (length (versions budget))
  else
    db' = db /\ r = NoChanges (length (versions budget)).
Proof.
  intros db' r. subst db' r.
  destruct (last_version_rows _ _ _ _ _ HInv Hload Hlast)
    as (rs & l & Hrows & Hrs & Hl & Hbid & Hnum & Hsome & Hlastv & Hlen).
  unfold updateBudget. rewrite Hload, Hlastv, Hsame, String.eqb_refl.
  subst lastVersion earlier.
  destruct (pin_requested data && negb (pinned (to_version l))) eqn:Hpin; simpl.
  - split; [by rewrite length_map|]. split; [reflexivity|]. split.
    + intros bid' Hne. rewrite rows_of_map.
      * apply row_update_other. intros r Hin. left.
        apply rows_of_In in Hin. destruct Hin as [_ Hin]. congruence.
      * intros r. by apply row_update_budget_id.
    + split; [|reflexivity].
      set (pin_it := fun r : VersionRow =>
             {| budget_id := budget_id r;
                version_number := version_number r;
                created_at := created_at r;
                state := state r;
                note := note_or data (note l);
                is_pinned := true |}).
      rewrite (loaded_versions _ bid (rs ++ [pin_it l])).
      * rewrite map_app. reflexivity.
      * exact Hsome.
      * simpl. rewrite rows_of_map by (intros r; by apply row_update_budget_id).
        rewrite Hrows. apply (row_update_last _ _ 1); assumption.
      * apply (numbered_from_ext 1 (rs ++ [l])); [|assumption].
        rewrite !map_app. reflexivity.
  - repeat split; reflexivity.
Qed.

Lemma saveBudget_fresh (now : Z) (budget : Budget) (db : DB) :
  budgets db !! id budget = None ->
  budget_versions (saveBudget now budget db) = budget_versions db.
Proof. intros H. simpl. by rewrite H. Qed.

Lemma saveBudget_In (now : Z) (budget : Budget) (db : DB) (r : VersionRow) :
  In r (budget_versions (saveBudget now budget db)) -> In r (budget_versions db).
Proof.
  simpl. destruct (budgets db !! id budget); [|auto].
  unfold cascade. intros H. apply List.filter_In in H. tauto.
Qed.

Lemma saveBudget_rows_other (now : Z) (budget : Budget) (db : DB) (bid' : string) :
  bid' <> id budget ->
  rows_of bid' (budget_versions (saveBudget now budget db))
  = rows_of bid' (budget_versions db).
Proof.
  intros Hne. simpl. destruct (budgets db !! id budget); [|reflexivity].
  by apply rows_of_delete_other.
Qed.

(** The rows of a budget that is saved again do not survive. *)
Lemma saveBudget_rows_same (now : Z) (budget : Budget) (db : DB) :
  is_Some (budgets db !! id budget) ->
  rows_of (id budget) (budget_versions (saveBudget now budget db)) = [].
Proof.
  intros [row Hrow]. simpl. rewrite Hrow. apply rows_of_delete_same.
Qed.

Lemma saveBudget_lookup (now : Z) (budget : Budget) (db : DB) (bid : string) :
  is_Some (budgets db !! bid) -> is_Some (budgets (saveBudget now budget db) !! bid).
Proof.
  intros H. simpl. rewrite lookup_insert_is_Some.
  destruct (decide (id budget = bid)); auto.
Qed.

Lemma loadBudget_id (db : DB) (bid : string) (budget : Budget) :
  loadBudget db bid = Some budget -> id budget = bid.
Proof. intros H. apply loadBudget_Some in H as (? & ? & ? & ? & ?). assumption. Qed.

Lemma numbered_from_unique (k : Z) (rows : list VersionRow) (a b : VersionRow) :
  numbered_from k rows -> In a rows -> In b rows ->
  version_number a = version_number b -> a = b.
Proof.
  revert k. induction rows as [|r rows IH]; intros k; simpl; [tauto|].
  intros [Hk Hrest] [->|Ha] [->|Hb] Heq; try reflexivity.
  - pose proof (numbered_from_bounds _ _ _ Hrest Hb). lia.
  - pose proof (numbered_from_bounds _ _ _ Hrest Ha). lia.
  - eauto.
Qed.

Lemma find_version (k : Z) (rows : list VersionRow) (target : VersionRow) :
  numbered_from k rows -> In target rows ->
  find (fun v => Z.eqb (version v) (version_number target)) (map to_version rows)
  = Some (to_version target).
Proof.
  intros Hnum Hin.
  destruct (find _ _) as [v|] eqn:Hfind.
  - apply find_some in Hfind as [Hv Heq].
    apply in_map_iff in Hv as (r & <- & Hr).
    apply Z.eqb_eq in Heq. simpl in Heq.
    by rewrite (numbered_from_unique _ _ _ _ Hnum Hr Hin Heq).
  - exfalso.
    pose proof (find_none _ _ Hfind (to_version target) (in_map _ _ _ Hin)) as Hno.
    simpl in Hno. rewrite Z.eqb_refl in Hno. discriminate.
Qed.

(** C4.  For every budget and every version V it has, an authorized
    restore appends one row to the version table and changes no existing
    row: the new version is numbered version count + 1, carries a copy of
    V's state, the note "Restored to version" followed by V's number, and
    is pinned. *)
Theorem restoreVersion_appends
    (now : Z) (bid : string) (db : DB) (budget : Budget) (target : Version)
    (HInv : Inv db)
    (Hload : loadBudget db bid = Some budget)
    (Htarget : In target (versions budget)) :
  let V := version target in
  let db' := (restoreVersion now true bid V db).1 in
  let newVersionNum := Z.of_nat (length (versions budget)) + 1 in
  budget_versions db' =
    budget_versions db ++
    [ {| budget_id := bid;
         version_number := newVersionNum;
         created_at := now;
         state := v_state target;
         note := "Restored to version " +:+ pretty V;
         is_pinned := true |} ] /\
  option_map versions (loadBudget db' bid) =
    Some (versions budget ++
          [ {| version := newVersionNum;
               timestamp := now;
               v_state := v_state target;
               v_note := "Restored to version " +:+ pretty V;
               pinned := true |} ]) /\
  (restoreVersion now true bid V db).2 = Restored newVersionNum.
Proof.
  intros V db' newVersionNum. subst V db' newVersionNum.
  pose proof (loadBudget_versions _ _ _ HInv Hload) as Hv.
  pose proof (loadBudget_Some _ _ _ Hload) as (row & Hrow & _).
  destruct HInv as [Hnum Href].
  rewrite Hv in Htarget. apply in_map_iff in Htarget as (r & <- & Hr).
  assert (Hfind : find (fun v => Z.eqb (version v) (version_number r)) (versions budget)
                  = Some (to_version r)).
  { rewrite Hv. apply (find_version 1); [apply Hnum | assumption]. }
  unfold restoreVersion. simpl negb. cbn iota. rewrite Hload.
  change (version (to_version r)) with (version_number r). rewrite !Hfind.
  cbn [fst snd]. split; [reflexivity|]. split; [|reflexivity].
  set (new_row := {| budget_id := bid;
                     version_number := Z.of_nat (length (versions budget)) + 1;
                     created_at := now;
                     state := v_state (to_version r);
                     note := "Restored to version " +:+ pretty (version_number r);
                     is_pinned := true |}).
  rewrite (loaded_versions _ bid (rows_of bid (budget_versions db) ++ [new_row])).
  - rewrite map_app, <- Hv. reflexivity.
  - simpl. rewrite lookup_alter_is_Some. eauto.
  - simpl. rewrite rows_of_app. simpl. rewrite String.eqb_refl. reflexivity.
  - apply numbered_from_snoc. split; [apply Hnum|].
    simpl. rewrite Hv, length_map. lia.
Qed.

Lemma Inv_empty : Inv empty_db.
Proof. split; [intros bid; exact I | intros r []]. Qed.

Lemma Inv_saveBudget (now : Z) (budget : Budget) (db : DB) :
  Inv db -> Inv (saveBudget now budget db).
Proof.
  intros [Hnum Href]. split.
  - intros bid. simpl. destruct (budgets db !! id budget); [|apply Hnum].
    destruct (String.eqb_spec bid (id budget)) as [->|Hne].
    + unfold cascade. rewrite rows_of_delete_same. exact I.
    + unfold cascade. rewrite rows_of_delete_other by exact Hne. apply Hnum.
  - intros r Hin. apply saveBudget_lookup, Href. by eapply saveBudget_In.
Qed.

Lemma Inv_alter (f : BudgetRow -> BudgetRow) (bid : string) (db : DB) :
  Inv db ->
  Inv {| budgets := alter f bid (budgets db); budget_versions := budget_versions db |}.
Proof.
  intros [Hnum Href]. split; [exact Hnum|].
  intros r Hin. simpl. rewrite lookup_alter_is_Some. apply Href, Hin.
Qed.

Lemma Inv_addVersion (now : Z) (bid : string) (st : State) (nt : string) (p : bool)
    (db : DB) :
  Inv db -> is_Some (budgets db !! bid) ->
  Inv (addVersion now bid
         (Z.of_nat (length (rows_of bid (budget_versions db))) + 1) st nt p db).
Proof.
  intros [Hnum Href] Hsome. split.
  - intros bid'. simpl. rewrite rows_of_app. simpl.
    destruct (String.eqb_spec bid bid') as [<-|Hne].
    + apply numbered_from_snoc. split; [apply Hnum | simpl; lia].
    + rewrite app_nil_r. apply Hnum.
  - intros r Hin. simpl in Hin. apply in_app_or in Hin as [Hin|[<-|[]]].
    + apply Href, Hin.
    + exact Hsome.
Qed.

Lemma Inv_update_versions (set : VersionRow -> VersionRow) (bid : string) (vnum : Z)
    (db : DB) :
  (forall r, budget_id (set r) = budget_id r) ->
  (forall r, version_number (set r) = version_number r) ->
  Inv db -> Inv (update_versions set bid vnum db).
Proof.
  intros Hb Hv [Hnum Href]. split.
  - intros bid'. simpl.
    rewrite rows_of_map by (intros r; by apply row_update_budget_id).
    apply (numbered_from_ext 1 (rows_of bid' (budget_versions db))); [|apply Hnum].
    rewrite map_map. apply map_ext. intros r. symmetry.
    by apply row_update_version_number.
  - intros r Hin. simpl in Hin. apply in_map_iff in Hin as (r0 & <- & Hin).
    rewrite row_update_budget_id by assumption. apply Href, Hin.
Qed.

Lemma fresh_code_None (codes : list string) (db : DB) (bid : string) :
  fresh_code codes db = Some bid -> budgets db !! bid = None.
Proof.
  induction codes as [|c codes IH]; simpl; [discriminate|].
  destruct (budgets db !! c) eqn:Hc; [exact IH|]. intros [= <-]. exact Hc.
Qed.

(** The loop ends as soon as an unused code is drawn. *)
Lemma fresh_code_Some (codes : list string) (db : DB) :
  (exists c, In c codes /\ budgets db !! c = None) ->
  exists bid, fresh_code codes db = Some bid.
Proof.
  intros (c & Hin & Hc). induction codes as [|c' codes IH]; simpl in *; [tauto|].
  destruct (budgets db !! c') eqn:Hc'; [|eauto].
  destruct Hin as [->|Hin]; [congruence | auto].
Qed.

Lemma rows_of_fresh (db : DB) (bid : string) :
  Inv db -> budgets db !! bid = None -> rows_of bid (budget_versions db) = [].
Proof.
  intros [_ Href] Hnone.
  destruct (rows_of bid (budget_versions db)) as [|r rows] eqn:Hrows; [reflexivity|].
  assert (Hin : In r (rows_of bid (budget_versions db))) by (rewrite Hrows; simpl; auto).
  apply rows_of_In in Hin as [Hin <-].
  destruct (Href r Hin) as [row Hrow]. congruence.
Qed.

Lemma Inv_createBudget (now : Z) (codes : list string) (st : State) (db db' : DB)
    (r : Response) :
  Inv db -> createBudget now codes st db = Some (db', r) -> Inv db'.
Proof.
  intros HInv. unfold createBudget.
  destruct (fresh_code codes db) as [bid|] eqn:Hfresh; [|discriminate].
  intros [= <- _]. apply fresh_code_None in Hfresh.
  set (budget := {| id := bid; lastModified := now; versions := []; currentState := st;
                    isCustomized := false; sqftLocked := None; propertyTypeLocked := None;
                    categoryConfig := None; customCategories := None |}).
  pose proof (Inv_addVersion now bid st "Initial budget" true (saveBudget now budget db)
                (Inv_saveBudget now budget db HInv)) as H.
  rewrite (saveBudget_fresh now budget db Hfresh), (rows_of_fresh db bid HInv Hfresh) in H.
  apply H. simpl. rewrite lookup_insert_eq. eauto.
Qed.

Lemma Inv_updateBudget (now : Z) (bid : string) (data : UpdateBody) (db : DB) :
  Inv db -> Inv (updateBudget now bid data db).1.
Proof.
  intros HInv. unfold updateBudget.
  destruct (loadBudget db bid) as [budget|] eqn:Hload; [|exact HInv].
  destruct (last (versions budget)) as [lastVersion|]; [|exact HInv].
  pose proof (loadBudget_Some _ _ _ Hload) as (row & Hrow & _).
  pose proof (loadBudget_versions _ _ _ HInv Hload) as Hv.
  destruct (String.eqb _ _).
  - destruct (_ && _); [|exact HInv].
    simpl. apply Inv_update_versions; auto.
  - cbn [fst]. apply Inv_saveBudget. unfold writeVersion.
    destruct (consolidates now data lastVersion).
    + apply Inv_update_versions; auto.
    + rewrite Hv, length_map. apply Inv_addVersion; eauto.
Qed.

Lemma Inv_restoreVersion (now : Z) (authorized : bool) (bid : string) (versionNum : Z)
    (db : DB) :
  Inv db -> Inv (restoreVersion now authorized bid versionNum db).1.
Proof.
  intros HInv. unfold restoreVersion.
  destruct authorized; [|exact HInv]. simpl negb. cbn iota.
  destruct (loadBudget db bid) as [budget|] eqn:Hload; [|exact HInv].
  destruct (find _ _) as [target|]; [|exact HInv].
  pose proof (loadBudget_Some _ _ _ Hload) as (row & Hrow & _).
  pose proof (loadBudget_versions _ _ _ HInv Hload) as Hv.
  cbn [fst]. rewrite Hv, length_map.
  apply (Inv_alter _ bid (addVersion _ _ _ _ _ _ db)).
  apply Inv_addVersion; eauto.
Qed.

Lemma Inv_customizeBudget (now : Z) (authorized : bool) (bid : string)
    (data : CustomizeBody) (db : DB) :
  Inv db -> Inv (customizeBudget now authorized bid data db).1.
Proof.
  intros HInv. unfold customizeBudget.
  destruct authorized; [|exact HInv]. simpl negb. cbn iota.
  destruct (loadBudget db bid) as [budget|] eqn:Hload; [|exact HInv].
  pose proof (loadBudget_Some _ _ _ Hload) as (row & Hrow & _).
  destruct HInv as [Hnum Href]. cbn [fst]. split.
  - intros bid'. simpl. rewrite rows_of_app. simpl.
    destruct (String.eqb_spec bid bid') as [<-|Hne].
    + rewrite rows_of_delete_same. simpl. auto.
    + rewrite app_nil_r, rows_of_delete_other by congruence. apply Hnum.
  - intros r Hin. simpl in Hin |- *. rewrite lookup_alter_is_Some.
    apply in_app_or in Hin as [Hin|[<-|[]]].
    + apply List.filter_In in Hin as [Hin _]. apply Href, Hin.
    + simpl. eauto.
Qed.

Lemma Inv_step (db db' : DB) : Inv db -> step db db' -> Inv db'.
Proof.
  intros HInv Hstep. destruct Hstep.
  - eapply Inv_createBudget; eauto.
  - by apply Inv_updateBudget.
  - by apply Inv_restoreVersion.
  - by apply Inv_customizeBudget.
Qed.
Lemma numbers_update_versions (set : VersionRow -> VersionRow) (bid bid' : string)
    (vnum : Z) (db : DB) :
  (forall r, budget_id (set r) = budget_id r) ->
  (forall r, version_number (set r) = version_number r) ->
  numbers bid' (update_versions set bid vnum db) = numbers bid' db.
Proof.
  intros Hb Hv. unfold numbers. simpl.
  rewrite rows_of_map by (intros r; by apply row_update_budget_id).
  rewrite map_map. apply map_ext. intros r. by apply row_update_version_number.
Qed.

Lemma numbers_addVersion (now : Z) (bid bid' : string) (vnum : Z) (st : State)
    (nt : string) (p : bool) (db : DB) :
  numbers bid' (addVersion now bid vnum st nt p db) =
  numbers bid' db ++ (if String.eqb bid bid' then [vnum] else []).
Proof.
  unfold numbers. simpl. rewrite rows_of_app, map_app. simpl.
  destruct (String.eqb bid bid'); reflexivity.
Qed.

Lemma numbers_saveBudget (now : Z) (budget : Budget) (db : DB) (bid' : string) :
  is_Some (budgets db !! id budget) ->
  numbers bid' (saveBudget now budget db)
  = if String.eqb bid' (id budget) then [] else numbers bid' db.
Proof.
  intros Hsome. unfold numbers.
  destruct (String.eqb_spec bid' (id budget)) as [->|Hne].
  - by rewrite saveBudget_rows_same.
  - by rewrite saveBudget_rows_other.
Qed.

(** The version statement of an update keeps the numbers or appends
    count + 1. *)
Lemma writeVersion_numbers (now : Z) (bid : string) (data : UpdateBody) (db : DB)
    (budget : Budget) (lastVersion : Version) :
  Inv db -> loadBudget db bid = Some budget ->
  let db1 := writeVersion now bid data (length (versions budget)) lastVersion db in
  Inv db1 /\ budgets db1 = budgets db /\
  (kept bid db db1 \/ appended bid db db1) /\
  (forall bid', bid' <> bid -> kept bid' db db1).
Proof.
  intros HInv Hload db1. subst db1.
  pose proof (loadBudget_Some _ _ _ Hload) as (row & Hrow & _).
  pose proof (loadBudget_versions _ _ _ HInv Hload) as Hv.
  unfold writeVersion, kept, appended.
  destruct (consolidates now data lastVersion).
  - split; [apply Inv_update_versions; auto|]. split; [reflexivity|].
    split; [left|intros bid' _]; by apply numbers_update_versions.
  - rewrite Hv, length_map.
    split; [apply Inv_addVersion; eauto|]. split; [reflexivity|]. split.
    + right. rewrite numbers_addVersion, String.eqb_refl.
      unfold numbers. by rewrite length_map.
    + intros bid' Hne. rewrite numbers_addVersion.
      destruct (String.eqb_spec bid bid'); [congruence | apply app_nil_r].
Qed.

Lemma customizeBudget_reseeds (now : Z) (bid : string) (data : CustomizeBody) (db : DB)
    (budget : Budget) :
  loadBudget db bid = Some budget ->
  option_map versions (loadBudget (customizeBudget now true bid data db).1 bid) =
    Some [ {| version := 1; timestamp := now; v_state := currentState budget;
              v_note := "Customization applied"; pinned := true |} ].
Proof.
  intros Hload. pose proof (loadBudget_Some _ _ _ Hload) as (row & Hrow & _).
  unfold customizeBudget. simpl negb. cbn iota. rewrite Hload. cbn [fst].
  set (new_row := {| budget_id := bid; version_number := 1; created_at := now;
                     state := currentState budget; note := "Customization applied";
                     is_pinned := true |}).
  rewrite (loaded_versions _ bid [new_row]).
  - reflexivity.
  - simpl. rewrite lookup_alter_is_Some. eauto.
  - simpl. rewrite rows_of_app, rows_of_delete_same. simpl.
    rewrite String.eqb_refl. reflexivity.
  - simpl. auto.
Qed.

Lemma createBudget_seeds (now : Z) (codes : list string) (st : State) (db db' : DB)
    (bid : string) :
  Inv db -> createBudget now codes st db = Some (db', Created bid) ->
  option_map versions (loadBudget db' bid) =
    Some [ {| version := 1; timestamp := now; v_state := st;
              v_note := "Initial budget"; pinned := true |} ].
Proof.
  intros HInv. unfold createBudget.
  destruct (fresh_code codes db) as [c|] eqn:Hfresh; [|discriminate].
  intros [= <- ->]. apply fresh_code_None in Hfresh.
  set (new_row := {| budget_id := bid; version_number := 1; created_at := now;
                     state := st; note := "Initial budget"; is_pinned := true |}).
  rewrite (loaded_versions _ bid [new_row]).
  - reflexivity.
  - simpl. rewrite lookup_insert_eq. eauto.
  - simpl. rewrite Hfresh, rows_of_app, (rows_of_fresh db bid HInv Hfresh). simpl.
    rewrite String.eqb_refl. reflexivity.
  - simpl. auto.
Qed.

Lemma createBudget_numbers (now : Z) (codes : list string) (st : State) (db db1 : DB)
    (r : Response) :
  Inv db -> createBudget now codes st db = Some (db1, r) ->
  exists bid, r = Created bid /\ numbers bid db = [] /\
    rows_of bid (budget_versions db1) =
      [ {| budget_id := bid; version_number := 1; created_at := now;
           state := st; note := "Initial budget"; is_pinned := true |} ] /\
    forall bid', bid' <> bid -> kept bid' db db1.
Proof.
  intros HInv. unfold createBudget.
  destruct (fresh_code codes db) as [bid|] eqn:Hfresh; [|discriminate].
  intros [= <- <-]. apply fresh_code_None in Hfresh.
  pose proof (rows_of_fresh db bid HInv Hfresh) as Hrows.
  exists bid. split; [reflexivity|]. split; [unfold numbers; by rewrite Hrows|].
  split.
  - simpl. rewrite Hfresh, rows_of_app, Hrows. simpl.
    by rewrite String.eqb_refl.
  - intros bid' Hne. unfold kept. rewrite numbers_addVersion.
    unfold numbers. simpl. rewrite Hfresh.
    destruct (String.eqb_spec bid bid'); [congruence | apply app_nil_r].
Qed.

Lemma updateBudget_numbers (now : Z) (bid : string) (data : UpdateBody) (db : DB) :
  Inv db ->
  let db2 := (updateBudget now bid data db).1 in
  (forall bid', bid' <> bid -> kept bid' db db2) /\
  (kept bid db db2 \/
   exists budget lastVersion,
     loadBudget db bid = Some budget /\ last (versions budget) = Some lastVersion /\
     let db1 := writeVersion now bid data (length (versions budget)) lastVersion db in
     Inv db1 /\ (kept bid db db1 \/ appended bid db db1) /\
     db2 = saveBudget now (with_currentState budget (body_state data)) db1 /\
     numbers bid db2 = []).
Proof.
  intros HInv db2. subst db2. unfold updateBudget, kept.
  destruct (loadBudget db bid) as [budget|] eqn:Hload; [|by split; [|left]].
  destruct (last (versions budget)) as [lastVersion|] eqn:Hlast; [|by split; [|left]].
  destruct (String.eqb _ _).
  - destruct (_ && _); [|by split; [|left]].
    cbn [fst]. split; [intros bid' _|left]; by apply numbers_update_versions.
  - cbn [fst].
    destruct (writeVersion_numbers now bid data db budget lastVersion HInv Hload)
      as (HInv1 & Hbud & Hbid & Hother).
    pose proof (loadBudget_Some _ _ _ Hload) as (row & Hrow & _ & _ & Hid).
    set (db1 := writeVersion now bid data (length (versions budget)) lastVersion db) in *.
    assert (Hsome : is_Some (budgets db1
                               !! id (with_currentState budget (body_state data)))).
    { simpl. rewrite Hid, Hbud, Hrow. eauto. }
    split.
    + intros bid' Hne. rewrite (numbers_saveBudget _ _ _ _ Hsome). simpl. rewrite Hid.
      destruct (String.eqb_spec bid' bid); [contradiction|]. by apply Hother.
    + right. exists budget, lastVersion.
      split; [reflexivity|]. split; [exact Hlast|]. cbv zeta. fold db1.
      split; [exact HInv1|]. split; [exact Hbid|]. split; [reflexivity|].
      rewrite (numbers_saveBudget _ _ _ _ Hsome). simpl. rewrite Hid.
      by rewrite String.eqb_refl.
Qed.

Lemma restoreVersion_numbers (now : Z) (authorized : bool) (bid : string)
    (versionNum : Z) (db : DB) :
  Inv db ->
  let db1 := (restoreVersion now authorized bid versionNum db).1 in
  (forall bid', bid' <> bid -> kept bid' db db1) /\
  (kept bid db db1 \/ appended bid db db1).
Proof.
  intros HInv db1. subst db1. unfold restoreVersion, kept, appended.
  destruct authorized; [|by split; [|left]]. simpl negb. cbn iota.
  destruct (loadBudget db bid) as [budget|] eqn:Hload; [|by split; [|left]].
  destruct (find _ _) as [target|]; [|by split; [|left]].
  pose proof (loadBudget_versions _ _ _ HInv Hload) as Hv.
  cbn [fst]. rewrite Hv, length_map. split.
  - intros bid' Hne.
    change (numbers bid' (addVersion now bid
              (Z.of_nat (length (rows_of bid (budget_versions db))) + 1)
              (v_state target) ("Restored to version " +:+ pretty versionNum) true db)
            = numbers bid' db).
    rewrite numbers_addVersion.
    destruct (String.eqb_spec bid bid'); [congruence | apply app_nil_r].
  - right.
    change (numbers bid (addVersion now bid
              (Z.of_nat (length (rows_of bid (budget_versions db))) + 1)
              (v_state target) ("Restored to version " +:+ pretty versionNum) true db)
            = numbers bid db ++ [Z.of_nat (length (numbers bid db)) + 1]).
    rewrite numbers_addVersion, String.eqb_refl. unfold numbers. by rewrite length_map.
Qed.

Lemma customizeBudget_numbers (now : Z) (authorized : bool) (bid : string)
    (data : CustomizeBody) (db : DB) :
  let db1 := (customizeBudget now authorized bid data db).1 in
  (forall bid', bid' <> bid -> kept bid' db db1) /\
  (db1 = db \/
   exists st,
     rows_of bid (budget_versions db1) =
       [ {| budget_id := bid; version_number := 1; created_at := now;
            state := st; note := "Customization applied"; is_pinned := true |} ]).
Proof.
  intros db1. subst db1. unfold customizeBudget, kept.
  destruct authorized; [|by split; [|left]]. simpl negb. cbn iota.
  destruct (loadBudget db bid) as [budget|] eqn:Hload; [|by split; [|left]].
  cbn [fst]. split.
  - intros bid' Hne. rewrite numbers_addVersion. unfold numbers. cbn [budget_versions].
    rewrite rows_of_delete_other by exact Hne.
    destruct (String.eqb_spec bid bid'); [congruence | apply app_nil_r].
  - right. exists (currentState budget). unfold addVersion. cbn [budget_versions].
    rewrite rows_of_app, rows_of_delete_same. simpl. by rewrite String.eqb_refl.
Qed.

(** C5.  Every request to create, update, restore or customize a budget
    keeps the version numbers of every budget equal to 1, 2, ..., n in
    order, hence 1-based and strictly increasing: the i-th loaded version
    (from 0) has number i + 1.  Each route is stated by itself, and every
    route leaves the other budgets' numbers alone.  Create returns once
    an unused code is drawn, for a budget that had no version, and seeds
    the one pinned version 1.  The version statement of an update keeps
    the numbers or appends count + 1, and nothing else; the [saveBudget]
    that follows it then removes the budget's rows.  A restore keeps the
    numbers or appends count + 1.  A customization is refused or
    replaces the whole list by one pinned version numbered 1. *)
Theorem version_numbers_invariant (db db' : DB) (HInv : Inv db) (Hstep : step db db') :
  Inv db' /\
  (forall bid budget i v,
     loadBudget db' bid = Some budget -> versions budget !! i = Some v ->
     version v = Z.of_nat i + 1) /\
  (forall now codes st,
     (exists c, In c codes /\ budgets db !! c = None) ->
     exists db1 bid, createBudget now codes st db = Some (db1, Created bid)) /\
  (forall now codes st db1 r,
     createBudget now codes st db = Some (db1, r) ->
     exists bid, r = Created bid /\ numbers bid db = [] /\
       rows_of bid (budget_versions db1) =
         [ {| budget_id := bid; version_number := 1; created_at := now;
              state := st; note := "Initial budget"; is_pinned := true |} ] /\
       forall bid', bid' <> bid -> kept bid' db db1) /\
  (forall now bid data,
     let db2 := (updateBudget now bid data db).1 in
     (forall bid', bid' <> bid -> kept bid' db db2) /\
     (kept bid db db2 \/
      exists budget lastVersion,
        loadBudget db bid = Some budget /\ last (versions budget) = Some lastVersion /\
        let db1 := writeVersion now bid data (length (versions budget)) lastVersion db in
        Inv db1 /\ (kept bid db db1 \/ appended bid db db1) /\
        db2 = saveBudget now (with_currentState budget (body_state data)) db1 /\
        numbers bid db2 = [])) /\
  (forall now authorized bid versionNum,
     let db1 := (restoreVersion now authorized bid versionNum db).1 in
     (forall bid', bid' <> bid -> kept bid' db db1) /\
     (kept bid db db1 \/ appended bid db db1)) /\
  (forall now authorized bid data,
     let db1 := (customizeBudget now authorized bid data db).1 in
     (forall bid', bid' <> bid -> kept bid' db db1) /\
     (db1 = db \/
      exists st,
        rows_of bid (budget_versions db1) =
          [ {| budget_id := bid; version_number := 1; created_at := now;
               state := st; note := "Customization applied"; is_pinned := true |} ])) /\
  (forall now bid data budget,
     loadBudget db bid = Some budget ->
     option_map versions (loadBudget (customizeBudget now true bid data db).1 bid) =
       Some [ {| version := 1; timestamp := now; v_state := currentState budget;
                 v_note := "Customization applied"; pinned := true |} ]).
Proof.
  pose proof (Inv_step db db' HInv Hstep) as HInv'.
  split; [exact HInv'|]. split; [|split; [|split; [|split; [|split; [|split]]]]].
  - intros bid budget i v Hload Hi.
    rewrite (loadBudget_versions _ _ _ HInv' Hload) in Hi.
    rewrite list_lookup_fmap in Hi.
    destruct (rows_of bid (budget_versions db') !! i) as [r|] eqn:Hr; [|discriminate].
    injection Hi as <-. simpl.
    rewrite (numbered_from_lookup 1 (rows_of bid (budget_versions db')) i r);
      [lia | apply HInv' | exact Hr].
  - intros now codes st Hfree. unfold createBudget.
    destruct (fresh_code_Some codes db Hfree) as [bid ->]. eauto.
  - intros now codes st db1 r. by apply createBudget_numbers.
  - intros now bid data. by apply updateBudget_numbers.
  - intros now authorized bid versionNum. by apply restoreVersion_numbers.
  - intros now authorized bid data. apply customizeBudget_numbers.
  - intros now bid data budget. apply customizeBudget_reseeds.
Qed.

Lemma Inv_db_created : Inv db_created.
Proof.
  apply (Inv_step empty_db); [apply Inv_empty|].
  apply (step_create 1000 ["k7m2p9qx"] state_blank empty_db db_created
           (Created "k7m2p9qx")).
  vm_compute. reflexivity.
Qed.

Lemma Inv_db_saved : Inv db_saved.
Proof.
  split.
  - intros bid. unfold db_saved, rows_of. cbn -[String.eqb].
    destruct (String.eqb "k7m2p9qx" bid); cbn; repeat split.
  - intros r [<-|[<-|[]]]; simpl; rewrite lookup_insert_eq; eauto.
Qed.

Lemma string_neq_by_eqb (a b : string) : String.eqb a b = false -> a <> b.
Proof. intros H. by apply String.eqb_neq. Qed.

(** C2.  A budget is created and then saved once with another state.
    The route answers with a version count of 2, but [saveBudget]'s
    REPLACE has removed the budget's version rows, the new one included:
    the budget loads with the new current state and no version at all,
    and the next save fails. *)
Theorem updateBudget_replace_discards_versions :
  let saved := updateBudget 2000000 "k7m2p9qx" autosave_good db_created in
  option_map versions (loadBudget db_created "k7m2p9qx") = Some [version_initial] /\
  saved.2 = Updated 2 2000000 false /\
  budget_versions saved.1 = [] /\
  option_map versions (loadBudget saved.1 "k7m2p9qx") = Some [] /\
  option_map currentState (loadBudget saved.1 "k7m2p9qx") = Some state_good /\
  updateBudget 4000000 "k7m2p9qx" autosave_best saved.1
  = (saved.1, ServerError "Failed to update budget").
Proof. vm_compute. repeat split. Qed.

Lemma updateBudget_same_state_witness :
  length (budget_versions (updateBudget 2000500 "k7m2p9qx" pin_good db_saved).1) = 2%nat /\
  option_map versions
    (loadBudget (updateBudget 2000500 "k7m2p9qx" pin_good db_saved).1 "k7m2p9qx")
  = Some [ version_initial;
           {| version := 2; timestamp := 2000000; v_state := state_good;
              v_note := "Sent to client"; pinned := true |} ].
Proof.
  assert (Hload : loadBudget db_saved "k7m2p9qx" = Some budget_saved)
    by (vm_compute; reflexivity).
  assert (Hsame : normalizeState (v_state version_autosave)
                  = normalizeState (body_state pin_good))
    by (vm_compute; reflexivity).
  destruct (updateBudget_same_state 2000500 "k7m2p9qx" pin_good db_saved
              budget_saved [version_initial] version_autosave
              Inv_db_saved Hload eq_refl Hsame) as (Hlen & _ & _ & Hv & _).
  split; [exact Hlen | exact Hv].
Defined.

Lemma restoreVersion_appends_witness :
  option_map versions
    (loadBudget (restoreVersion 5000000 true "k7m2p9qx" 1 db_saved).1 "k7m2p9qx")
  = Some [ version_initial; version_autosave;
           {| version := 3; timestamp := 5000000; v_state := state_blank;
              v_note := "Restored to version 1"; pinned := true |} ].
Proof.
  assert (Hload : loadBudget db_saved "k7m2p9qx" = Some budget_saved)
    by (vm_compute; reflexivity).
  assert (Hin : In version_initial (versions budget_saved)) by (simpl; auto).
  destruct (restoreVersion_appends 5000000 "k7m2p9qx" db_saved budget_saved
              version_initial Inv_db_saved Hload Hin) as (_ & Hv & _).
  exact Hv.
Defined.

Lemma version_numbers_invariant_witness :
  Inv (restoreVersion 3000000 true "k7m2p9qx" 1 db_saved).1 /\
  (kept "k7m2p9qx" db_saved (updateBudget 2060000 "k7m2p9qx" autosave_best db_saved).1
   \/ numbers "k7m2p9qx" (updateBudget 2060000 "k7m2p9qx" autosave_best db_saved).1 = []).
Proof.
  destruct (version_numbers_invariant db_saved
              (restoreVersion 3000000 true "k7m2p9qx" 1 db_saved).1 Inv_db_saved
              (step_restore 3000000 true "k7m2p9qx" 1 db_saved))
    as (HInv & _ & _ & _ & Hupdate & _).
  split; [exact HInv|].
  destruct (Hupdate 2060000 "k7m2p9qx" autosave_best) as [_ [Hkept|Hgone]].
  - left. exact Hkept.
  - right. destruct Hgone as (budget & lastVersion & _ & _ & H).
    cbv zeta in H. tauto.
Defined.

End VersionStoreProperties.

(** ** Pricing: size floor, rounding error and monotonicity *)

(** ** Further properties of the pricing engine *)

Section PricingEdgeCases.

Import Pricing PricingTerms.

Lemma Math_max_floor (sqft : Q) : sqft <= 2500 -> Math_max sqft 2500 = 2500.
Proof.
  intros H. unfold Math_max.
  destruct (Qle_bool sqft 2500) eqn:E; [reflexivity|].
  apply Qle_bool_iff in H. congruence.
Qed.

(** X1.  Every home of at most 2500 sqft gets the multiplier of a 2500
    sqft home, whatever the scale factor. *)
Theorem getSizeMultiplier_below_floor (sqft s : Q) (Hlow : sqft <= 2500) :
  getSizeMultiplier sqft s = getSizeMultiplier 2500 s.
Proof.
  unfold getSizeMultiplier. destruct (is_zero s); [reflexivity|].
  rewrite (Math_max_floor sqft Hlow), (Math_max_floor 2500) by lra. reflexivity.
Qed.

Lemma getSizeMultiplier_below_floor_witness :
  getSizeMultiplier 1800 (7 # 10) = getSizeMultiplier 2500 (7 # 10).
Proof.
  apply getSizeMultiplier_below_floor. unfold Qle. simpl. lia.
Defined.

Lemma Math_round_comp (x y : Q) : x == y -> Math_round x = Math_round y.
Proof. intros H. unfold Math_round. by rewrite H. Qed.

Lemma Math_round_mono (x y : Q) : x <= y -> Math_round x <= Math_round y.
Proof.
  intros H. unfold Math_round. rewrite <- Zle_Qle. apply Qfloor_resp_le. lra.
Qed.

Lemma Math_round_integer (k : Z) : Math_round (inject_Z k) = inject_Z k.
Proof.
  unfold Math_round. f_equal.
  pose proof (Qfloor_le (inject_Z k + (1 # 2))) as Hle.
  pose proof (Qlt_floor (inject_Z k + (1 # 2))) as Hlt.
  rewrite inject_Z_plus in Hlt. change (inject_Z 1) with 1 in Hlt.
  set (f := Qfloor (inject_Z k + (1 # 2))) in *.
  assert (H1 : inject_Z f < inject_Z (k + 1)).
  { rewrite inject_Z_plus. change (inject_Z 1) with 1. lra. }
  assert (H2 : inject_Z (k + -1) < inject_Z f).
  { rewrite inject_Z_plus. change (inject_Z (-1)) with (-1 # 1). lra. }
  rewrite <- Zlt_Qlt in H1, H2. lia.
Qed.

Lemma getSizeMultiplier_mono_nonneg (s a b : Q) :
  0 <= s -> a <= b -> getSizeMultiplier a s <= getSizeMultiplier b s.
Proof.
  intros Hs Hab. unfold getSizeMultiplier.
  destruct (is_zero s); [lra|].
  apply linear_le; [by apply Math_max_mono | exact Hs].
Qed.

(** The multiplier that [getCategoryPrice] applies to a tier that exists
    in a category that is not customized. *)
Lemma getCategoryPrice_scaled (cat : Category) (t : string) (tierData : TierOffering)
    (hs : Q) :
  t <> EmptyString -> tiers cat !! t = Some tierData -> isCustomized cat = false ->
  getCategoryPrice cat (Some t) hs =
  Math_round (price tierData * sizeMultOf cat t tierData hs / 100) * 100.
Proof.
  intros Hne Ht Hc. unfold getCategoryPrice, sizeMultOf, scaleOf.
  rewrite Ht, Hc. destruct (String.eqb_spec t EmptyString); [contradiction|].
  reflexivity.
Qed.

(** X3.  A larger home is never cheaper: when the tier's base price and
    the scale in force are not negative, the category price does not
    decrease as the home size grows. *)
Theorem getCategoryPrice_monotone_homeSize
    (cat : Category) (tier : Selection) (a b : Q)
    (Hab : a <= b)
    (Hprice : forall t tierData, tiers cat !! t = Some tierData ->
                0 <= price tierData /\ 0 <= scaleOf cat tierData) :
  getCategoryPrice cat tier a <= getCategoryPrice cat tier b.
Proof.
  destruct tier as [t|]; [|simpl; lra].
  destruct (String.eqb_spec t EmptyString) as [->|Hne]; [simpl; lra|].
  destruct (tiers cat !! t) as [tierData|] eqn:Ht.
  - destruct (isCustomized cat) eqn:Hc.
    + unfold getCategoryPrice. rewrite Ht, Hc.
      destruct (String.eqb t EmptyString); lra.
    + rewrite !(getCategoryPrice_scaled cat t tierData _ Hne Ht Hc).
      destruct (Hprice t tierData Ht) as [Hp Hs].
      assert (Hm : sizeMultOf cat t tierData a <= sizeMultOf cat t tierData b).
      { unfold sizeMultOf. destruct (_ && _); [lra|].
        by apply getSizeMultiplier_mono_nonneg. }
      assert (Hx : price tierData * sizeMultOf cat t tierData a / 100
                   <= price tierData * sizeMultOf cat t tierData b / 100).
      { assert (0 <= price tierData * (sizeMultOf cat t tierData b
                                       - sizeMultOf cat t tierData a))
          by (apply Qmult_le_0_compat; lra).
        assert (E : price tierData * sizeMultOf cat t tierData b / 100
                    - price tierData * sizeMultOf cat t tierData a / 100
                    == price tierData * (sizeMultOf cat t tierData b
                                         - sizeMultOf cat t tierData a) * (1 # 100))
          by field.
        lra. }
      pose proof (Math_round_mono _ _ Hx). lra.
  - unfold getCategoryPrice. rewrite Ht.
    destruct (String.eqb t EmptyString); lra.
Qed.

Lemma getCategoryPrice_monotone_homeSize_witness :
  getCategoryPrice networking (Some "better") 3000
  <= getCategoryPrice networking (Some "better") 7000.
Proof.
  apply getCategoryPrice_monotone_homeSize.
  - unfold Qle. simpl. lia.
  - intros t tierData Ht. unfold networking in Ht. simpl in Ht.
    destruct (decide (t = "good")) as [->|Hg].
    + rewrite lookup_insert_eq in Ht. injection Ht as <-. vm_compute. split; discriminate.
    + rewrite lookup_insert_ne in Ht by congruence.
      destruct (decide (t = "better")) as [->|Hb].
      * rewrite lookup_insert_eq in Ht. injection Ht as <-. vm_compute. split; discriminate.
      * rewrite lookup_insert_ne, lookup_empty in Ht by congruence. discriminate.
Defined.

Lemma Math_round_hundreds (x : Q) (k : Z) :
  x == inject_Z (100 * k) -> Math_round (x / 100) * 100 == x.
Proof.
  intros Hx.
  assert (E : x / 100 == inject_Z k).
  { rewrite Hx, inject_Z_mult. change (inject_Z 100) with 100. field. }
  rewrite (Math_round_comp _ _ E), Math_round_integer, Hx, inject_Z_mult.
  change (inject_Z 100) with 100. ring.
Qed.

(** X4.  When the base price of an existing tier is a multiple of 100,
    the category price is exactly that base price in each case where no
    scaling applies: at the reference size of 4000 sqft, for a scale of
    0, and for the good tier of a category with [baseTierNoScale]. *)
Theorem getCategoryPrice_unscaled
    (cat : Category) (t : string) (tierData : TierOffering) (hs : Q)
    (Hne : t <> EmptyString)
    (Htier : tiers cat !! t = Some tierData)
    (Hround : multiple_of_100 (price tierData))
    (Hcase : hs == 4000 \/ scaleOf cat tierData == 0 \/
             (baseTierNoScale cat = true /\ t = "good")) :
  getCategoryPrice cat (Some t) hs == price tierData.
Proof.
  destruct (isCustomized cat) eqn:Hc.
  - unfold getCategoryPrice. rewrite Htier, Hc.
    destruct (String.eqb_spec t EmptyString); [contradiction | reflexivity].
  - rewrite (getCategoryPrice_scaled cat t tierData hs Hne Htier Hc).
    destruct Hround as [k Hk].
    assert (Hm : sizeMultOf cat t tierData hs == 1).
    { unfold sizeMultOf.
      destruct (baseTierNoScale cat && String.eqb t "good") eqn:Hskip; [reflexivity|].
      destruct Hcase as [Hhs|[Hs|[Hb ->]]].
      - unfold getSizeMultiplier. destruct (is_zero _); [reflexivity|].
        assert (Hmax : Math_max hs 2500 == 4000).
        { destruct (Math_max_spec hs 2500) as [[? ->]|[? ->]]; lra. }
        rewrite Hmax. field.
      - unfold getSizeMultiplier. destruct (is_zero _) eqn:Hz; [reflexivity|].
        apply Qeq_bool_iff in Hs. unfold is_zero in Hz. congruence.
      - rewrite Hb in Hskip. discriminate. }
    assert (E : price tierData * sizeMultOf cat t tierData hs / 100
                == price tierData / 100) by (rewrite Hm; field).
    rewrite (Math_round_comp _ _ E). by apply (Math_round_hundreds _ k).
Qed.

Lemma getCategoryPrice_unscaled_witness :
  getCategoryPrice prewire (Some "good") 10000 == 4200.
Proof.
  assert (Hne : "good" <> EmptyString) by discriminate.
  assert (Htier : tiers prewire !! "good"
                  = Some {| price := 4200; tier_sizeScale := None |})
    by (vm_compute; reflexivity).
  assert (Hround : multiple_of_100 (price {| price := 4200; tier_sizeScale := None |}))
    by (exists 42%Z; reflexivity).
  apply (getCategoryPrice_unscaled prewire "good" _ 10000 Hne Htier Hround).
  right. right. split; reflexivity.
Defined.

End PricingEdgeCases.

(** ** Totals: the empty budget, catalog order and the tax estimate *)

Section PricingTotals.

Import Pricing PricingTerms.






End PricingTotals.

(** ** The application's helpers against the pricing module *)

Section ApplicationHelpers.

Import Pricing PricingTerms.

Lemma getSizeMultiplier_formula (hs s : Q) :
  is_zero s = false ->
  getSizeMultiplier hs s = 1 + (Math_max hs 2500 / 4000 - 1) * s.
Proof. intros H. unfold getSizeMultiplier. rewrite H. reflexivity. Qed.

(** X8.  The main script's own [getCategoryPrice] returns the same price
    as the pricing module's for every tier and home size, provided the
    base prices of the category are multiples of 100. *)
Theorem App_getCategoryPrice_agrees (cat : Category) (tier : Selection) (hs : Q)
    (Hround : forall t tierData, tiers cat !! t = Some tierData ->
                multiple_of_100 (price tierData)) :
  App.getCategoryPrice cat tier hs == getCategoryPrice cat tier hs.
Proof.
  unfold App.getCategoryPrice, getCategoryPrice.
  destruct tier as [t|]; [|reflexivity].
  destruct (String.eqb t EmptyString); [reflexivity|].
  destruct (tiers cat !! t) as [tierData|] eqn:Ht; [|reflexivity].
  destruct (isCustomized cat); [reflexivity|].
  destruct (Hround t tierData Ht) as [k Hk].
  set (s := match tier_sizeScale tierData with Some s => s | None => sizeScale cat end).
  destruct (baseTierNoScale cat && String.eqb t "good") eqn:Hskip.
  - rewrite orb_true_r.
    assert (E : price tierData * 1 / 100 == price tierData / 100) by field.
    rewrite (Math_round_comp _ _ E). symmetry. by apply (Math_round_hundreds _ k).
  - rewrite orb_false_r. destruct (is_zero s) eqn:Hz.
    + unfold getSizeMultiplier. rewrite Hz.
      assert (E : price tierData * 1 / 100 == price tierData / 100) by field.
      rewrite (Math_round_comp _ _ E). symmetry. by apply (Math_round_hundreds _ k).
    + rewrite (getSizeMultiplier_formula hs s Hz). reflexivity.
Qed.

Lemma App_getCategoryPrice_agrees_witness :
  App.getCategoryPrice prewire (Some "good") 9000
  == getCategoryPrice prewire (Some "good") 9000.
Proof.
  apply App_getCategoryPrice_agrees.
  intros t tierData Ht. unfold prewire in Ht. simpl in Ht.
  destruct (decide (t = "good")) as [->|Hg].
  - rewrite lookup_insert_eq in Ht. injection Ht as <-. exists 42%Z. reflexivity.
  - rewrite lookup_insert_ne in Ht by congruence.
    destruct (decide (t = "best")) as [->|Hb].
    + rewrite lookup_insert_eq in Ht. injection Ht as <-. exists 99%Z. reflexivity.
    + rewrite lookup_insert_ne, lookup_empty in Ht by congruence. discriminate.
Defined.

(** X9.  [calculateCategoryPrice], which prices the summary and the
    email, agrees with [getCategoryPrice] on every category that is
    neither customized nor [baseTierNoScale], provided base prices are
    multiples of 100. *)
Theorem calculateCategoryPrice_agrees (cat : Category) (tier : Selection) (hs : Q)
    (Hplain : isCustomized cat = false)
    (Hscaled : baseTierNoScale cat = false)
    (Hround : forall t tierData, tiers cat !! t = Some tierData ->
                multiple_of_100 (price tierData)) :
  App.calculateCategoryPrice cat tier hs == getCategoryPrice cat tier hs.
Proof.
  unfold App.calculateCategoryPrice, getCategoryPrice.
  destruct tier as [t|]; [|reflexivity].
  destruct (String.eqb t EmptyString); [reflexivity|].
  destruct (tiers cat !! t) as [tierData|] eqn:Ht; [|reflexivity].
  rewrite Hplain, Hscaled. simpl andb. cbn iota.
  destruct (Hround t tierData Ht) as [k Hk].
  set (s := match tier_sizeScale tierData with Some s => s | None => sizeScale cat end).
  destruct (is_zero s) eqn:Hz.
  - unfold getSizeMultiplier. rewrite Hz.
    assert (E : price tierData * 1 / 100 == price tierData / 100) by field.
    rewrite (Math_round_comp _ _ E). symmetry. by apply (Math_round_hundreds _ k).
  - rewrite (getSizeMultiplier_formula hs s Hz). reflexivity.
Qed.

Lemma calculateCategoryPrice_agrees_witness :
  App.calculateCategoryPrice networking (Some "better") 9000
  == getCategoryPrice networking (Some "better") 9000.
Proof.
  apply calculateCategoryPrice_agrees; try reflexivity.
  intros t tierData Ht. unfold networking in Ht. simpl in Ht.
  destruct (decide (t = "good")) as [->|Hg].
  - rewrite lookup_insert_eq in Ht. injection Ht as <-. exists 57%Z. reflexivity.
  - rewrite lookup_insert_ne in Ht by congruence.
    destruct (decide (t = "better")) as [->|Hb].
    + rewrite lookup_insert_eq in Ht. injection Ht as <-. exists 97%Z. reflexivity.
    + rewrite lookup_insert_ne, lookup_empty in Ht by congruence. discriminate.
Defined.

(** X10.  The main script's own [getExtraPrice] and the pricing module's
    return the same price for every extra and home size, a scale of 0
    included. *)
Theorem App_getExtraPrice_agrees (extra : Extra) (hs : Q) :
  App.getExtraPrice extra hs = getExtraPrice extra hs.
Proof.
  unfold App.getExtraPrice, getExtraPrice.
  destruct (extra_sizeScale extra) as [s|]; [|reflexivity].
  cbv zeta. f_equal. apply Math_round_comp.
  unfold getSizeMultiplier. destruct (is_zero s) eqn:Hz; [|reflexivity].
  apply is_zero_true in Hz. rewrite Hz. field.
Qed.

(** X11.  [getDominantTier] returns the empty string exactly when no
    selection value is one of the four tier names; otherwise it returns
    one of the four labels. *)
Theorem getDominantTier_empty_iff (sels : Selections) :
  (getDominantTier sels = EmptyString <->
   forall t, In t tier_names -> count_tier t sels = O) /\
  (getDominantTier sels = EmptyString \/
   exists t, In t tier_names /\ getDominantTier sels = label_of t).
Proof.
  rewrite getDominantTier_formula. unfold dominant_label.
  set (g := count_tier "good" sels). set (s := count_tier "standard" sels).
  set (b := count_tier "better" sels). set (x := count_tier "best" sels).
  assert (Hnames : (forall t, In t tier_names -> count_tier t sels = O) <->
                   g = O /\ s = O /\ b = O /\ x = O).
  { split.
    - intros H. repeat split; apply H; simpl; tauto.
    - intros (Hg & Hs & Hb & Hx) t [<-|[<-|[<-|[<-|[]]]]]; assumption. }
  rewrite Hnames.
  destruct (Nat.eqb_spec (Nat.max g (Nat.max s (Nat.max b x))) 0) as [H0|H0].
  - split; [|left; reflexivity]. split; [lia | reflexivity].
  - split.
    + split; [|lia].
      repeat (match goal with |- context [if ?c then _ else _] => destruct c end);
        discriminate.
    + right.
      destruct (Nat.eqb g _); [exists "good"; simpl; tauto|].
      destruct (Nat.eqb s _); [exists "standard"; simpl; tauto|].
      destruct (Nat.eqb b _); [exists "better"; simpl; tauto|].
      exists "best". simpl; tauto.
Qed.

End ApplicationHelpers.

(** ** Selection rules *)

(** ** Properties of the application's state operations *)

Section ApplicationState.

Import Pricing PricingTerms App.

Lemma obj_get_set_eq {V} (o : list (string * V)) (k : string) (v : V) :
  obj_get (obj_set o k v) k = Some v.
Proof.
  induction o as [|[k' v'] o IH]; simpl.
  - by rewrite String.eqb_refl.
  - destruct (String.eqb k' k) eqn:E; simpl; rewrite E; [reflexivity | exact IH].
Qed.

Lemma obj_get_set_ne {V} (o : list (string * V)) (k k' : string) (v : V) :
  k <> k' -> obj_get (obj_set o k v) k' = obj_get o k'.
Proof.
  intros Hne. induction o as [|[k0 v0] o IH]; simpl.
  - destruct (String.eqb_spec k k'); [contradiction | reflexivity].
  - destruct (String.eqb_spec k0 k) as [->|Hk]; simpl.
    + destruct (String.eqb_spec k k'); [contradiction | reflexivity].
    + destruct (String.eqb k0 k'); [reflexivity | exact IH].
Qed.

Ltac obj_simpl :=
  repeat first
    [ rewrite obj_get_set_eq
    | rewrite obj_get_set_ne by (congruence || discriminate) ].

(** X12.  [selectTier] stores the chosen tier for the chosen category, and
    apart from that category it only ever touches the four linked
    entries lighting, lighting-centralized, lighting-designer and
    invisible-speakers. *)
Theorem selectTier_sets (catId : string) (tier : Selection) (sels : Selections) :
  obj_get (selectTier catId tier sels) catId = Some tier /\
  (forall k, k <> catId -> ~ In k linked_categories ->
     obj_get (selectTier catId tier sels) k = obj_get sels k).
Proof.
  unfold selectTier. split.
  - destruct tier as [t|].
    + destruct (String.eqb_spec catId "lighting") as [->|Hl].
      * destruct (_ && _); obj_simpl; reflexivity.
      * destruct (String.eqb_spec catId "lighting-centralized") as [->|Hc];
          obj_simpl; reflexivity.
    + destruct (String.eqb_spec catId "audio") as [->|Ha]; obj_simpl; reflexivity.
  - intros k Hk Hnot. unfold linked_categories in Hnot. simpl in Hnot.
    assert (k <> "lighting" /\ k <> "lighting-centralized" /\
            k <> "lighting-designer" /\ k <> "invisible-speakers")
      as (H1 & H2 & H3 & H4) by (repeat split; intros ->; tauto).
    destruct tier as [t|].
    + destruct (String.eqb catId "lighting").
      * destruct (_ && _); obj_simpl; reflexivity.
      * destruct (String.eqb catId "lighting-centralized"); obj_simpl; reflexivity.
    + destruct (String.eqb catId "audio"); obj_simpl; reflexivity.
Qed.

(** X13.  After any [selectTier], lighting and lighting-centralized are
    not both selected unless they already were and the call touched
    neither; selecting the good lighting tier clears lighting-designer,
    and deselecting audio clears invisible-speakers. *)
Theorem selectTier_rules (catId : string) (tier : Selection) (sels : Selections) :
  (both_lighting (selectTier catId tier sels) = true ->
     both_lighting sels = true /\ catId <> "lighting" /\ catId <> "lighting-centralized") /\
  is_truthy (obj_get (selectTier "lighting" (Some "good") sels) "lighting-designer") = false /\
  is_truthy (obj_get (selectTier "audio" None sels) "invisible-speakers") = false.
Proof.
  split; [|split].
  - unfold both_lighting, selectTier.
    destruct tier as [t|].
    + destruct (String.eqb_spec catId "lighting") as [->|Hl].
      * match goal with |- context [if ?c then _ else _] => destruct c end;
          obj_simpl; simpl; rewrite ?andb_false_r; discriminate.
      * destruct (String.eqb_spec catId "lighting-centralized") as [->|Hc].
        -- obj_simpl. simpl. discriminate.
        -- obj_simpl. auto.
    + destruct (String.eqb_spec catId "lighting") as [->|Hl].
      * destruct (String.eqb_spec "lighting" "audio"); [discriminate|].
        obj_simpl. simpl. discriminate.
      * destruct (String.eqb_spec catId "lighting-centralized") as [->|Hc].
        -- destruct (String.eqb_spec "lighting-centralized" "audio"); [discriminate|].
           obj_simpl. simpl. rewrite andb_false_r. discriminate.
        -- destruct (String.eqb_spec catId "audio") as [->|Ha]; obj_simpl; auto.
  - unfold selectTier. cbn [String.eqb Ascii.eqb Bool.eqb andb].
    destruct (is_truthy
                (obj_get (obj_set (obj_set sels "lighting" (Some "good"))
                            "lighting-centralized" None) "lighting-designer")) eqn:E.
    + obj_simpl. reflexivity.
    + exact E.
  - unfold selectTier. cbn [String.eqb Ascii.eqb Bool.eqb].
    obj_simpl. reflexivity.
Qed.

End ApplicationState.

(** ** State initialisation *)

Section ApplicationInit.

Import Pricing PricingTerms App.

Lemma extends_refl (st : AppState) : extends st st.
Proof. unfold extends. repeat split; auto. Qed.

Lemma extends_trans (a b c : AppState) : extends a b -> extends b c -> extends a c.
Proof.
  intros (A1 & B1 & C1 & D1 & E1 & F1 & G1) (A2 & B2 & C2 & D2 & E2 & F2 & G2).
  unfold extends. repeat split; intros; try congruence; eauto.
Qed.

Lemma has_property_false {V} (own : option V) (k : string) :
  has_property own k = false -> own = None /\ inherited k = false.
Proof.
  unfold has_property, read_of. destruct own; [discriminate |].
  destruct (inherited k); [discriminate | auto].
Qed.

Lemma has_property_own {V} (own : option V) (k : string) :
  inherited k = false -> has_property own k = true -> is_Some own.
Proof.
  unfold has_property, read_of. intros Hk. rewrite Hk.
  destruct own; [eauto | discriminate].
Qed.

Lemma extends_initCategory (st : AppState) (c : Category) :
  extends st (initCategory st c).
Proof.
  unfold extends, initCategory. simpl.
  destruct (has_property (obj_get (st_selections st) (cat_id c)) (cat_id c)) eqn:Hown;
  destruct (has_property (st_catMods st !! cat_id c) (cat_id c)) eqn:Hmod;
  try (apply has_property_false in Hown as [Hown _]);
  try (apply has_property_false in Hmod as [Hmod _]);
  repeat split; auto; intros.
  all: try (destruct (String.eqb_spec (cat_id c) k) as [<-|Hne];
            [ rewrite ?obj_get_set_eq; try congruence;
              rewrite Hown; reflexivity
            | by rewrite obj_get_set_ne ]).
  all: try (destruct (decide (cat_id c = k)) as [<-|Hne];
            [ rewrite ?lookup_insert_eq; try congruence; rewrite Hmod; reflexivity
            | by rewrite lookup_insert_ne ]).
Qed.

Lemma extends_initExtra (st : AppState) (e : ExtraItem) : extends st (initExtra st e).
Proof.
  unfold extends, initExtra. simpl. repeat split; auto.
  intros k b Hk.
  destruct (has_property (st_extras st !! extra_id (item e)) (extra_id (item e))) eqn:He;
    [exact Hk |].
  apply has_property_false in He as [He _].
  destruct (decide (extra_id (item e) = k)) as [<-|Hne]; [congruence|].
  by rewrite lookup_insert_ne.
Qed.

Lemma extends_fold_category (cats : list Category) (st : AppState) :
  extends st (fold_left initCategory cats st).
Proof.
  revert st. induction cats as [|c cats IH]; intros st; simpl.
  - apply extends_refl.
  - eapply extends_trans; [apply extends_initCategory | apply IH].
Qed.

Lemma extends_fold_extra (es : list ExtraItem) (st : AppState) :
  extends st (fold_left initExtra es st).
Proof.
  revert st. induction es as [|e es IH]; intros st; simpl.
  - apply extends_refl.
  - eapply extends_trans; [apply extends_initExtra | apply IH].
Qed.

Lemma initCategory_covers (st : AppState) (c : Category) :
  inherited (cat_id c) = false ->
  (exists v, obj_get (st_selections (initCategory st c)) (cat_id c) = Some v) /\
  is_Some (st_catMods (initCategory st c) !! cat_id c).
Proof.
  intros Hk. unfold initCategory. simpl. split.
  - destruct (has_property (obj_get (st_selections st) (cat_id c)) (cat_id c)) eqn:E.
    + destruct (has_property_own _ _ Hk E) as [v Hv]. eauto.
    + rewrite obj_get_set_eq. eauto.
  - destruct (has_property (st_catMods st !! cat_id c) (cat_id c)) eqn:E.
    + exact (has_property_own _ _ Hk E).
    + rewrite lookup_insert_eq. eauto.
Qed.

Lemma fold_category_covers (cats : list Category) (st : AppState) (c : Category) :
  In c cats -> inherited (cat_id c) = false ->
  (exists v, obj_get (st_selections (fold_left initCategory cats st)) (cat_id c) = Some v) /\
  is_Some (st_catMods (fold_left initCategory cats st) !! cat_id c).
Proof.
  revert st. induction cats as [|c' cats IH]; intros st; simpl; [tauto|].
  intros [->|Hin] Hk; [|by apply IH].
  destruct (initCategory_covers st c Hk) as [[v Hv] [m Hm]].
  destruct (extends_fold_category cats (initCategory st c)) as (A & _ & C & _).
  split; [exists v; by apply A | exists m; by apply C].
Qed.

Lemma fold_extra_covers (es : list ExtraItem) (st : AppState) (e : ExtraItem) :
  In e es -> inherited (extra_id (item e)) = false ->
  is_Some (st_extras (fold_left initExtra es st) !! extra_id (item e)).
Proof.
  revert st. induction es as [|e' es IH]; intros st; simpl; [tauto|].
  intros [->|Hin] Hk; [|by apply IH].
  destruct (extends_fold_extra es (initExtra st e)) as (_ & _ & _ & _ & E & _).
  assert (H : is_Some (st_extras (initExtra st e) !! extra_id (item e))).
  { unfold initExtra. simpl.
    destruct (has_property (st_extras st !! extra_id (item e)) (extra_id (item e))) eqn:He.
    - exact (has_property_own _ _ Hk He).
    - rewrite lookup_insert_eq. eauto. }
  destruct H as [b Hb]. exists b. by apply E.
Qed.

(** An inherited name is never given an entry. *)
Lemma initCategory_inherited (st : AppState) (c : Category) (k : string) :
  inherited k = true ->
  obj_get (st_selections (initCategory st c)) k = obj_get (st_selections st) k /\
  st_catMods (initCategory st c) !! k = st_catMods st !! k.
Proof.
  intros Hk. unfold initCategory. simpl. split.
  - destruct (has_property (obj_get (st_selections st) (cat_id c)) (cat_id c)) eqn:E;
      [reflexivity |].
    apply has_property_false in E as [_ E].
    rewrite obj_get_set_ne; [reflexivity | congruence].
  - destruct (has_property (st_catMods st !! cat_id c) (cat_id c)) eqn:E;
      [reflexivity |].
    apply has_property_false in E as [_ E].
    rewrite lookup_insert_ne; [reflexivity | congruence].
Qed.

Lemma initExtra_inherited (st : AppState) (e : ExtraItem) (k : string) :
  inherited k = true ->
  st_extras (initExtra st e) !! k = st_extras st !! k /\
  st_selections (initExtra st e) = st_selections st /\
  st_catMods (initExtra st e) = st_catMods st.
Proof.
  intros Hk. unfold initExtra. simpl. repeat split.
  destruct (has_property (st_extras st !! extra_id (item e)) (extra_id (item e))) eqn:E;
    [reflexivity |].
  apply has_property_false in E as [_ E].
  rewrite lookup_insert_ne; [reflexivity | congruence].
Qed.

Lemma fold_category_inherited (cats : list Category) (st : AppState) (k : string) :
  inherited k = true ->
  obj_get (st_selections (fold_left initCategory cats st)) k = obj_get (st_selections st) k /\
  st_catMods (fold_left initCategory cats st) !! k = st_catMods st !! k /\
  st_extras (fold_left initCategory cats st) = st_extras st.
Proof.
  intros Hk. revert st. induction cats as [|c cats IH]; intros st; simpl; [auto |].
  destruct (IH (initCategory st c)) as (A & B & C).
  destruct (initCategory_inherited st c k Hk) as [A' B'].
  repeat split; [congruence | congruence | rewrite C; reflexivity].
Qed.

Lemma fold_extra_inherited (es : list ExtraItem) (st : AppState) (k : string) :
  inherited k = true ->
  st_extras (fold_left initExtra es st) !! k = st_extras st !! k /\
  st_selections (fold_left initExtra es st) = st_selections st /\
  st_catMods (fold_left initExtra es st) = st_catMods st.
Proof.
  intros Hk. revert st. induction es as [|e es IH]; intros st; simpl; [auto |].
  destruct (IH (initExtra st e)) as (A & B & C).
  destruct (initExtra_inherited st e k Hk) as (A' & B' & C').
  repeat split; congruence.
Qed.

Lemma extends_category_totals (cats : list Category) (ed : list Extra)
    (st st' : AppState) :
  extends st st' ->
  subtotal (totalsOf cats ed st') == subtotal (totalsOf cats ed st) /\
  selectedCount (totalsOf cats ed st') = selectedCount (totalsOf cats ed st) /\
  modifiersTotal (totalsOf cats ed st') = modifiersTotal (totalsOf cats ed st).
Proof.
  intros (A & B & C & D & E & F & G). unfold totalsOf.
  set (p := {| categories := cats; selections := st_selections st;
               extras := st_extras st; extrasData := ed;
               modifiers := st_modifiers st; catMods := st_catMods st;
               homeSize := st_homeSize st |}).
  set (p' := {| categories := cats; selections := st_selections st';
                extras := st_extras st'; extrasData := ed;
                modifiers := st_modifiers st'; catMods := st_catMods st';
                homeSize := st_homeSize st' |}).
  destruct (calculateTotal_category_sums p) as [Hs Hc].
  destruct (calculateTotal_category_sums p') as [Hs' Hc'].
  destruct (calculateTotal_fields p) as (_ & _ & _ & Hm & _).
  destruct (calculateTotal_fields p') as (_ & _ & _ & Hm' & _).
  assert (Hsel : forall cat, selected p' cat = selected p cat).
  { intros cat. apply (B (cat_id cat)). }
  assert (Hfilter : List.filter (selected p') cats = List.filter (selected p) cats)
    by (apply List.filter_ext; exact Hsel).
  simpl categories in *. rewrite Hfilter in Hs', Hc'.
  split; [|split].
  - rewrite Hs, Hs'.
    match goal with
    | |- sumQ ?a == sumQ ?b => assert (Hmap : a = b); [|rewrite Hmap; reflexivity]
    end.
    apply map_ext_in. intros cat Hin. apply List.filter_In in Hin as [_ Hin].
    assert (Hso : selectionOf p' cat = selectionOf p cat).
    { unfold selectionOf, selected, is_truthy in *. simpl in *.
      destruct (obj_get (st_selections st) (cat_id cat)) as [v|] eqn:Hv;
        [|simpl in Hin; discriminate].
      by rewrite (A _ _ Hv). }
    assert (Hcm : catModAmount p' cat = catModAmount p cat) by apply (D (cat_id cat)).
    rewrite Hso, Hcm. simpl. rewrite G. reflexivity.
  - congruence.
  - rewrite Hm, Hm'. simpl. rewrite F. reflexivity.
Qed.

(** X14.  After [initStateForConfig] every catalog category whose id is
    not a name of [Object.prototype] has an entry in the selections and
    in the per-category adjustments, and every such catalog extra has a
    flag; an id that is such a name is given no entry, because [in]
    finds the inherited member.  Nothing that was there before is
    changed, so the category subtotal, the selected count and the
    modifiers total of any catalog are what they were. *)
Theorem initStateForConfig_covers (cats : list Category) (es : list ExtraItem)
    (st : AppState) :
  let st' := initStateForConfig cats es st in
  (forall c, In c cats -> inherited (cat_id c) = false ->
     hasOwnProperty (st_selections st') (cat_id c) = true /\
     is_Some (st_catMods st' !! cat_id c)) /\
  (forall e, In e es -> inherited (extra_id (item e)) = false ->
     is_Some (st_extras st' !! extra_id (item e))) /\
  (forall k, inherited k = true ->
     obj_get (st_selections st') k = obj_get (st_selections st) k /\
     st_catMods st' !! k = st_catMods st !! k /\
     st_extras st' !! k = st_extras st !! k) /\
  extends st st' /\
  (forall catalog extrasData,
     subtotal (totalsOf catalog extrasData st') == subtotal (totalsOf catalog extrasData st) /\
     selectedCount (totalsOf catalog extrasData st')
       = selectedCount (totalsOf catalog extrasData st) /\
     modifiersTotal (totalsOf catalog extrasData st')
       = modifiersTotal (totalsOf catalog extrasData st)).
Proof.
  intros st'. subst st'. unfold initStateForConfig.
  assert (Hext : extends st (fold_left initExtra es (fold_left initCategory cats st))).
  { eapply extends_trans; [apply extends_fold_category | apply extends_fold_extra]. }
  split; [|split; [|split; [|split]]].
  - intros c Hin Hk.
    destruct (fold_category_covers cats st c Hin Hk) as [[v Hv] [m Hm]].
    destruct (extends_fold_extra es (fold_left initCategory cats st)) as (A & _ & C & _).
    split.
    + unfold hasOwnProperty. by rewrite (A _ _ Hv).
    + exists m. by apply C.
  - intros e Hin Hk. by apply fold_extra_covers.
  - intros k Hk.
    destruct (fold_category_inherited cats st k Hk) as (A & B & C).
    destruct (fold_extra_inherited es (fold_left initCategory cats st) k Hk)
      as (A' & B' & C').
    rewrite B', C', A'. rewrite C. auto.
  - exact Hext.
  - intros catalog extrasData. by apply extends_category_totals.
Qed.

(** A catalog category named [constructor] gets no entry. *)
Example initStateForConfig_constructor :
  let c := {| cat_id := "constructor"; sizeScale := 0; baseTierNoScale := false;
              isCustomized := false; tiers := ∅ |} in
  let st := {| st_selections := []; st_extras := ∅; st_modifiers := [];
               st_catMods := ∅; st_homeSize := 4000 |} in
  st_selections (initStateForConfig [c; networking] [] st) = [("networking", None)].
Proof. vm_compute. reflexivity. Qed.

End ApplicationInit.

(** ** Toggling extras *)

Section ApplicationExtras.

Import Pricing PricingTerms App.









End ApplicationExtras.

(** ** What the normal form of a state sees *)

Section NormalForms.

Import VersionStore StoreTerms.

#[local] Open Scope Z_scope.

Lemma json_ind' (P : json -> Prop)
    (Hnull : P JNull) (Hbool : forall b, P (JBool b)) (Hnum : forall n, P (JNum n))
    (Hstr : forall s, P (JStr s))
    (Harr : forall items, Forall P items -> P (JArr items))
    (Hobj : forall fields, Forall (fun kv => P (snd kv)) fields -> P (JObj fields)) :
  forall v, P v.
Proof.
  fix IH 1.
  intros [ | b | n | s | items | fields];
    [apply Hnull | apply Hbool | apply Hnum | apply Hstr | | ].
  - apply Harr. induction items as [|x items IHi]; constructor; [apply IH | exact IHi].
  - apply Hobj. induction fields as [|[k x] fields IHf]; constructor; [apply IH | exact IHf].
Qed.

Lemma listed_In (K : list string) (k : string) : listed K k = true <-> In k K.
Proof.
  unfold listed. rewrite existsb_exists. split.
  - intros (x & Hx & Heq). apply String.eqb_eq in Heq. by subst.
  - intros Hin. exists k. split; [exact Hin | apply String.eqb_refl].
Qed.

Lemma listed_ext (K K' : list string) :
  (forall k, In k K <-> In k K') -> forall k, listed K k = listed K' k.
Proof.
  intros H k. apply Bool.eq_iff_eq_true. rewrite !listed_In. apply H.
Qed.

Lemma PropertyList_In (l : list string) (k : string) : In k (PropertyList l) <-> In k l.
Proof.
  unfold PropertyList.
  assert (G : forall acc, In k (fold_left
                (fun acc k => if existsb (String.eqb k) acc then acc else acc ++ [k]) l acc)
              <-> In k acc \/ In k l).
  { induction l as [|x l IH]; intros acc; simpl; [tauto|].
    rewrite IH. destruct (existsb (String.eqb x) acc) eqn:E.
    - apply (listed_In acc x) in E. split; [tauto|].
      intros [H|[H|H]]; subst; auto.
    - rewrite in_app_iff. simpl. tauto. }
  rewrite G. simpl. tauto.
Qed.

Lemma Array_sort_In (l : list string) (k : string) : In k (Array_sort l) <-> In k l.
Proof.
  rewrite <- !list_elem_of_In. by rewrite Array_sort_Permutation.
Qed.

Lemma prune_ext (K K' : list string) (v : json) :
  (forall k, listed K k = listed K' k) -> prune K v = prune K' v.
Proof.
  intros H. induction v as [ | | | | items IH | fields IH] using json_ind'; simpl; auto.
  - f_equal. induction IH as [|x items Hx _ IHi]; simpl; [reflexivity|]. by rewrite Hx, IHi.
  - f_equal. induction IH as [|[k x] fields Hx _ IHf]; simpl; [reflexivity|].
    simpl in Hx. rewrite Hx, H, IHf. reflexivity.
Qed.

Lemma omap_ext_in {A B} (f g : A -> option B) (l : list A) :
  (forall x, In x l -> f x = g x) -> omap f l = omap g l.
Proof.
  intros H. apply list_omap_ext. induction l as [|x l IH]; constructor.
  - apply H. by left.
  - apply IH. intros y Hy. apply H. by right.
Qed.

(** A property list writes a value and its pruned form alike. *)
Lemma SerializeJSONProperty_prune (K : list string) (v : json) :
  SerializeJSONProperty K (prune K v) = SerializeJSONProperty K v.
Proof.
  induction v as [ | | | | items IH | fields IH] using json_ind'; simpl; auto.
  - do 2 f_equal. f_equal. rewrite map_map.
    induction IH as [|x items Hx _ IHi]; simpl; [reflexivity|]. by rewrite Hx, IHi.
  - do 2 f_equal. f_equal. apply omap_ext_in. intros k Hk.
    apply listed_In in Hk.
    assert (G : obj_get
                  (map (fun kv => (kv.1, SerializeJSONProperty K kv.2))
                     (List.filter (fun kv => listed K kv.1)
                        (map (fun kv => (kv.1, prune K kv.2)) fields))) k
                = obj_get (map (fun kv => (kv.1, SerializeJSONProperty K kv.2)) fields) k).
    { induction IH as [|[k' x] fields Hx _ IHf]; simpl; [reflexivity|].
      simpl in Hx. destruct (String.eqb_spec k' k) as [->|Hne].
      - rewrite Hk. simpl. rewrite String.eqb_refl. by rewrite Hx.
      - destruct (listed K k'); simpl; [|exact IHf].
        destruct (String.eqb_spec k' k); [contradiction | exact IHf]. }
    by rewrite G.
Qed.

Lemma state_keys_no_timestamp (s : State) : listed (state_keys s) "timestamp" = false.
Proof.
  apply Bool.not_true_is_false. rewrite listed_In. unfold state_keys, Object_keys.
  intros Hin. apply in_map_iff in Hin as ([k v] & Hk & Hin).
  apply List.filter_In in Hin as [_ Hin]. simpl in *. subst k. discriminate.
Qed.

Lemma prune_timestamp (K : list string) (s : State) :
  listed K "timestamp" = false ->
  prune K (JObj (List.filter (fun kv => negb (String.eqb kv.1 "timestamp")) s))
  = prune K (JObj s).
Proof.
  intros Hts. simpl. f_equal. induction s as [|[k v] s IH]; simpl; [reflexivity|].
  destruct (String.eqb_spec k "timestamp") as [->|Hne]; simpl.
  - by rewrite Hts.
  - by rewrite IH.
Qed.

(** The normal form of a state is a function of its keys and of its
    pruned form. *)
Lemma normalizeState_prune (s : State) :
  normalizeState s =
  SerializeJSONProperty (PropertyList (Array_sort (state_keys s)))
    (prune (state_keys s) (JObj s)).
Proof.
  unfold normalizeState, JSON_stringify. fold (state_keys s).
  set (rest := List.filter _ s). set (PL := PropertyList _).
  rewrite <- (SerializeJSONProperty_prune PL (JObj rest)).
  rewrite (prune_ext PL (state_keys s)).
  - subst rest. by rewrite (prune_timestamp _ s (state_keys_no_timestamp s)).
  - apply listed_ext. intros k. subst PL. by rewrite PropertyList_In, Array_sort_In.
Qed.

(** X17.  The normal form sees a nested property only when its name is
    also a top-level name: two states with the same top-level names that
    agree once every other nested property is removed have the same
    normal form. *)
Theorem normalizeState_nested_blind (s s' : State)
    (Hkeys : state_keys s = state_keys s')
    (Hvals : prune (state_keys s) (JObj s) = prune (state_keys s) (JObj s')) :
  normalizeState s = normalizeState s'.
Proof.
  rewrite (normalizeState_prune s), (normalizeState_prune s'), <- Hkeys, Hvals.
  reflexivity.
Qed.

Lemma normalizeState_nested_blind_witness :
  state_with_modifier "credit" <> state_with_modifier "discount" /\
  normalizeState (state_with_modifier "credit")
  = normalizeState (state_with_modifier "discount").
Proof.
  split; [discriminate|].
  apply (normalizeState_nested_blind (state_with_modifier "credit")
           (state_with_modifier "discount")); reflexivity.
Defined.

(** X18.  An update without a pin request whose state differs from the
    latest version only in nested properties that the normal form does
    not see is answered with "No changes detected": nothing is stored,
    and the new state is lost. *)
Theorem updateBudget_misses_nested_change
    (now : Z) (bid : string) (data : UpdateBody) (db : DB) (budget : Budget)
    (lastVersion : Version)
    (Hload : loadBudget db bid = Some budget)
    (Hlast : last (versions budget) = Some lastVersion)
    (Hpin : pin_requested data = false)
    (Hkeys : state_keys (v_state lastVersion) = state_keys (body_state data))
    (Hvals : prune (state_keys (v_state lastVersion)) (JObj (v_state lastVersion))
             = prune (state_keys (v_state lastVersion)) (JObj (body_state data))) :
  updateBudget now bid data db = (db, NoChanges (length (versions budget))).
Proof.
  unfold updateBudget. rewrite Hload, Hlast.
  rewrite (normalizeState_prune (v_state lastVersion)),
          (normalizeState_prune (body_state data)), <- Hkeys, Hvals.
  rewrite String.eqb_refl, Hpin. reflexivity.
Qed.

Lemma updateBudget_misses_nested_change_witness :
  v_state (default version_initial (last (versions budget_with_modifier)))
    <> body_state autosave_renamed /\
  updateBudget 5000000 "k7m2p9qx" autosave_renamed db_with_modifier
  = (db_with_modifier, NoChanges 1).
Proof.
  split; [discriminate|].
  apply (updateBudget_misses_nested_change 5000000 "k7m2p9qx" autosave_renamed
           db_with_modifier budget_with_modifier
           {| version := 1; timestamp := 1000; v_state := state_with_modifier "credit";
              v_note := "Initial budget"; pinned := true |});
    reflexivity.
Defined.

End NormalForms.

(** ** Failed requests and the range of a restore *)

Section StoreRequests.

Import VersionStore StoreTerms.

#[local] Open Scope Z_scope.

(** X19.  An update that is answered "Budget not found", and a restore
    or a customization that is answered with any error, leave the
    database as it was.  Without authorization a restore and a
    customization are refused before anything is read. *)
Theorem failed_request_changes_nothing
    (now : Z) (authorized : bool) (bid : string) (db : DB) :
  (forall data, (updateBudget now bid data db).2 = NotFound "Budget not found" ->
                (updateBudget now bid data db).1 = db) /\
  (forall V, is_error (restoreVersion now authorized bid V db).2 = true ->
             (restoreVersion now authorized bid V db).1 = db) /\
  (forall data, is_error (customizeBudget now authorized bid data db).2 = true ->
                (customizeBudget now authorized bid data db).1 = db) /\
  (authorized = false ->
   forall V data,
     restoreVersion now authorized bid V db = (db, Unauthorized) /\
     customizeBudget now authorized bid data db = (db, Unauthorized)).
Proof.
  split; [|split; [|split]].
  - intros data. unfold updateBudget.
    destruct (loadBudget db bid) as [budget|]; [|reflexivity].
    destruct (last (versions budget)) as [lastVersion|]; [|reflexivity].
    destruct (String.eqb _ _).
    + destruct (pin_requested data && negb (pinned lastVersion)); simpl;
        [discriminate | reflexivity].
    + simpl. discriminate.
  - intros V. unfold restoreVersion. destruct authorized; simpl; [|reflexivity].
    destruct (loadBudget db bid) as [budget|]; [|reflexivity].
    destruct (find _ _); simpl; [discriminate | reflexivity].
  - intros data. unfold customizeBudget. destruct authorized; simpl; [|reflexivity].
    destruct (loadBudget db bid) as [budget|]; simpl; [discriminate | reflexivity].
  - intros -> V data. split; reflexivity.
Qed.

Lemma find_version_absent (V : Z) (rows : list VersionRow) :
  numbered_from 1 rows -> ~ (1 <= V <= Z.of_nat (length rows)) ->
  find (fun v => Z.eqb (version v) V) (map to_version rows) = None.
Proof.
  intros Hnum Hout.
  destruct (find _ _) as [v|] eqn:Hfind; [|reflexivity].
  apply find_some in Hfind as [Hin Hv]. apply Z.eqb_eq in Hv.
  apply in_map_iff in Hin as (r & <- & Hin).
  pose proof (numbered_from_bounds _ _ _ Hnum Hin). simpl in Hv. lia.
Qed.

Lemma find_version_present (V : Z) (rows : list VersionRow) :
  numbered_from 1 rows -> 1 <= V <= Z.of_nat (length rows) ->
  exists target, In target rows /\ version_number target = V /\
    find (fun v => Z.eqb (version v) V) (map to_version rows) = Some (to_version target).
Proof.
  intros Hnum Hin.
  destruct (lookup_lt_is_Some_2 rows (Z.to_nat (V - 1))) as [target Ht]; [lia|].
  pose proof (numbered_from_lookup _ _ _ _ Hnum Ht) as Hv.
  assert (HV : version_number target = V) by lia.
  assert (Hmem : In target rows).
  { apply list_elem_of_In. by eapply list_elem_of_lookup_2. }
  exists target. split; [exact Hmem|]. split; [exact HV|].
  rewrite <- HV. by apply (find_version 1).
Qed.

(** X20.  For a budget with N versions an authorized restore of version
    V succeeds exactly when 1 <= V <= N, and then answers with the new
    version number N + 1; for any other V it answers "Version not found"
    and stores nothing. *)
Theorem restoreVersion_succeeds_iff
    (now : Z) (bid : string) (V : Z) (db : DB) (budget : Budget)
    (HInv : Inv db)
    (Hload : loadBudget db bid = Some budget) :
  let N := Z.of_nat (length (versions budget)) in
  (1 <= V <= N -> (restoreVersion now true bid V db).2 = Restored (N + 1)) /\
  (~ (1 <= V <= N) -> restoreVersion now true bid V db = (db, NotFound "Version not found")).
Proof.
  intros N. subst N.
  pose proof (loadBudget_versions _ _ _ HInv Hload) as Hvs.
  destruct HInv as [Hnum _]. specialize (Hnum bid).
  unfold restoreVersion. simpl negb. cbv iota. rewrite Hload, Hvs, length_map.
  split; intros HV.
  - destruct (find_version_present V _ Hnum HV) as (target & _ & _ & Hfind).
    rewrite Hfind. reflexivity.
  - rewrite (find_version_absent V _ Hnum HV). reflexivity.
Qed.

Lemma restoreVersion_succeeds_iff_witness :
  (restoreVersion 3000000 true "k7m2p9qx" 1 db_saved).2 = Restored 3 /\
  restoreVersion 3000000 true "k7m2p9qx" 3 db_saved
  = (db_saved, NotFound "Version not found").
Proof.
  destruct (restoreVersion_succeeds_iff 3000000 "k7m2p9qx" 1 db_saved budget_saved
              Inv_db_saved eq_refl) as [H1 _].
  destruct (restoreVersion_succeeds_iff 3000000 "k7m2p9qx" 3 db_saved budget_saved
              Inv_db_saved eq_refl) as [_ H3].
  split; [apply H1; simpl; lia | apply H3; simpl; lia].
Defined.

End StoreRequests.

(** ** History kept and history discarded *)

Section StoreHistory.

Import VersionStore StoreTerms.

#[local] Open Scope Z_scope.

Lemma writeVersion_other (now : Z) (bid : string) (data : UpdateBody) (n : nat)
    (lastVersion : Version) (db : DB) :
  budgets (writeVersion now bid data n lastVersion db) = budgets db /\
  forall bid', bid' <> bid ->
    rows_of bid' (budget_versions (writeVersion now bid data n lastVersion db))
    = rows_of bid' (budget_versions db).
Proof.
  unfold writeVersion. destruct (consolidates now data lastVersion).
  - split; [reflexivity|]. intros bid' Hne. simpl.
    rewrite rows_of_map by (intros r; by apply row_update_budget_id).
    apply row_update_other. intros r Hin. left.
    apply rows_of_In in Hin as [_ Hin]. congruence.
  - split; [reflexivity|]. intros bid' Hne. simpl. rewrite rows_of_app. simpl.
    destruct (String.eqb_spec bid bid'); [congruence | apply app_nil_r].
Qed.

(** X21.  A save whose state has another normal form than the latest
    version leaves the budget without any version: the route writes its
    version and answers with a version count of N or N + 1, and the
    [saveBudget] that follows removes every version row of the budget.
    The budget then loads with the new current state and an empty
    history, every later save of it fails, and the rows and records of
    other budgets are as before. *)
Theorem updateBudget_changed_state_discards_history
    (now : Z) (bid : string) (data : UpdateBody) (db : DB) (budget : Budget)
    (lastVersion : Version)
    (Hload : loadBudget db bid = Some budget)
    (Hlast : last (versions budget) = Some lastVersion)
    (Hdiff : normalizeState (v_state lastVersion) <> normalizeState (body_state data)) :
  let db' := (updateBudget now bid data db).1 in
  (exists n c, (updateBudget now bid data db).2 = Updated n now c /\
               (n = length (versions budget) \/ n = S (length (versions budget)))) /\
  rows_of bid (budget_versions db') = [] /\
  option_map versions (loadBudget db' bid) = Some [] /\
  option_map currentState (loadBudget db' bid) = Some (body_state data) /\
  (forall bid', bid' <> bid ->
     rows_of bid' (budget_versions db') = rows_of bid' (budget_versions db) /\
     budgets db' !! bid' = budgets db !! bid') /\
  (forall now' data',
     updateBudget now' bid data' db' = (db', ServerError "Failed to update budget")).
Proof.
  intros db'.
  pose proof (loadBudget_Some _ _ _ Hload) as (row & Hrow & _ & _ & Hid).
  apply String.eqb_neq in Hdiff.
  assert (Hrun : updateBudget now bid data db =
            (saveBudget now (with_currentState budget (body_state data))
               (writeVersion now bid data (length (versions budget)) lastVersion db),
             Updated (if consolidates now data lastVersion
                      then length (versions budget) else S (length (versions budget)))
                     now (consolidates now data lastVersion))).
  { unfold updateBudget. rewrite Hload, Hlast, Hdiff. reflexivity. }
  destruct (writeVersion_other now bid data (length (versions budget)) lastVersion db)
    as [Hbud Hrows].
  set (db1 := writeVersion now bid data (length (versions budget)) lastVersion db) in *.
  assert (Hdb' : db' = saveBudget now (with_currentState budget (body_state data)) db1)
    by (subst db'; by rewrite Hrun).
  assert (Hsome : is_Some (budgets db1
                             !! id (with_currentState budget (body_state data))))
    by (simpl; rewrite Hid, Hbud, Hrow; eauto).
  assert (Hgone : rows_of bid (budget_versions db') = []).
  { rewrite Hdb', <- Hid. apply (saveBudget_rows_same _ _ _ Hsome). }
  assert (Hloaded : loadBudget db' bid =
            Some {| id := bid; lastModified := now; versions := [];
                    currentState := body_state data;
                    isCustomized := isCustomized budget;
                    sqftLocked := or_null (sqftLocked budget);
                    propertyTypeLocked := or_null (propertyTypeLocked budget);
                    categoryConfig := or_null (categoryConfig budget);
                    customCategories := or_null (customCategories budget) |}).
  { unfold loadBudget. rewrite Hgone. rewrite Hdb'. simpl.
    rewrite Hid, lookup_insert_eq. reflexivity. }
  split; [|split; [|split; [|split; [|split]]]].
  - rewrite Hrun. simpl. destruct (consolidates now data lastVersion); eauto.
  - exact Hgone.
  - by rewrite Hloaded.
  - by rewrite Hloaded.
  - intros bid' Hne. split.
    + rewrite Hdb', saveBudget_rows_other by (simpl; congruence). by apply Hrows.
    + rewrite Hdb'. simpl. rewrite Hid, lookup_insert_ne by congruence.
      by rewrite Hbud.
  - intros now' data'. unfold updateBudget. rewrite Hloaded. reflexivity.
Qed.

Lemma updateBudget_changed_state_discards_history_witness :
  rows_of "k7m2p9qx"
    (budget_versions (updateBudget 2000000 "k7m2p9qx" autosave_good db_created).1) = [].
Proof.
  assert (Hdiff : normalizeState (v_state version_initial)
                  <> normalizeState (body_state autosave_good))
    by (apply string_neq_by_eqb; vm_compute; reflexivity).
  destruct (updateBudget_changed_state_discards_history 2000000 "k7m2p9qx" autosave_good
              db_created budget_created version_initial eq_refl eq_refl Hdiff)
    as (_ & H & _).
  exact H.
Defined.

(** The budget as it is loaded after a successful restore. *)
Lemma restoreVersion_loaded
    (now : Z) (bid : string) (db : DB) (budget : Budget) (target : Version) :
  Inv db -> loadBudget db bid = Some budget -> In target (versions budget) ->
  let db' := (restoreVersion now true bid (version target) db).1 in
  exists budget',
    loadBudget db' bid = Some budget' /\
    currentState budget' = v_state target /\
    versions budget' =
      versions budget ++
      [ {| version := Z.of_nat (length (versions budget)) + 1;
           timestamp := now;
           v_state := v_state target;
           v_note := "Restored to version " +:+ pretty (version target);
           pinned := true |} ].
Proof.
  intros HInv Hload Htarget db'.
  pose proof (loadBudget_versions _ _ _ HInv Hload) as Hvs.
  pose proof HInv as [Hnum _]. specialize (Hnum bid).
  apply loadBudget_Some in Hload as Hrow. destruct Hrow as (row & Hrow & _ & _ & _).
  rewrite Hvs in Htarget. apply in_map_iff in Htarget as (t & <- & Htin).
  assert (Hfind : find (fun v => Z.eqb (version v) (version (to_version t)))
                       (versions budget) = Some (to_version t)).
  { rewrite Hvs. by apply (find_version 1). }
  assert (Hdb' : db' =
    {| budgets := alter (set_current_state now (state t)) bid (budgets db);
       budget_versions :=
         budget_versions db ++
         [ {| budget_id := bid;
              version_number := Z.of_nat (length (versions budget)) + 1;
              created_at := now; state := state t;
              note := "Restored to version " +:+ pretty (version_number t);
              is_pinned := true |} ] |}).
  { subst db'. unfold restoreVersion. simpl negb. cbv iota.
    rewrite Hload, Hfind. reflexivity. }
  set (new := {| budget_id := bid;
                 version_number := Z.of_nat (length (versions budget)) + 1;
                 created_at := now; state := state t;
                 note := "Restored to version " +:+ pretty (version_number t);
                 is_pinned := true |}) in *.
  assert (Hrows' : rows_of bid (budget_versions db')
                   = rows_of bid (budget_versions db) ++ [new]).
  { rewrite Hdb'. simpl. rewrite rows_of_app. f_equal.
    unfold rows_of. simpl. by rewrite String.eqb_refl. }
  assert (Hnum' : numbered_from 1 (rows_of bid (budget_versions db) ++ [new])).
  { apply numbered_from_snoc. split; [exact Hnum|].
    simpl. rewrite Hvs, length_map. lia. }
  assert (Hlook : budgets db' !! bid = Some (set_current_state now (state t) row)).
  { rewrite Hdb'. simpl. rewrite lookup_alter_eq, Hrow. reflexivity. }
  unfold loadBudget. rewrite Hlook. eexists. split; [reflexivity|]. simpl.
  split; [reflexivity|].
  rewrite Hrows', (order_numbered 1 _ Hnum'), map_app, <- Hvs. reflexivity.
Qed.

(** X22.  After a successful restore of version V the budget's current
    state is V's state, and an update that brings V's state back, with
    or without a pin request, is answered with "No changes detected" and
    stores nothing: the restored copy is pinned already. *)
Theorem restoreVersion_then_same_state
    (now now' : Z) (bid : string) (data : UpdateBody) (db : DB) (budget : Budget)
    (target : Version)
    (HInv : Inv db)
    (Hload : loadBudget db bid = Some budget)
    (Htarget : In target (versions budget))
    (Hsame : normalizeState (body_state data) = normalizeState (v_state target)) :
  let db' := (restoreVersion now true bid (version target) db).1 in
  option_map currentState (loadBudget db' bid) = Some (v_state target) /\
  updateBudget now' bid data db' = (db', NoChanges (S (length (versions budget)))).
Proof.
  intros db'.
  destruct (restoreVersion_loaded now bid db budget target HInv Hload Htarget)
    as (budget' & Hload' & Hcur & Hvs').
  fold db' in Hload'. split.
  - rewrite Hload'. simpl. by rewrite Hcur.
  - unfold updateBudget. rewrite Hload', Hvs', last_snoc. simpl v_state.
    rewrite Hsame, String.eqb_refl. simpl pinned. rewrite andb_false_r.
    rewrite length_app. simpl. f_equal. f_equal. lia.
Qed.

Lemma restoreVersion_then_same_state_witness :
  updateBudget 4000000 "k7m2p9qx"
    {| body_state := state_blank; body_note := None; body_pin := Some true |}
    (restoreVersion 3000000 true "k7m2p9qx" 1 db_saved).1
  = ((restoreVersion 3000000 true "k7m2p9qx" 1 db_saved).1, NoChanges 3).
Proof.
  apply (restoreVersion_then_same_state 3000000 4000000 "k7m2p9qx"
           {| body_state := state_blank; body_note := None; body_pin := Some true |}
           db_saved budget_saved version_initial Inv_db_saved eq_refl).
  - left. reflexivity.
  - reflexivity.
Defined.

(** X23.  A created budget gets an id that was free, so no existing
    budget is overwritten: every other budget loads as before.  The new
    budget loads with the given state as its current state and as its
    only version, numbered 1, pinned, with the note "Initial budget". *)
Theorem createBudget_round_trip
    (now : Z) (codes : list string) (st : State) (db db' : DB) (r : Response)
    (HInv : Inv db)
    (Hcreate : createBudget now codes st db = Some (db', r)) :
  exists bid,
    r = Created bid /\ In bid codes /\ loadBudget db bid = None /\
    loadBudget db' bid =
      Some {| id := bid; lastModified := now;
              versions := [ {| version := 1; timestamp := now; v_state := st;
                               v_note := "Initial budget"; pinned := true |} ];
              currentState := st; isCustomized := false;
              sqftLocked := None; propertyTypeLocked := None;
              categoryConfig := None; customCategories := None |} /\
    forall bid', bid' <> bid -> loadBudget db' bid' = loadBudget db bid'.
Proof.
  unfold createBudget in Hcreate.
  destruct (fresh_code codes db) as [bid|] eqn:Hfresh; [|discriminate].
  injection Hcreate as <- <-. exists bid.
  pose proof (fresh_code_None _ _ _ Hfresh) as Hnone.
  pose proof (rows_of_fresh _ _ HInv Hnone) as Hrows.
  assert (Hcode : In bid codes).
  { clear -Hfresh. induction codes as [|c codes IH]; simpl in *; [discriminate|].
    destruct (budgets db !! c); [right; auto | left; congruence]. }
  split; [reflexivity|]. split; [exact Hcode|]. split; [|split].
  - unfold loadBudget. by rewrite Hnone.
  - unfold loadBudget. simpl. rewrite Hnone, lookup_insert_eq, rows_of_app, Hrows. simpl.
    unfold rows_of. simpl. rewrite String.eqb_refl. reflexivity.
  - intros bid' Hne. unfold loadBudget. simpl.
    rewrite Hnone, lookup_insert_ne by congruence.
    destruct (budgets db !! bid'); [|reflexivity].
    rewrite rows_of_app. unfold rows_of at 2. simpl.
    destruct (String.eqb_spec bid bid'); [congruence|]. by rewrite app_nil_r.
Qed.

Lemma createBudget_round_trip_witness :
  exists bid,
    Created "k7m2p9qx" = Created bid /\ In bid ["k7m2p9qx"] /\
    loadBudget empty_db bid = None /\
    loadBudget db_created bid =
      Some {| id := bid; lastModified := 1000;
              versions := [ {| version := 1; timestamp := 1000; v_state := state_blank;
                               v_note := "Initial budget"; pinned := true |} ];
              currentState := state_blank; isCustomized := false;
              sqftLocked := None; propertyTypeLocked := None;
              categoryConfig := None; customCategories := None |} /\
    forall bid', bid' <> bid -> loadBudget db_created bid' = loadBudget empty_db bid'.
Proof.
  apply (createBudget_round_trip 1000 ["k7m2p9qx"] state_blank empty_db db_created
           (Created "k7m2p9qx") Inv_empty).
  reflexivity.
Defined.



End StoreHistory.

(** ** Codes and short links *)

Section CodesAndLinks.

Import ShortLinks.

#[local] Open Scope Z_scope.

Lemma append_empty (s : string) : s +:+ EmptyString = s.
Proof.
  induction s as [|c s IH]; [reflexivity|].
  change (String c (s +:+ EmptyString) = String c s). by rewrite IH.
Qed.

Lemma append_append (a b c : string) : (a +:+ b) +:+ c = a +:+ (b +:+ c).
Proof.
  induction a as [|x a IH]; [reflexivity|].
  change (String x ((a +:+ b) +:+ c) = String x (a +:+ (b +:+ c))). by rewrite IH.
Qed.

Lemma fold_append (f : Byte.byte -> string) (bytes : list Byte.byte) (acc : string) :
  fold_left (fun code b => code +:+ f b) bytes acc
  = acc +:+ fold_right (fun b rest => f b +:+ rest) EmptyString bytes.
Proof.
  revert acc. induction bytes as [|b bytes IH]; intros acc; simpl.
  - by rewrite append_empty.
  - by rewrite IH, append_append.
Qed.

Lemma code_of_byte_char (b : Byte.byte) :
  exists c, code_of_byte b = String c EmptyString /\ in_chars c = true /\ code_char c = true.
Proof.
  assert (H : match code_of_byte b with
              | String c EmptyString => in_chars c && code_char c
              | _ => false
              end = true) by (destruct b; vm_compute; reflexivity).
  destruct (code_of_byte b) as [|c [|c' rest]]; try discriminate.
  apply andb_true_iff in H. exists c. tauto.
Qed.

Lemma generateCode_unfold (bytes : list Byte.byte) :
  generateCode bytes
  = fold_right (fun b rest => code_of_byte b +:+ rest) EmptyString bytes.
Proof. unfold generateCode. by rewrite (fold_append code_of_byte). Qed.

Lemma generateCode_chars (bytes : list Byte.byte) :
  String.length (generateCode bytes) = length bytes /\
  string_forall in_chars (generateCode bytes) = true /\
  string_forall code_char (generateCode bytes) = true.
Proof.
  rewrite generateCode_unfold.
  induction bytes as [|b bytes (IH1 & IH2 & IH3)]; [by repeat split|].
  cbn [fold_right]. destruct (code_of_byte_char b) as (c & -> & Hc & Hc').
  set (rest := fold_right _ _ bytes) in *.
  change (String c EmptyString +:+ rest) with (String c rest).
  cbn [String.length string_forall length]. rewrite IH1, IH2, IH3, Hc, Hc'.
  by repeat split.
Qed.

(** X25.  A generated code has one character per random byte, every
    character is one of the 32 of the alphabet, and the draw has no
    modulo bias: each character of the alphabet is selected by exactly 8
    of the 256 byte values. *)
Theorem generateCode_uniform (bytes : list Byte.byte) :
  String.length (generateCode bytes) = length bytes /\
  string_forall in_chars (generateCode bytes) = true /\
  forall c, in_chars c = true ->
    length (List.filter (fun b => String.eqb (code_of_byte b) (String c EmptyString))
                        all_bytes) = 8%nat.
Proof.
  destruct (generateCode_chars bytes) as (Hlen & Hchars & _).
  split; [exact Hlen|]. split; [exact Hchars|].
  intros c Hc. unfold in_chars in Hc. apply existsb_exists in Hc as (x & Hin & Hx).
  apply Ascii.eqb_eq in Hx. subst x.
  vm_compute in Hin.
  repeat (destruct Hin as [<-|Hin]; [vm_compute; reflexivity|]).
  destruct Hin.
Qed.

Lemma keep_chars_forall (p : ascii -> bool) (s : string) :
  string_forall p (keep_chars p s) = true.
Proof.
  induction s as [|c s IH]; simpl; [reflexivity|].
  destruct (p c) eqn:E; simpl; [by rewrite E, IH | exact IH].
Qed.

Lemma string_or_null_Some (v : option string) (s : string) :
  string_or_null v = Some s -> v = Some s /\ s <> EmptyString.
Proof.
  destruct v as [x|]; simpl; [|discriminate].
  destruct (String.eqb_spec x EmptyString) as [->|Hne]; [discriminate|].
  intros [= <-]. by split.
Qed.

Lemma fresh_link_Some (draws : list (list Byte.byte)) (links : gmap string LinkRow)
    (code : string) :
  fresh_link draws links = Some code ->
  links !! code = None /\ exists d, In d draws /\ code = generateCode d.
Proof.
  induction draws as [|d draws IH]; simpl; [discriminate|].
  destruct (links !! generateCode d) eqn:E.
  - intros H. destruct (IH H) as (Hnone & d' & Hin & Hd'). eauto.
  - intros [= <-]. eauto.
Qed.

Lemma fresh_link_progress (draws : list (list Byte.byte)) (links : gmap string LinkRow) :
  (exists d, In d draws /\ links !! generateCode d = None) ->
  exists code, fresh_link draws links = Some code.
Proof.
  induction draws as [|d draws IH]; simpl; intros (d' & Hin & Hnone); [destruct Hin|].
  destruct (links !! generateCode d) eqn:E; [| eauto].
  apply IH. destruct Hin as [-> | Hin]; [congruence | eauto].
Qed.

Lemma shorten_result
    (toLowerCase : string -> string) (now now' : Z) (draws : list (list Byte.byte))
    (data : LinkBody) (links links' : gmap string LinkRow) (r : LinkResponse)
    (Hdraws : Forall (fun d => length d = 6%nat) draws)
    (Hshort : shorten toLowerCase now draws data links = Some (links', r)) :
  (forall k row, links !! k = Some row -> links' !! k = Some row) /\
  (r = CodeInUse /\ links' = links \/
   exists code,
     r = Shortened code /\
     links !! code = None /\
     (forall k, k <> code -> links' !! k = links !! k) /\
     code <> EmptyString /\
     string_forall code_char code = true /\
     (forall c, custom_code toLowerCase data = Some c -> code = c) /\
     (resolve now' code links').2 = Redirect ("/?" +:+ body_config data) /\
     option_map access_count ((resolve now' code links').1 !! code) = Some 1).
Proof.
  unfold shorten in Hshort.
  assert (Hins : forall code, links !! code = None -> code <> EmptyString ->
            string_forall code_char code = true ->
            (forall c, custom_code toLowerCase data = Some c -> code = c) ->
            links' = <[ code := {| config := body_config data;
                                   client_name := string_or_null (body_clientName data);
                                   link_created_at := now;
                                   last_accessed_at := None;
                                   access_count := 0 |} ]> links ->
            r = Shortened code ->
            (forall k row, links !! k = Some row -> links' !! k = Some row) /\
            (r = CodeInUse /\ links' = links \/
             exists code,
               r = Shortened code /\
               links !! code = None /\
               (forall k, k <> code -> links' !! k = links !! k) /\
               code <> EmptyString /\
               string_forall code_char code = true /\
               (forall c, custom_code toLowerCase data = Some c -> code = c) /\
               (resolve now' code links').2 = Redirect ("/?" +:+ body_config data) /\
               option_map access_count ((resolve now' code links').1 !! code) = Some 1)).
  { intros code Hnone Hne Hchars Hcustom -> ->. split.
    - intros k row Hk. rewrite lookup_insert_ne; [exact Hk|]. congruence.
    - right. exists code. split; [reflexivity|]. split; [exact Hnone|].
      split; [intros k Hk; by rewrite lookup_insert_ne|].
      split; [exact Hne|]. split; [exact Hchars|]. split; [exact Hcustom|].
      unfold resolve. rewrite lookup_insert_eq. simpl.
      split; [reflexivity|]. by rewrite lookup_insert_eq. }
  destruct (custom_code toLowerCase data) as [code|] eqn:Hcode.
  - destruct (links !! code) eqn:Hlook.
    + injection Hshort as <- <-. split; [auto|]. left. by split.
    + injection Hshort as <- <-.
      unfold custom_code in Hcode. apply string_or_null_Some in Hcode as [Hcode Hne].
      destruct (body_customCode data) as [c|]; [|discriminate].
      simpl in Hcode. injection Hcode as <-.
      apply (Hins (keep_chars code_char (toLowerCase c))); auto.
      * apply keep_chars_forall.
      * intros c' [= <-]. reflexivity.
  - destruct (fresh_link draws links) as [code|] eqn:Hfresh; [|discriminate].
    injection Hshort as <- <-.
    apply fresh_link_Some in Hfresh as (Hnone & d & Hin & ->).
    rewrite Forall_forall in Hdraws.
    specialize (Hdraws d (proj2 (list_elem_of_In _ _) Hin)).
    destruct (generateCode_chars d) as (Hlen & _ & Hchars).
    apply (Hins (generateCode d)); auto.
    + intros E. rewrite E in Hlen. simpl in Hlen. lia.
    + discriminate.
Qed.

(** X26.  When no custom code is given and the draws hold a code that is
    free, and whenever a custom code is given, the request is answered.
    Creating a short link never changes a link that exists: a custom
    code that is taken is refused and nothing is stored, and a stored
    link gets a code that was free.  The code is never empty and holds
    only the characters a-z, 0-9 and the hyphen, whether it was given or
    drawn; a given code that survives the clean-up is the one used.
    Resolving the new code redirects to the stored configuration and
    counts one access. *)
Theorem shorten_round_trip
    (toLowerCase : string -> string) (now now' : Z) (draws : list (list Byte.byte))
    (data : LinkBody) (links : gmap string LinkRow)
    (Hdraws : Forall (fun d => length d = 6%nat) draws)
    (Hfree : custom_code toLowerCase data = None ->
             exists d, In d draws /\ links !! generateCode d = None) :
  exists links' r,
    shorten toLowerCase now draws data links = Some (links', r) /\
    (forall k row, links !! k = Some row -> links' !! k = Some row) /\
    (r = CodeInUse /\ links' = links \/
     exists code,
       r = Shortened code /\
       links !! code = None /\
       (forall k, k <> code -> links' !! k = links !! k) /\
       code <> EmptyString /\
       string_forall code_char code = true /\
       (forall c, custom_code toLowerCase data = Some c -> code = c) /\
       (resolve now' code links').2 = Redirect ("/?" +:+ body_config data) /\
       option_map access_count ((resolve now' code links').1 !! code) = Some 1).
Proof.
  assert (Hsome : exists res, shorten toLowerCase now draws data links = Some res).
  { unfold shorten.
    destruct (custom_code toLowerCase data) as [code|] eqn:Hcode.
    - destruct (links !! code); eauto.
    - destruct (fresh_link_progress draws links (Hfree eq_refl)) as [code Hcode'].
      rewrite Hcode'. eauto. }
  destruct Hsome as [[links' r] Hshort].
  exists links', r. split; [exact Hshort |].
  exact (shorten_result toLowerCase now now' draws data links links' r Hdraws Hshort).
Qed.

Lemma shorten_round_trip_witness :
  exists links' r,
    shorten ascii_lower 1000 [sample_draw; second_draw] plain_link taken_links
    = Some (links', r) /\
    (forall k row, taken_links !! k = Some row -> links' !! k = Some row) /\
    (r = CodeInUse /\ links' = taken_links \/
     exists code,
       r = Shortened code /\
       taken_links !! code = None /\
       (forall k, k <> code -> links' !! k = taken_links !! k) /\
       code <> EmptyString /\
       string_forall code_char code = true /\
       (forall c, custom_code ascii_lower plain_link = Some c -> code = c) /\
       (resolve 2000 code links').2 = Redirect ("/?" +:+ body_config plain_link) /\
       option_map access_count ((resolve 2000 code links').1 !! code) = Some 1).
Proof.
  assert (Hdraws : Forall (fun d : list Byte.byte => length d = 6%nat)
                          [sample_draw; second_draw])
    by (repeat constructor).
  assert (Hfree : custom_code ascii_lower plain_link = None ->
                  exists d, In d [sample_draw; second_draw] /\
                            taken_links !! generateCode d = None).
  { intros _. exists second_draw. split; [right; left; reflexivity |].
    vm_compute. reflexivity. }
  exact (shorten_round_trip ascii_lower 1000 2000 [sample_draw; second_draw]
           plain_link taken_links Hdraws Hfree).
Defined.

(** The first draw is taken, the second is stored. *)
Example shorten_second_draw :
  option_map snd (shorten ascii_lower 1000 [sample_draw; second_draw] plain_link taken_links)
  = Some (Shortened "bcdefg") /\
  option_map snd (shorten ascii_lower 1000 [sample_draw] sample_link taken_links)
  = Some (Shortened "lakehouse").
Proof. vm_compute. split; reflexivity. Qed.

(** X27.  Resolving a code any number of times never changes what it
    redirects to: after n visits the link has its configuration and
    client name as stored and its access count has grown by n; links
    with other codes are untouched, and an unknown code changes
    nothing. *)
Theorem resolve_counts_visits (now : Z) (code : string) (links : gmap string LinkRow)
    (n : nat) :
  let visit := fun l : gmap string LinkRow => (resolve now code l).1 in
  (forall link, links !! code = Some link ->
     option_map config (Nat.iter n visit links !! code) = Some (config link) /\
     option_map client_name (Nat.iter n visit links !! code) = Some (client_name link) /\
     option_map access_count (Nat.iter n visit links !! code)
       = Some (access_count link + Z.of_nat n) /\
     (resolve now code (Nat.iter n visit links)).2 = Redirect ("/?" +:+ config link)) /\
  (forall k, k <> code -> Nat.iter n visit links !! k = links !! k) /\
  (links !! code = None -> resolve now code links = (links, LinkNotFound)).
Proof.
  intros visit.
  assert (Hstep : forall l link', l !! code = Some link' ->
            visit l !! code =
              Some {| config := config link';
                      client_name := client_name link';
                      link_created_at := link_created_at link';
                      last_accessed_at := Some now;
                      access_count := access_count link' + 1 |}).
  { intros l link' Hl. unfold visit, resolve. rewrite Hl. simpl.
    by rewrite lookup_insert_eq. }
  assert (Hother : forall l k, k <> code -> visit l !! k = l !! k).
  { intros l k Hk. unfold visit, resolve.
    destruct (l !! code); simpl; [|reflexivity]. by rewrite lookup_insert_ne. }
  split; [|split].
  - intros link Hlink.
    assert (G : exists link', Nat.iter n visit links !! code = Some link' /\
                config link' = config link /\ client_name link' = client_name link /\
                access_count link' = access_count link + Z.of_nat n).
    { induction n as [|n (link' & Hl & Hc & Hn & Ha)].
      - exists link. simpl. repeat split; [exact Hlink | lia].
      - rewrite Nat.iter_succ, (Hstep _ _ Hl).
        eexists. split; [reflexivity|]. simpl.
        repeat split; [exact Hc | exact Hn | lia]. }
    destruct G as (link' & Hl & Hc & Hn & Ha).
    unfold resolve. rewrite Hl. simpl. rewrite Hc, Hn, Ha. repeat split.
  - intros k Hk. induction n as [|n IH]; [reflexivity|].
    by rewrite Nat.iter_succ, Hother.
  - intros Hnone. unfold resolve. by rewrite Hnone.
Qed.

End CodesAndLinks.

(** ** The total stored by an auto-save *)

Section SavedTotal.

Import Pricing ShortLinks Formatters.

Lemma pretty_N_char_digit (d : N) :
  (d < 10)%N ->
  is_digit (pretty_N_char d) = true /\
  N.of_nat (nat_of_ascii (pretty_N_char d) - 48) = d.
Proof.
  intros Hd.
  assert (H : (d = 0 \/ d = 1 \/ d = 2 \/ d = 3 \/ d = 4 \/ d = 5 \/ d = 6 \/ d = 7
               \/ d = 8 \/ d = 9)%N) by lia.
  repeat (destruct H as [->|H]; [by vm_compute|]). subst d. by vm_compute.
Qed.

Lemma parse_pretty_N_go (x : N) (s : string) :
  parse_digits 0%N (pretty_N_go x s) = parse_digits x s /\
  keep_chars is_digit (pretty_N_go x s) = pretty_N_go x (keep_chars is_digit s).
Proof.
  revert s. induction (N.lt_wf_0 x) as [x _ IH]; intros s.
  destruct (N.eq_dec x 0%N) as [->|Hx].
  - rewrite !pretty_N_go_0. by split.
  - assert (Hpos : (0 < x)%N) by lia.
    rewrite !(pretty_N_go_step x) by exact Hpos.
    assert (Hlt : (x `div` 10 < x)%N) by (apply N.div_lt; lia).
    destruct (IH _ Hlt (String (pretty_N_char (x `mod` 10)) s)) as [IH1 IH2].
    destruct (pretty_N_char_digit (x `mod` 10)) as [Hd Hv];
      [apply N.mod_lt; lia|].
    split.
    + rewrite IH1. simpl parse_digits. rewrite Hv.
      f_equal. pose proof (N.div_mod x 10%N). lia.
    + rewrite IH2. simpl keep_chars. by rewrite Hd.
Qed.

Lemma parse_pretty (n : N) :
  parse_digits 0%N (pretty n) = n /\ keep_chars is_digit (pretty n) = pretty n.
Proof.
  unfold pretty, pretty_N. destruct (decide (n = 0%N)) as [->|Hn]; [by split|].
  destruct (parse_pretty_N_go n EmptyString) as [H1 H2]. by split.
Qed.

Lemma keep_chars_list (p : ascii -> bool) (l : list ascii) :
  keep_chars p (string_of_list_ascii l) = string_of_list_ascii (List.filter p l).
Proof.
  induction l as [|c l IH]; simpl; [reflexivity|].
  destruct (p c); simpl; by rewrite IH.
Qed.

Lemma keep_chars_string (p : ascii -> bool) (s : string) :
  list_ascii_of_string (keep_chars p s) = List.filter p (list_ascii_of_string s).
Proof.
  induction s as [|c s IH]; simpl; [reflexivity|].
  destruct (p c); simpl; by rewrite IH.
Qed.

Lemma group_thousands_digits (l : list ascii) :
  List.filter is_digit (group_thousands l) = List.filter is_digit l.
Proof.
  assert (G : forall n l, (length l <= n)%nat ->
                List.filter is_digit (group_thousands l) = List.filter is_digit l).
  { clear l. induction n as [|n IH]; intros l Hl.
    - destruct l; [reflexivity | simpl in Hl; lia].
    - destruct l as [|a [|b [|c [|d rest]]]]; try reflexivity.
      change (group_thousands (a :: b :: c :: d :: rest))
        with (a :: b :: c :: ","%char :: group_thousands (d :: rest)).
      assert (Hrest : List.filter is_digit (group_thousands (d :: rest))
                      = List.filter is_digit (d :: rest))
        by (apply IH; simpl in *; lia).
      change (a :: b :: c :: ","%char :: group_thousands (d :: rest))
        with ([a; b; c] ++ ","%char :: group_thousands (d :: rest)).
      change (a :: b :: c :: d :: rest) with ([a; b; c] ++ d :: rest).
      rewrite !List.filter_app.
      change (List.filter is_digit (","%char :: group_thousands (d :: rest)))
        with (List.filter is_digit (group_thousands (d :: rest))).
      by rewrite Hrest. }
  by apply (G (length l)).
Qed.

Lemma savedTotal_grouped (pre : string) (n : N) :
  keep_chars is_digit pre = EmptyString ->
  savedTotal (pre +:+ grouped n) = Z.of_N n.
Proof.
  intros Hpre. unfold savedTotal, parseInt_or_0. f_equal.
  assert (Happ : forall a b, keep_chars is_digit (a +:+ b)
                 = keep_chars is_digit a +:+ keep_chars is_digit b).
  { intros a b. induction a as [|c a IH]; [reflexivity|].
    change (String c a +:+ b) with (String c (a +:+ b)). simpl.
    destruct (is_digit c); [|exact IH].
    change (String c (keep_chars is_digit a) +:+ keep_chars is_digit b)
      with (String c (keep_chars is_digit a +:+ keep_chars is_digit b)).
    by rewrite IH. }
  rewrite Happ, Hpre. change (EmptyString +:+ ?x) with x.
  unfold grouped. rewrite keep_chars_list, List.filter_rev, group_thousands_digits,
    <- List.filter_rev, rev_involutive, <- keep_chars_string.
  destruct (parse_pretty n) as [Hparse Hkeep].
  rewrite Hkeep, string_of_list_ascii_of_string. exact Hparse.
Qed.

(** X28.  The total that an auto-save stores is read back from the
    header text written by [formatCurrency]: it is the magnitude of the
    grand total rounded to the nearest integer.  A total that is not
    negative is stored as its rounded value; a negative total is stored
    without its sign. *)
Theorem savedTotal_formatCurrency (n : Q) :
  savedTotal (formatCurrency (Some n)) = Z.abs (Qfloor (n + (1 # 2))) /\
  (0 <= n -> inject_Z (savedTotal (formatCurrency (Some n))) == Math_round n) /\
  (n < 0 -> inject_Z (savedTotal (formatCurrency (Some n))) == - Math_round n).
Proof.
  assert (Hr : integer_of (Math_round n) = Qfloor (n + (1 # 2))).
  { unfold integer_of, Math_round. apply Qfloor_Z. }
  assert (Hmain : savedTotal (formatCurrency (Some n)) = Z.abs (Qfloor (n + (1 # 2)))).
  { unfold formatCurrency. rewrite Hr.
    destruct (Qle_bool 0 n) eqn:Hn; simpl negb; cbv iota.
    - apply Qle_bool_iff in Hn.
      assert (H0 : (0 <= Qfloor (n + (1 # 2)))%Z).
      { change 0%Z with (Qfloor 0). apply Qfloor_resp_le. lra. }
      unfold toLocaleString.
      destruct (Z.ltb_spec (Qfloor (n + (1 # 2))) 0) as [Hneg|_]; [lia|].
      rewrite (savedTotal_grouped "$") by reflexivity. lia.
    - unfold toLocaleString.
      destruct (Z.ltb_spec (Z.abs (Qfloor (n + (1 # 2)))) 0) as [Hneg|_]; [lia|].
      rewrite (savedTotal_grouped "-$") by reflexivity. lia. }
  split; [exact Hmain|]. unfold Math_round. split; intros Hn; rewrite Hmain.
  - assert (H0 : (0 <= Qfloor (n + (1 # 2)))%Z).
    { change 0%Z with (Qfloor 0). apply Qfloor_resp_le. lra. }
    rewrite Z.abs_eq by exact H0. reflexivity.
  - assert (H0 : (Qfloor (n + (1 # 2)) <= 0)%Z).
    { change 0%Z with (Qfloor (1 # 2)). apply Qfloor_resp_le. lra. }
    rewrite Z.abs_neq by exact H0. rewrite inject_Z_opp. reflexivity.
Qed.

End SavedTotal.

(** ** Relative times *)

Section RelativeTime.

Import Formatters.

#[local] Open Scope Z_scope.

(** X29.  [formatRelative] sorts an age in milliseconds into five
    ranges: under one minute (a date in the future included) it says
    "Just now"; under one hour, one day and one week it gives the whole
    minutes, hours and days, which lie in 1..59, 1..23 and 1..6; from
    one week on it gives the formatted date. *)
Theorem formatRelative_ranges (formatDate : string) (diff : Z) :
  formatRelative formatDate (Some diff) =
    (if diff <? 60000 then "Just now"
     else if diff <? 3600000 then pretty (diff / 60000) +:+ "m ago"
     else if diff <? 86400000 then pretty (diff / 3600000) +:+ "h ago"
     else if diff <? 604800000 then pretty (diff / 86400000) +:+ "d ago"
     else formatDate) /\
  (60000 <= diff < 3600000 -> 1 <= diff / 60000 <= 59) /\
  (3600000 <= diff < 86400000 -> 1 <= diff / 3600000 <= 23) /\
  (86400000 <= diff < 604800000 -> 1 <= diff / 86400000 <= 6).
Proof.
  assert (Hm : diff / 1000 / 60 = diff / 60000)
    by (rewrite Z.div_div by lia; reflexivity).
  assert (Hh : diff / 1000 / 60 / 60 = diff / 3600000)
    by (rewrite !Z.div_div by lia; reflexivity).
  assert (Hd : diff / 1000 / 60 / 60 / 24 = diff / 86400000)
    by (rewrite !Z.div_div by lia; reflexivity).
  split; [|repeat split; intros; Z.to_euclidean_division_equations; lia].
  unfold formatRelative. cbv zeta. rewrite Hd, Hh, Hm.
  assert (Hs : (diff / 1000 <? 60) = (diff <? 60000)).
  { destruct (Z.ltb_spec (diff / 1000) 60), (Z.ltb_spec diff 60000); try reflexivity;
      Z.to_euclidean_division_equations; lia. }
  assert (Hm' : (diff / 60000 <? 60) = (diff <? 3600000)).
  { destruct (Z.ltb_spec (diff / 60000) 60), (Z.ltb_spec diff 3600000); try reflexivity;
      Z.to_euclidean_division_equations; lia. }
  assert (Hh' : (diff / 3600000 <? 24) = (diff <? 86400000)).
  { destruct (Z.ltb_spec (diff / 3600000) 24), (Z.ltb_spec diff 86400000);
      try reflexivity; Z.to_euclidean_division_equations; lia. }
  assert (Hd' : (diff / 86400000 <? 7) = (diff <? 604800000)).
  { destruct (Z.ltb_spec (diff / 86400000) 7), (Z.ltb_spec diff 604800000);
      try reflexivity; Z.to_euclidean_division_equations; lia. }
  rewrite Hs, Hm', Hh', Hd'. reflexivity.
Qed.

End RelativeTime.
